(** * AIEvoDev: mutation-based fitness evaluation of generated test suites

    A shallow embedding of the Python sources

      - [src/utils/fault_injector.py]          (module [fault_injector])
      - [src/environment/testing_env.py]       (module [testing_env])
      - [src/drq_engine/fitness_evaluator.py]  (modules [fitness_evaluator]
                                                and [fitness_evaluator_yaml])
      - [src/drq_engine/evolution_orchestrator.py] (modules
                        [evolution_orchestrator] and [evolution_orchestrator_yaml])
      - [src/utils.py]                         (module [utils])
      - [src/agents/tools.py]                  (module [tools])
      - [src/spec_parser/spec_parser.py]       (module [spec_parser])
      - [src/agents/test_generator_agent.py]   (module [test_generator_agent])
      - [src/core/main_orchestrator.py]        (module [main_orchestrator])
      - [src/core/cli.py]                      (module [cli])

    Conventions of the embedding.

    - Python exceptions are values of [exn]; a call either returns ([Ok]) or
      raises ([Raise]).  Code that mutates state runs in the monad [ST S],
      a state monad whose exceptions keep the state reached when they were
      raised, as a Python exception keeps every assignment made before it.
      Where exceptions of further classes matter ([OverflowError],
      [ZeroDivisionError], [KeyError], [yaml.YAMLError]) a call returns or
      raises a value of [errors.raised], and stateful code runs in
      [errors.SO S].
    - Python floats are idealised as exact rationals ([Q]); equality of two
      floats is [Qeq].  Where the rounding or the range of a double decides
      what a call does (the quotient of [calculate_average], the conversion
      of an integer that meets a float in the scoring step) the float is
      the double nearest to the rational, module [binary64].
    - The specification document is a record of the two settings the
      evaluator reads in [fitness_evaluator] and [evolution_orchestrator],
      where the properties are about the scores of documents of that form,
      and the object [yaml.safe_load] returned, of any form, in
      [fitness_evaluator_yaml] and [evolution_orchestrator_yaml], where the
      properties are about what is raised.
    - Python [str] values are [string]s of bytes.
    - [print] calls are dropped: standard output of the tool itself is not
      part of any property stated here.  The text made of an object for a
      [print] is kept where making it can raise, in the two modules on
      documents of any form.
    - What the sources import but do not define ([ast.parse], [ast.unparse],
      the [random] generator, [json.load], [json.dumps]) is a field of the
      class [Runtime]; every definition and theorem is parametric in it.
    - What happens outside the program (the processes started in a sandbox,
      the identifiers drawn for sandboxes, faults of the storage, the answers
      of the suite generator) is an argument of the operation it affects:
      records [sandbox], [surroundings], [collaborators] and [outside].
    - The storage is modelled below the directory of the test runs: a map
      from each working directory to its files.  [os.makedirs] and
      [shutil.rmtree] succeed.

    The file has three parts: the embedding, a small instance of [Runtime]
    with example inputs, and the properties with the examples they are run
    on. *)

From Stdlib Require Import ZArith QArith Qround Qpower Qabs Lia Lqa String Ascii List.
From stdpp Require Import base option list gmap strings pretty.

Local Open Scope Z_scope.
Local Open Scope string_scope.
Local Open Scope list_scope.
Set Warnings "-register-all".

(** ** Exceptions and the state-and-exception monad *)

Inductive exn_class :=
  | SyntaxError | ValueError | TypeError | RecursionError | IndexError
  | AttributeError | OSError | FileNotFoundError | TimeoutExpired
  | JSONDecodeError | RuntimeError.

(** An exception object: its class and [str(e)]. *)
Record exn := Exception { exn_cls : exn_class; exn_msg : string }.

Inductive result (A : Type) :=
  | Ok (a : A)
  | Raise (e : exn).
Arguments Ok {A} a.
Arguments Raise {A} e.

Definition ST (S A : Type) : Type := S -> result A * S.

#[global] Instance ST_ret {S} : MRet (ST S) := fun A a s => (Ok a, s).
#[global] Instance ST_bind {S} : MBind (ST S) := fun A B f m s =>
  match m s with
  | (Ok a, s') => f a s'
  | (Raise e, s') => (Raise e, s')
  end.

#[global] Instance result_ret : MRet result := fun A a => Ok a.
#[global] Instance result_bind : MBind result := fun A B f r =>
  match r with
  | Ok a => f a
  | Raise e => Raise e
  end.

Definition raise {S A} (e : exn) : ST S A := fun s => (Raise e, s).
Definition get {S} : ST S S := fun s => (Ok s, s).
Definition gets {S A} (f : S -> A) : ST S A := fun s => (Ok (f s), s).
Definition modify {S} (f : S -> S) : ST S unit := fun s => (Ok tt, f s).

(** [try: m except Exception as e: h e] *)
Definition try_except {S A} (m : ST S A) (h : exn -> ST S A) : ST S A := fun s =>
  match m s with
  | (Ok a, s') => (Ok a, s')
  | (Raise e, s') => h e s'
  end.

(** [try: m finally: fin].  The [finally] suite runs on both exits; the
    pending result, value or exception, is delivered after it unless the
    suite raises itself. *)
Definition try_finally {S A} (m : ST S A) (fin : ST S unit) : ST S A := fun s =>
  match m s with
  | (r, s') =>
    match fin s' with
    | (Ok _, s'') => (r, s'')
    | (Raise e, s'') => (Raise e, s'')
    end
  end.

(** [for x in l: body x] without [break]. *)
Fixpoint for_each {S A} (l : list A) (body : A -> ST S unit) : ST S unit :=
  match l with
  | [] => mret tt
  | x :: l' => body x ;; for_each l' body
  end.

(** [keeps R m]: on every exit of [m], by return or by exception, the
    final state is [R]-related to the initial one. *)
Definition keeps {S A} (R : S -> S -> Prop) (m : ST S A) : Prop := ∀ s, R s (m s).2.

(** ** Python syntax trees as a store of objects

    [ast] nodes are mutable objects compared by identity, and the injector
    assigns to their fields while it walks the tree.  A tree is therefore a
    store from object identities to nodes whose node-valued fields hold
    identities.  Operator objects ([ast.Add()], ...) have no fields and are
    never a fault location, so they are kept by value. *)
Module ast.

Definition loc := nat.

Inductive operator :=
  | Add | Sub | Mult | MatMult | Div | Mod | Pow
  | LShift | RShift | BitOr | BitXor | BitAnd | FloorDiv.
Inductive cmpop := Eq | NotEq | Lt | LtE | Gt | GtE | Is | IsNot | In | NotIn.
Inductive boolop := And | Or.
Inductive unaryop := Invert | Not | UAdd | USub.

#[global] Instance operator_eq_dec : EqDecision operator.
Proof. solve_decision. Defined.
#[global] Instance cmpop_eq_dec : EqDecision cmpop.
Proof. solve_decision. Defined.
#[global] Instance boolop_eq_dec : EqDecision boolop.
Proof. solve_decision. Defined.
#[global] Instance unaryop_eq_dec : EqDecision unaryop.
Proof. solve_decision. Defined.

(** The node classes the injector tells apart, with their fields in
    [_fields] order; every other class is [Other] with its class name (and
    whatever identifies its non-node fields) and its child nodes in the
    order [ast.iter_child_nodes] yields them. *)
Inductive node :=
  | BinOp (left : loc) (op : operator) (right : loc)
  | Compare (left : loc) (ops : list cmpop) (comparators : list loc)
  | BoolOp (op : boolop) (values : list loc)
  | UnaryOp (op : unaryop) (operand : loc)
  | If (test : loc) (body orelse : list loc)
  | While (test : loc) (body orelse : list loc)
  | Return (value : option loc)
  | Constant (value : Z)
  | Other (cls : string) (children : list loc).

Abbreviation heap := (gmap loc node).

Definition iter_child_nodes (n : node) : list loc :=
  match n with
  | BinOp l _ r => [l; r]
  | Compare l _ cs => l :: cs
  | BoolOp _ vs => vs
  | UnaryOp _ e => [e]
  | If t b e => t :: b ++ e
  | While t b e => t :: b ++ e
  | Return v => option_list v
  | Constant _ => []
  | Other _ cs => cs
  end.

(** Children of the object at [l]; an identity that names no object has
    none. *)
Definition children (h : heap) (l : loc) : list loc :=
  from_option iter_child_nodes [] (h !! l).

(** A new object: an identity not in use. *)
Definition alloc (h : heap) (n : node) : loc * heap :=
  let l := fresh (dom h) in (l, <[l := n]> h).

(** The shape of a tree of objects: the identity of each node with the
    shapes of its children. *)
Inductive shape := Shape (l : loc) (children : list shape).

Definition root (s : shape) : loc := let 'Shape l _ := s in l.

(** The identities in a shape, parents first. *)
Fixpoint nodes_of (s : shape) : list loc :=
  match s with
  | Shape l cs => l :: flat_map nodes_of cs
  end.

(** The objects of [h] below [root s] are laid out as [s] says. *)
Inductive shaped (h : heap) : shape -> Prop :=
  | shaped_node l n cs :
      h !! l = Some n ->
      iter_child_nodes n = map root cs ->
      Forall (shaped h) cs ->
      shaped h (Shape l cs).

(** [h] holds a tree at [tree]: its objects below [tree] have a shape in
    which no identity occurs twice. *)
Definition is_tree (h : heap) (tree : loc) : Prop :=
  ∃ s, root s = tree ∧ shaped h s ∧ NoDup (nodes_of s).

End ast.

(** ** What the sources import *)
Class Runtime := {
  (** the state of the generator behind the [random] module *)
  rng : Type;
  (** [random.seed(a)]: the state after seeding with [a] *)
  seed : Z -> rng;
  (** [random.sample(population, k)] for [0 <= k <= len(population)] *)
  sample : rng -> list ast.loc -> nat -> list ast.loc * rng;
  (** [Random._randbelow(n)] for [0 < n] *)
  randbelow : rng -> nat -> nat * rng;
  (** how deep calls of [visit] may nest before the interpreter raises
      [RecursionError] *)
  recursion_limit : nat;
  (** [ast.parse(code)]: the objects of the tree and its root *)
  parse : string -> result (ast.heap * ast.loc);
  (** [ast.unparse(tree)] *)
  unparse : ast.heap -> ast.loc -> result string;
  (** [json.load] of the text of a coverage report, followed by the two
      reads [.get('totals', {}).get('covered_lines')] and
      [.get('totals', {}).get('missing_lines')], [None] for an absent key;
      [JSONDecodeError] for a text that is not JSON, another exception for
      JSON of another form *)
  json_load : string -> result (option Z * option Z);
  (** [json.dumps(json.load(text), indent=2)] *)
  json_dumps : string -> string;
}.

(** [zoom_fst m] runs a computation on the first component of a pair of
    states: code that has no access to the second one. *)
Definition zoom_fst {S T A} (m : ST S A) : ST (S * T) A := fun st =>
  match m st.1 with
  | (r, s') => (r, (s', st.2))
  end.

(** ** [src/utils/fault_injector.py] *)
Module fault_injector.
Import ast.
Section with_runtime.
Context `{Runtime}.

(** The attributes of a [FaultInjector] object. *)
Record FaultInjector := {
  target_fault_count : Z;
  faults_injected : Z;
  possible_fault_locations : list loc;
}.

(** The objects the injector's methods read and assign: the injector itself
    and the nodes of the tree. *)
Record objects := { self : FaultInjector; nodes : heap }.

(** Methods that also draw from the [random] module run on the objects and
    the state of the generator. *)
Definition state : Type := objects * rng.

(** What a mutation of the node [l] leaves alone: every other object that
    was in the store. *)
Definition leaves_others (l : loc) (st st' : state) : Prop :=
  ∀ x, x ≠ l -> is_Some (nodes st.1 !! x) -> nodes st'.1 !! x = nodes st.1 !! x.

Definition set_self (f : FaultInjector -> FaultInjector) (o : objects) : objects :=
  {| self := f (self o); nodes := nodes o |}.
Definition set_nodes (f : heap -> heap) (o : objects) : objects :=
  {| self := self o; nodes := f (nodes o) |}.
Definition set_faults_injected (n : Z) (i : FaultInjector) : FaultInjector :=
  {| target_fault_count := target_fault_count i; faults_injected := n;
     possible_fault_locations := possible_fault_locations i |}.
Definition append_location (l : loc) (i : FaultInjector) : FaultInjector :=
  {| target_fault_count := target_fault_count i;
     faults_injected := faults_injected i;
     possible_fault_locations := possible_fault_locations i ++ [l] |}.

(** [FaultInjector.__init__] *)
Definition __init__ (target_fault_count : Z) : FaultInjector :=
  {| target_fault_count := target_fault_count; faults_injected := 0;
     possible_fault_locations := [] |}.

(** [isinstance(node, (ast.BinOp, ast.Compare, ast.BoolOp, ast.If,
    ast.While, ast.Return))] *)
Definition is_fault_location (n : node) : bool :=
  match n with
  | BinOp _ _ _ | Compare _ _ _ | BoolOp _ _ | If _ _ _ | While _ _ _
  | Return _ => true
  | UnaryOp _ _ | Constant _ | Other _ _ => false
  end.

(** [FaultInjector.visit]: record the node if it is a possible location,
    then [NodeTransformer.generic_visit], which calls [visit] on every child
    node in field order.  Each nested call uses up interpreter stack. *)
Fixpoint visit (depth : nat) (node : loc) : ST objects unit :=
  match depth with
  | O => raise (Exception RecursionError "maximum recursion depth exceeded")
  | S depth' =>
    h ← gets nodes;
    (if from_option is_fault_location false (h !! node)
     then modify (set_self (append_location node))
     else mret tt) ;;
    for_each (children h node) (visit depth')
  end.

(** [random.sample(population, k)] on the global generator. *)
Definition random_sample (population : list loc) (k : Z) : ST state (list loc) :=
  fun st =>
    if bool_decide (k < 0 ∨ Z.of_nat (length population) < k)
    then (Raise (Exception ValueError "Sample larger than population or is negative"), st)
    else let '(chosen, g) := sample st.2 population (Z.to_nat k) in
         (Ok chosen, (st.1, g)).

(** [random.choice(seq)] on the global generator:
    [seq[self._randbelow(len(seq))]]. *)
Definition random_choice {A} (seq : list A) : ST state A := fun st =>
  match seq with
  | [] => (Raise (Exception IndexError "Cannot choose from an empty sequence"), st)
  | _ =>
    let '(i, g) := randbelow st.2 (length seq) in
    match seq !! i with
    | Some x => (Ok x, (st.1, g))
    | None => (Raise (Exception IndexError "list index out of range"), (st.1, g))
    end
  end.

(** [random.seed(a)] *)
Definition random_seed (a : Z) : ST state unit := modify (fun st => (st.1, seed a)).

Definition get_node (node : loc) : ST state (option ast.node) :=
  gets (fun st : state => nodes st.1 !! node).
Definition set_node (node : loc) (n : ast.node) : ST state unit :=
  modify (fun st : state => (set_nodes <[node := n]> st.1, st.2)).
(** Creating a node object, as in [ast.UnaryOp(...)]. *)
Definition new_node (n : ast.node) : ST state loc := fun st =>
  let '(l, h) := alloc (nodes st.1) n in
  (Ok l, (set_nodes (fun _ => h) st.1, st.2)).

Definition _mutate_binop (node : loc) : ST state unit :=
  n ← get_node node;
  match n with
  | Some (BinOp lhs op rhs) =>
    let operators := [Add; Sub; Mult; Div; Mod] in
    let current_op_type := op in
    new_op ← random_choice (filter (fun op => op ≠ current_op_type) operators);
    set_node node (BinOp lhs new_op rhs)
  | _ => mret tt
  end.

Definition _mutate_compare (node : loc) : ST state unit :=
  n ← get_node node;
  match n with
  | Some (Compare lhs (current_comp_type :: ops') cs) =>
    let comparators := [Eq; NotEq; Lt; LtE; Gt; GtE] in
    new_comp ← random_choice (filter (fun comp => comp ≠ current_comp_type) comparators);
    set_node node (Compare lhs (new_comp :: ops') cs)
  | _ => mret tt
  end.

Definition _mutate_boolop (node : loc) : ST state unit :=
  n ← get_node node;
  match n with
  | Some (BoolOp op values) =>
    let bool_ops := [And; Or] in
    let current_bool_op_type := op in
    new_bool_op ← random_choice (filter (fun op => op ≠ current_bool_op_type) bool_ops);
    set_node node (BoolOp new_bool_op values)
  | _ => mret tt
  end.

Definition _mutate_if_condition (node : loc) : ST state unit :=
  n ← get_node node;
  match n with
  | Some (If test body orelse) =>
    t ← get_node test;
    match t with
    | Some (UnaryOp Not operand) => set_node node (If operand body orelse)
    | _ =>
      negated ← new_node (UnaryOp Not test);
      set_node node (If negated body orelse)
    end
  | _ => mret tt
  end.

Definition _mutate_return_value (node : loc) : ST state unit :=
  n ← get_node node;
  match n with
  | Some (Return (Some _)) =>
    zero ← new_node (Constant 0);
    set_node node (Return (Some zero))
  | _ => mret tt
  end.

(** The [isinstance] chain of [_inject_faults_in_tree]; a [While] node has
    no branch. *)
Definition mutate (node : loc) : ST state unit :=
  n ← get_node node;
  match n with
  | Some (BinOp _ _ _) => _mutate_binop node
  | Some (Compare _ _ _) => _mutate_compare node
  | Some (BoolOp _ _) => _mutate_boolop node
  | Some (If _ _ _) => _mutate_if_condition node
  | Some (Return _) => _mutate_return_value node
  | _ => mret tt
  end.

(** The loop [for node in ast.walk(tree): ...] of [_inject_faults_in_tree].
    [ast.walk] keeps a queue; it takes the first node, appends that node's
    children and only then yields the node to the loop body.  [pending]
    bounds the number of nodes still to be yielded; the walk of a tree ends
    because its queue is empty, not because of the bound (lemma
    [inject_faults_in_tree_bound]). *)
Fixpoint walk_loop (pending : nat) (todo : list loc) (locations_to_fault : list loc)
    : ST state unit :=
  match pending, todo with
  | S pending', node :: todo' =>
    h ← gets (fun st : state => nodes st.1);
    let todo'' := todo' ++ children h node in
    i ← gets (fun st : state => self st.1);
    if bool_decide (node ∈ locations_to_fault)
       && bool_decide (faults_injected i < target_fault_count i)
    then
      mutate node ;;
      modify (fun st : state =>
        (set_self (set_faults_injected (faults_injected (self st.1) + 1)) st.1, st.2)) ;;
      i' ← gets (fun st : state => self st.1);
      if bool_decide (faults_injected i' = target_fault_count i')
      then mret tt
      else walk_loop pending' todo'' locations_to_fault
    else walk_loop pending' todo'' locations_to_fault
  | _, _ => mret tt
  end.

(** The walk is bounded by the number of objects in the store: every
    object of a tree is yielded once, and the objects made by a mutation
    are not yielded at all (the children of a node are queued before the
    node is mutated). *)
Definition _inject_faults_in_tree (tree : loc) (locations_to_fault : list loc)
    : ST state unit :=
  h ← gets (fun st : state => nodes st.1);
  walk_loop (size h) [tree] locations_to_fault.

Definition inject_faults (tree : loc) : ST state loc :=
  zoom_fst (visit recursion_limit tree) ;;
  i ← gets (fun st : state => self st.1);
  match possible_fault_locations i with
  | [] => mret tree
  | _ =>
    random_seed 0 ;;
    locations_to_fault ←
      random_sample (possible_fault_locations i)
        (Z.min (target_fault_count i) (Z.of_nat (length (possible_fault_locations i))));
    modify (fun st : state => (set_self (set_faults_injected 0) st.1, st.2)) ;;
    _inject_faults_in_tree tree locations_to_fault ;;
    mret tree
  end.

(** [inject_simple_fault(code, num_faults)], on the state of the global
    generator.  Both [except] clauses return [code]. *)
Definition inject_simple_fault (code : string) (num_faults : Z) : ST rng string :=
  try_except
    (fun g =>
      match parse code with
      | Raise e => (Raise e, g)
      | Ok (h, tree) =>
        let injector := __init__ num_faults in
        match inject_faults tree ({| self := injector; nodes := h |}, g) with
        | (Ok mutated_tree, st) => (unparse (nodes st.1) mutated_tree, st.2)
        | (Raise e, st) => (Raise e, st.2)
        end
      end)
    (fun e => mret code).

End with_runtime.
End fault_injector.

(** ** Strings and paths, as far as the sources use them *)
Module py.

(** [str.lower] on ASCII letters (no other character lower-cases to a
    letter of a framework name that [run_tests] accepts). *)
Definition lower_ascii (c : ascii) : ascii :=
  let n := nat_of_ascii c in
  if ((65 <=? n) && (n <=? 90))%nat then ascii_of_nat (n + 32) else c.
Fixpoint lower (s : string) : string :=
  match s with
  | EmptyString => EmptyString
  | String c s' => String (lower_ascii c) (lower s')
  end.

(** [str.isspace] of one character of an ASCII text. *)
Definition isspace (c : ascii) : bool :=
  let n := nat_of_ascii c in
  (((9 <=? n) && (n <=? 13)) || ((28 <=? n) && (n <=? 32)))%nat.
Fixpoint lstrip (s : string) : string :=
  match s with
  | String c s' => if isspace c then lstrip s' else s
  | EmptyString => EmptyString
  end.
(** [rstrip]: drop the characters after the last one that is not a space. *)
Fixpoint rstrip (s : string) : string :=
  match s with
  | EmptyString => EmptyString
  | String c s' =>
    match rstrip s' with
    | EmptyString => if isspace c then EmptyString else String c EmptyString
    | t => String c t
    end
  end.
(** [str.strip()] *)
Definition strip (s : string) : string := rstrip (lstrip s).

(** [sub in s] *)
Definition contains (sub s : string) : bool :=
  match String.index 0 sub s with Some _ => true | None => false end.

(** [os.path.join(a, b)] for a relative [b]. *)
Definition path_join (a b : string) : string :=
  if decide (a = "") then b else a +:+ "/" +:+ b.

(** [os.path.relpath(path, start)] for a [path] below [start]. *)
Definition relpath (path start : string) : string :=
  let d := start +:+ "/" in
  if String.prefix d path
  then String.substring (String.length d) (String.length path - String.length d) path
  else path.

(** [round(x, 2)]: to the nearest multiple of 1/100, ties to the even one. *)
Definition round_half_even (q : Q) : Z :=
  let f := Qfloor q in
  match (q - inject_Z f ?= 1 # 2)%Q with
  | Lt => f
  | Gt => f + 1
  | Eq => if Z.even f then f else f + 1
  end.
Definition round2 (q : Q) : Q := inject_Z (round_half_even (q * 100)) / 100.

(** [max(0.0, x)]: the first argument unless the second is greater. *)
Definition max0 (x : Q) : Q := if Qlt_le_dec 0 x then x else 0%Q.

End py.

(** ** [src/environment/testing_env.py] *)
Module testing_env.

(** The storage under the base directory: each working directory that
    exists, with the text of the files in it by their path relative to the
    directory. *)
Abbreviation storage := (gmap string (gmap string string)).

(** [subprocess.CompletedProcess] *)
Record CompletedProcess := { returncode : Z; stdout : string; stderr : string }.

(** What happens around one sandbox, outside the program's control. *)
Record sandbox := {
  (** [str(uuid.uuid4())] drawn by the constructor *)
  uuid4 : string;
  (** which of the file writes of [setup_environment], counted from 0,
      fails with [OSError], if any *)
  write_fault : option nat;
  (** [subprocess.run(command, ..., cwd=run_dir)]: the completed process, or
      the exception raised ([TimeoutExpired], [FileNotFoundError], ...) *)
  subprocess_run : list string -> result CompletedProcess;
  (** the text [coverage json -o coverage.json] leaves in [coverage.json],
      if it writes the file *)
  coverage_json_text : option string;
}.

(** The attributes of a [TestingEnvironment] object; the two paths are set
    by [setup_environment]. *)
Record TestingEnvironment := {
  base_dir : string;
  run_dir : string;
  source_file_path : option string;
  test_file_path : option string;
}.

(** Reading an attribute that was never assigned. *)
Definition attribute {S A} (name : string) (a : option A) : ST S A :=
  match a with
  | Some x => mret x
  | None => raise (Exception AttributeError
              ("'TestingEnvironment' object has no attribute '" +:+ name +:+ "'"))
  end.

(** [os.makedirs(d, exist_ok=True)] *)
Definition makedirs (d : string) : ST storage unit :=
  modify (fun fs : storage => match fs !! d with Some _ => fs | None => <[d := ∅]> fs end).

(** [TestingEnvironment.__init__] *)
Definition __init__ (o : sandbox) (base_dir : string) : ST storage TestingEnvironment :=
  let run_dir := py.path_join base_dir (uuid4 o) in
  makedirs run_dir ;;
  mret {| base_dir := base_dir; run_dir := run_dir;
          source_file_path := None; test_file_path := None |}.

(** [_write_file]; [fails] tells whether this write is the one that the
    storage refuses.  [filename] has no directory part in any call made by
    the evaluator, so the directory made before the write is [run_dir]. *)
Definition _write_file (fails : bool) (self : TestingEnvironment)
    (filename content : string) : ST storage string :=
  let file_path := py.path_join (run_dir self) filename in
  makedirs (run_dir self) ;;
  if fails then raise (Exception OSError "[Errno 28] No space left on device")
  else
    modify (fun fs : storage =>
      <[run_dir self := <[filename := content]> (default ∅ (fs !! run_dir self))]> fs) ;;
    mret file_path.

Definition is_fault (o : sandbox) (n : nat) : bool := bool_decide (write_fault o = Some n).

(** [setup_environment]; the directory part of both file names is empty, so
    both [__init__.py] files are [run_dir/__init__.py]. *)
Definition setup_environment (o : sandbox) (self : TestingEnvironment)
    (source_code test_code source_filename test_filename : string)
    : ST storage TestingEnvironment :=
  source_path ← _write_file (is_fault o 0) self source_filename source_code;
  test_path ← _write_file (is_fault o 1) self test_filename test_code;
  _write_file (is_fault o 2) self "__init__.py" "" ;;
  _write_file (is_fault o 3) self "__init__.py" "" ;;
  mret {| base_dir := base_dir self; run_dir := run_dir self;
          source_file_path := Some source_path; test_file_path := Some test_path |}.

(** The [try] block of [run_tests]: [subprocess.run] with its three
    [except] clauses. *)
Definition run_guarded (o : sandbox) (command : list string) : Z * string * string :=
  match subprocess_run o command with
  | Ok result => (returncode result, stdout result, stderr result)
  | Raise e =>
    match exn_cls e with
    | TimeoutExpired => (1, "", "Error: Test execution timed out.")
    | FileNotFoundError => (1, "", "Error: pytest/python executable not found.")
    | _ => (1, "", "Error running tests: " +:+ exn_msg e)
    end
  end.

(** [run_tests]: exit code, stdout, stderr. *)
Definition run_tests (o : sandbox) (self : TestingEnvironment) (framework : string)
    : ST storage (Z * string * string) :=
  command ←
    (if decide (py.lower framework = "pytest") then
       p ← attribute "test_file_path" (test_file_path self);
       mret ["pytest"; p; "-q"; "--tb=short"]
     else if decide (py.lower framework = "unittest") then
       p ← attribute "test_file_path" (test_file_path self);
       mret ["python"; "-m"; "unittest"; p]
     else raise (Exception ValueError ("Unsupported test framework: " +:+ framework)));
  mret (run_guarded o command).

(** A [subprocess.run] call outside any [try]: its exception propagates. *)
Definition run {S} (o : sandbox) (command : list string) : ST S CompletedProcess :=
  fun s => (subprocess_run o command, s).

Section with_runtime.
Context `{Runtime}.

(** The [try] block of [get_coverage] that reads the report. *)
Definition read_report (text : string) : Q * string :=
  match json_load text with
  | Ok (covered_lines, missing_lines) =>
    let total_covered := default 0 covered_lines in
    let total_missed := default 0 missing_lines in
    let total_lines := total_covered + total_missed in
    if bool_decide (total_lines > 0) then
      let percentage := (inject_Z total_covered / inject_Z total_lines * 100)%Q in
      (py.round2 percentage, json_dumps text)
    else (0%Q, "No executable lines found for coverage.")
  | Raise e =>
    match exn_cls e with
    | JSONDecodeError => (0%Q, "Failed to parse coverage JSON report.")
    | _ => (0%Q, "Error processing coverage report: " +:+ exn_msg e)
    end
  end.

(** [get_coverage]: coverage percentage and raw report. *)
Definition get_coverage (o : sandbox) (self : TestingEnvironment) : ST storage (Q * string) :=
  source_path ← attribute "source_file_path" (source_file_path self);
  let relative_source_path := py.relpath source_path (run_dir self) in
  run o ["coverage"; "erase"] ;;
  test_path ← attribute "test_file_path" (test_file_path self);
  let coverage_run_cmd :=
    ["coverage"; "run"; "--source"; relative_source_path;
     "-m"; "pytest"; test_path; "-q"; "--tb=no"] in
  run_result ← run o coverage_run_cmd;
  if bool_decide (returncode run_result ≠ 0)
     && negb (py.contains "Coverage.py warning" (stderr run_result))
  then mret (0%Q, "Coverage run failed: " +:+ stderr run_result)
  else
    let report_cmd := ["coverage"; "json"; "-o"; "coverage.json"] in
    report_result ← run o report_cmd;
    (* the effect of the report command on the working directory *)
    match coverage_json_text o with
    | Some text =>
      modify (fun fs : storage =>
        <[run_dir self := <["coverage.json" := text]> (default ∅ (fs !! run_dir self))]> fs)
    | None => mret tt
    end ;;
    if bool_decide (returncode report_result ≠ 0)
    then mret (0%Q, "Coverage report failed: " +:+ stderr report_result)
    else
      fs ← get;
      match fs !! run_dir self ≫= (fun d => d !! "coverage.json") with
      | None => mret (0%Q, "Coverage JSON report not generated.")
      | Some text => mret (read_report text)
      end.

End with_runtime.

(** Two storages that differ at most in the working directory [d]. *)
Definition same_outside (d : string) (fs fs' : storage) : Prop :=
  delete d fs' = delete d fs.

(** The framework selectors [run_tests] has a command for. *)
Definition supported (framework : string) : Prop :=
  py.lower framework = "pytest" ∨ py.lower framework = "unittest".

(** The line counts of every coverage report that can be decoded are not
    negative. *)
Definition counts_nonneg `{Runtime} : Prop :=
  ∀ text covered_lines missing_lines,
    json_load text = Ok (covered_lines, missing_lines) ->
    0 <= default 0 covered_lines ∧ 0 <= default 0 missing_lines.

(** [cleanup]: [shutil.rmtree(run_dir)] if the directory exists. *)
Definition cleanup (self : TestingEnvironment) : ST storage unit :=
  fs ← get;
  if bool_decide (is_Some (fs !! run_dir self))
  then modify (fun fs : storage => delete (run_dir self) fs)
  else mret tt.

End testing_env.

(** ** [src/drq_engine/fitness_evaluator.py] *)
Module fitness_evaluator.
Import testing_env.

(** The [results] dictionary of [evaluate_tests]. *)
Record Results := {
  test_pass_rate_correct_function : Q;
  code_coverage_percentage : Q;
  bug_detection_rate : Q;
  false_positives_detected : bool;
  test_suite_run_output : string;
  test_suite_error_output : string;
  coverage_report_raw : string;
  total_score : Q;
}.

(** A scalar read from the specification document: a number, or anything
    else (a quoted text such as ["90%"], a null). *)
Inductive yaml_value := YNum (q : Q) | YStr (s : string).

(** [test_spec.get("test_specifications", {})]: the two keys the evaluator
    reads, [None] when the key (or the whole section) is absent. *)
Record test_specifications := {
  min_coverage_percentage : option yaml_value;
  framework : option string;
}.

(** What happens outside the program during one call of [evaluate_tests]:
    around the sandbox of the correct function and around the sandbox of
    each iteration of the fault-injection loop. *)
Record surroundings := {
  correct : sandbox;
  mutated : nat -> sandbox;
}.

(** The state [evaluate_tests] works on: its local variables that are
    assigned inside [try] blocks and loops, the storage, and the global
    random generator. *)
Record frame `{Runtime} := {
  results : Results;
  detected_bugs : Z;
  total_faults_attempted : Z;
  fs : storage;
  random : rng;
}.

Section with_runtime.
Context `{Runtime}.

Definition on_storage {A} (m : ST storage A) : ST frame A := fun f =>
  match m (fs f) with
  | (r, fs') =>
    (r, {| results := results f; detected_bugs := detected_bugs f;
           total_faults_attempted := total_faults_attempted f;
           fs := fs'; random := random f |})
  end.
Definition on_random {A} (m : ST rng A) : ST frame A := fun f =>
  match m (random f) with
  | (r, g') =>
    (r, {| results := results f; detected_bugs := detected_bugs f;
           total_faults_attempted := total_faults_attempted f;
           fs := fs f; random := g' |})
  end.
Definition set_results (u : Results -> Results) : ST frame unit :=
  modify (fun f =>
    {| results := u (results f); detected_bugs := detected_bugs f;
       total_faults_attempted := total_faults_attempted f;
       fs := fs f; random := random f |}).
Definition incr_detected_bugs : ST frame unit :=
  modify (fun f =>
    {| results := results f; detected_bugs := detected_bugs f + 1;
       total_faults_attempted := total_faults_attempted f;
       fs := fs f; random := random f |}).
Definition incr_total_faults_attempted : ST frame unit :=
  modify (fun f =>
    {| results := results f; detected_bugs := detected_bugs f;
       total_faults_attempted := total_faults_attempted f + 1;
       fs := fs f; random := random f |}).

Definition initial_results : Results :=
  {| test_pass_rate_correct_function := 0; code_coverage_percentage := 0;
     bug_detection_rate := 0; false_positives_detected := false;
     test_suite_run_output := ""; test_suite_error_output := "";
     coverage_report_raw := ""; total_score := 0 |}.

Definition with_pass_rate (p : Q) (r : Results) : Results :=
  {| test_pass_rate_correct_function := p;
     code_coverage_percentage := code_coverage_percentage r;
     bug_detection_rate := bug_detection_rate r;
     false_positives_detected := false_positives_detected r;
     test_suite_run_output := test_suite_run_output r;
     test_suite_error_output := test_suite_error_output r;
     coverage_report_raw := coverage_report_raw r;
     total_score := total_score r |}.
Definition with_false_positives (fp : bool) (r : Results) : Results :=
  {| test_pass_rate_correct_function := test_pass_rate_correct_function r;
     code_coverage_percentage := code_coverage_percentage r;
     bug_detection_rate := bug_detection_rate r;
     false_positives_detected := fp;
     test_suite_run_output := test_suite_run_output r;
     test_suite_error_output := test_suite_error_output r;
     coverage_report_raw := coverage_report_raw r;
     total_score := total_score r |}.
Definition with_coverage (c : Q) (raw : string) (r : Results) : Results :=
  {| test_pass_rate_correct_function := test_pass_rate_correct_function r;
     code_coverage_percentage := c;
     bug_detection_rate := bug_detection_rate r;
     false_positives_detected := false_positives_detected r;
     test_suite_run_output := test_suite_run_output r;
     test_suite_error_output := test_suite_error_output r;
     coverage_report_raw := raw;
     total_score := total_score r |}.
Definition with_bug_detection_rate (b : Q) (r : Results) : Results :=
  {| test_pass_rate_correct_function := test_pass_rate_correct_function r;
     code_coverage_percentage := code_coverage_percentage r;
     bug_detection_rate := b;
     false_positives_detected := false_positives_detected r;
     test_suite_run_output := test_suite_run_output r;
     test_suite_error_output := test_suite_error_output r;
     coverage_report_raw := coverage_report_raw r;
     total_score := total_score r |}.
Definition with_total_score (t : Q) (r : Results) : Results :=
  {| test_pass_rate_correct_function := test_pass_rate_correct_function r;
     code_coverage_percentage := code_coverage_percentage r;
     bug_detection_rate := bug_detection_rate r;
     false_positives_detected := false_positives_detected r;
     test_suite_run_output := test_suite_run_output r;
     test_suite_error_output := test_suite_error_output r;
     coverage_report_raw := coverage_report_raw r;
     total_score := t |}.
Definition add_run_output (t : string) (r : Results) : Results :=
  {| test_pass_rate_correct_function := test_pass_rate_correct_function r;
     code_coverage_percentage := code_coverage_percentage r;
     bug_detection_rate := bug_detection_rate r;
     false_positives_detected := false_positives_detected r;
     test_suite_run_output := test_suite_run_output r +:+ t;
     test_suite_error_output := test_suite_error_output r;
     coverage_report_raw := coverage_report_raw r;
     total_score := total_score r |}.
Definition add_error_output (t : string) (r : Results) : Results :=
  {| test_pass_rate_correct_function := test_pass_rate_correct_function r;
     code_coverage_percentage := code_coverage_percentage r;
     bug_detection_rate := bug_detection_rate r;
     false_positives_detected := false_positives_detected r;
     test_suite_run_output := test_suite_run_output r;
     test_suite_error_output := test_suite_error_output r +:+ t;
     coverage_report_raw := coverage_report_raw r;
     total_score := total_score r |}.

Definition nl : string := String (ascii_of_nat 10) EmptyString.

(** What part 1 establishes about the scores: a suite that failed on the
    correct function has pass rate 0, and the coverage is not negative. *)
Definition consistent (r : Results) : Prop :=
  (false_positives_detected r = true -> test_pass_rate_correct_function r = 0%Q)
  ∧ (0 <= code_coverage_percentage r)%Q.

(** Two dictionaries with the same pass rate, coverage and false-positive
    flag. *)
Definition same_scores (r r' : Results) : Prop :=
  test_pass_rate_correct_function r' = test_pass_rate_correct_function r
  ∧ code_coverage_percentage r' = code_coverage_percentage r
  ∧ false_positives_detected r' = false_positives_detected r.

(** Part 1 of [evaluate_tests]: the suite against the correct function. *)
Definition evaluate_correct (o : sandbox) (base : string)
    (original_function_code generated_test_code framework : string) : ST frame unit :=
  env_correct ← on_storage (__init__ o base);
  try_finally
    (try_except
      (env ← on_storage (setup_environment o env_correct original_function_code
                           generated_test_code "target_function.py" "test_target_function.py");
       '(return_code, out, err) ← on_storage (run_tests o env framework);
       set_results (add_run_output
         ("--- Tests vs. Correct Function ---" +:+ nl +:+ "STDOUT:" +:+ nl +:+ out
            +:+ nl +:+ "STDERR:" +:+ nl +:+ err +:+ nl)) ;;
       (if bool_decide (return_code = 0)
        then set_results (with_pass_rate 100)
        else set_results (with_false_positives true) ;;
             set_results (with_pass_rate 0)) ;;
       '(coverage_percentage, coverage_report) ← on_storage (get_coverage o env);
       set_results (with_coverage coverage_percentage coverage_report))
      (fun e => set_results (add_error_output ("Error: " +:+ exn_msg e +:+ nl))))
    (on_storage (cleanup env_correct)).

(** One iteration of the loop of part 2. *)
Definition fault_injection (o : sandbox) (base : string)
    (original_function_code generated_test_code framework : string) (i : nat)
    : ST frame unit :=
  mutated_function_code ←
    on_random (fault_injector.inject_simple_fault original_function_code 1);
  if decide (py.strip mutated_function_code = py.strip original_function_code)
  then mret tt
  else
    incr_total_faults_attempted ;;
    env_mutated ← on_storage (__init__ o base);
    try_finally
      (try_except
        (env ← on_storage (setup_environment o env_mutated mutated_function_code
                             generated_test_code
                             ("mutated_function_" +:+ pretty i +:+ ".py")
                             "test_target_function.py");
         '(return_code, out, err) ← on_storage (run_tests o env framework);
         set_results (add_run_output
           ("--- Tests vs. Mutated " +:+ pretty (i + 1)%nat +:+ " ---" +:+ nl
              +:+ "STDOUT:" +:+ nl +:+ out +:+ nl +:+ "STDERR:" +:+ nl +:+ err +:+ nl)) ;;
         if bool_decide (return_code ≠ 0) then incr_detected_bugs else mret tt)
        (fun e => set_results (add_error_output
           ("Error mutation " +:+ pretty (i + 1)%nat +:+ ": " +:+ exn_msg e +:+ nl))))
      (on_storage (cleanup env_mutated)).

(** Part 3 of [evaluate_tests].  Comparing the coverage, a float, with a
    value that is not a number raises [TypeError]. *)
Definition calculate_total_score (r : Results) (min_coverage_spec : yaml_value)
    : result Q :=
  let score := 0%Q in
  let score := if false_positives_detected r then (score - 100)%Q else score in
  let score := (score + test_pass_rate_correct_function r * (1 # 2))%Q in
  score ←
    (if Qeq_bool (test_pass_rate_correct_function r) 100 then
       let score := (score + code_coverage_percentage r * (3 # 10))%Q in
       match min_coverage_spec with
       | YNum min_coverage =>
         if Qlt_le_dec (code_coverage_percentage r) min_coverage
         then Ok (score - (min_coverage - code_coverage_percentage r) * (1 # 2))%Q
         else Ok score
       | YStr _ =>
         Raise (Exception TypeError
           "'<' not supported between instances of 'float' and 'str'")
       end
     else Ok (score - code_coverage_percentage r * (1 # 10))%Q);
  let score :=
    if Qeq_bool (test_pass_rate_correct_function r) 100
       && negb (false_positives_detected r)
    then (score + bug_detection_rate r * (1 # 5))%Q else score in
  Ok (py.max0 score).

(** The rate assigned after the loop. *)
Definition rate (detected_bugs total_faults_attempted : Z) : Q :=
  if bool_decide (total_faults_attempted > 0)
  then (inject_Z detected_bugs / inject_Z total_faults_attempted * 100)%Q
  else 0%Q.

Definition evaluate_tests_body (o : surroundings) (project_root_dir : string)
    (original_function_code generated_test_code : string)
    (test_spec : test_specifications) (num_fault_injections : Z) : ST frame Results :=
  let min_coverage_spec := default (YNum 0) (min_coverage_percentage test_spec) in
  let framework := default "pytest" (framework test_spec) in
  let base := py.path_join (py.path_join project_root_dir "output") "test_runs" in
  evaluate_correct (correct o) base original_function_code generated_test_code framework ;;
  for_each (seq 0 (Z.to_nat num_fault_injections)) (fun i =>
    fault_injection (mutated o i) base original_function_code generated_test_code
      framework i) ;;
  f ← get;
  set_results (with_bug_detection_rate (rate (detected_bugs f) (total_faults_attempted f))) ;;
  r ← gets results;
  match calculate_total_score r min_coverage_spec with
  | Raise e => raise e
  | Ok score =>
    set_results (with_total_score score) ;;
    gets results
  end.

(** [FitnessEvaluator.evaluate_tests], on the storage and the global random
    generator. *)
Definition evaluate_tests (o : surroundings) (project_root_dir : string)
    (original_function_code generated_test_code : string)
    (test_spec : test_specifications) (num_fault_injections : Z)
    : ST (storage * rng) Results := fun w =>
  match evaluate_tests_body o project_root_dir original_function_code
          generated_test_code test_spec num_fault_injections
          {| results := initial_results; detected_bugs := 0;
             total_faults_attempted := 0; fs := w.1; random := w.2 |} with
  | (r, f) => (r, (fs f, random f))
  end.

End with_runtime.
End fitness_evaluator.

(** [zoom_snd m] runs a computation on the second component of a pair of
    states. *)
Definition zoom_snd {S T A} (m : ST T A) : ST (S * T) A := fun st =>
  match m st.2 with
  | (r, t') => (r, (st.1, t'))
  end.

(** ** [src/drq_engine/evolution_orchestrator.py] *)
Module evolution_orchestrator.
Import testing_env fitness_evaluator.

(** An entry of [evolution_history].  [fitness_results] is [None] for the
    empty dictionary.  The time stamp and the hash of the suite, which no
    decision reads, are left out; the files written by
    [_save_generation_data] are dumps of the suite and of this list. *)
Record entry := {
  generation : nat;
  tests_content_summary : string;
  fitness_results : option Results;
  status : string;
}.

(** The attributes of an [EvolutionOrchestrator] that [evolve_tests]
    assigns; [current_best_fitness] is [None] for the empty dictionary. *)
Record EvolutionOrchestrator := {
  evolution_history : list entry;
  current_best_tests : option string;
  current_best_fitness : option Results;
}.

(** What lies outside the program during one run: the answer of the
    suite generator in each generation, given the feedback it is passed,
    and the surroundings of each evaluation. *)
Record collaborators := {
  generate_tests : nat -> option Results -> result string;
  evaluation : nat -> surroundings;
}.

(** The total score of the best suite held ([0] before generation 0). *)
Definition best_total (s : EvolutionOrchestrator) : Q :=
  from_option total_score 0%Q (current_best_fitness s).

(** The history entry of a generation whose suite generator raised. *)
Definition error_entry (gen : nat) : entry :=
  {| generation := gen; tests_content_summary := "ERROR_GENERATION";
     fitness_results := None; status := "error" |}.

(** The best suite is the same, or has a strictly greater total score. *)
Definition advances (s s' : EvolutionOrchestrator) : Prop :=
  current_best_fitness s' = current_best_fitness s
  ∨ (best_total s < best_total s')%Q.

Section with_runtime.
Context `{Runtime}.

Definition state : Type := EvolutionOrchestrator * (storage * rng).

Definition advancing (st st' : state) : Prop := advances st.1 st'.1.

(** [EvolutionOrchestrator.__init__] *)
Definition __init__ : EvolutionOrchestrator :=
  {| evolution_history := []; current_best_tests := None;
     current_best_fitness := None |}.

Definition _save_generation_data (generation : nat) (tests : string)
    (fitness_results : option Results) (status : string) : ST state unit :=
  let entry :=
    {| generation := generation;
       tests_content_summary :=
         if bool_decide (200 < String.length tests)%nat
         then String.substring 0 200 tests +:+ "..." else tests;
       fitness_results := fitness_results;
       status := status |} in
  modify (fun st : state =>
    ({| evolution_history := evolution_history st.1 ++ [entry];
        current_best_tests := current_best_tests st.1;
        current_best_fitness := current_best_fitness st.1 |}, st.2)).

Definition set_best (tests : string) (fitness : Results) : ST state unit :=
  modify (fun st : state =>
    ({| evolution_history := evolution_history st.1;
        current_best_tests := Some tests;
        current_best_fitness := Some fitness |}, st.2)).

(** [d["total_score"]] on a fitness dictionary. *)
Definition get_total_score (d : option Results) : ST state Q :=
  match d with
  | Some r => mret (total_score r)
  | None => raise (Exception RuntimeError "KeyError: 'total_score'")
  end.

(** The call of the suite generator. *)
Definition call_generator (c : collaborators) (gen : nat) (feedback : option Results)
    : ST state string :=
  fun st => (generate_tests c gen feedback, st).

(** The part of [evolve_tests] before the loop. *)
Definition initial_generation (c : collaborators) (project_root_dir : string)
    (target_function_code : string) (parsed_gsd_spec : test_specifications)
    : ST state unit :=
  initial_tests ← call_generator c 0 None;
  initial_fitness ←
    zoom_snd (evaluate_tests (evaluation c 0) project_root_dir target_function_code
                initial_tests parsed_gsd_spec 3);
  set_best initial_tests initial_fitness ;;
  _save_generation_data 0 initial_tests (Some initial_fitness) "initial_generation".

(** The body of the loop [for gen in range(1, max_generations + 1)]. *)
Definition next_generation (c : collaborators) (project_root_dir : string)
    (target_function_code : string) (parsed_gsd_spec : test_specifications)
    (gen : nat) : ST state unit :=
  best ← gets (fun st : state => current_best_fitness st.1);
  generated ← try_except (t ← call_generator c gen best; mret (Some t))
                 (fun e => _save_generation_data gen "ERROR_GENERATION" None "error" ;;
                           mret None);
  match generated with
  | None => mret tt
  | Some candidate_tests =>
    candidate_fitness ←
      zoom_snd (evaluate_tests (evaluation c gen) project_root_dir target_function_code
                  candidate_tests parsed_gsd_spec 3);
    best ← gets (fun st : state => current_best_fitness st.1);
    best_score ← get_total_score best;
    if Qlt_le_dec best_score (total_score candidate_fitness)
    then
      set_best candidate_tests candidate_fitness ;;
      _save_generation_data gen candidate_tests (Some candidate_fitness) "new_best"
    else
      _save_generation_data gen candidate_tests (Some candidate_fitness) "not_best"
  end.

(** [EvolutionOrchestrator.evolve_tests] on a new orchestrator; the three
    values it returns are the attributes of the orchestrator at the end. *)
Definition evolve_tests (c : collaborators) (project_root_dir : string)
    (target_function_code : string) (parsed_gsd_spec : test_specifications)
    (max_generations : Z) : ST state EvolutionOrchestrator :=
  initial_generation c project_root_dir target_function_code parsed_gsd_spec ;;
  for_each (seq 1 (Z.to_nat max_generations))
    (next_generation c project_root_dir target_function_code parsed_gsd_spec) ;;
  gets (fun st : state => st.1).

End with_runtime.
End evolution_orchestrator.

(** ** A small instance of [Runtime], to run the definitions on examples

    A parser and a renderer for the handful of programs used in the
    examples below, a counter as random generator, and a decoder for three
    coverage reports. *)
Module example.
Import ast.

Definition nl : string := fitness_evaluator.nl.

(** [def add(a, b): return a + b] *)
Definition code_add : string :=
  "def add(a, b):" +:+ nl +:+ "    return a + b" +:+ nl.
Definition tree_add : heap :=
  list_to_map
    [(0%nat, Other "Module" [1%nat]); (1%nat, Other "def add(a, b):" [2%nat]);
     (2%nat, Return (Some 3%nat)); (3%nat, BinOp 4%nat Add 5%nat);
     (4%nat, Other "a" []); (5%nat, Other "b" [])].

(** A module without any fault location. *)
Definition code_const : string := "LIMIT = 10" +:+ nl.
Definition tree_const : heap :=
  list_to_map [(0%nat, Other "Module" [1%nat]); (1%nat, Other "LIMIT = 10" [])].

(** A text that is not Python. *)
Definition code_broken : string := "def add(a, b:".

Definition parse_text (code : string) : result (heap * loc) :=
  if decide (code = code_add) then Ok (tree_add, 0%nat)
  else if decide (code = code_const) then Ok (tree_const, 0%nat)
  else Raise (Exception SyntaxError "invalid syntax").

Definition operator_text (op : operator) : string :=
  match op with
  | Add => "+" | Sub => "-" | Mult => "*" | Div => "/" | Mod => "%"
  | MatMult => "@" | Pow => "**" | LShift => "<<" | RShift => ">>"
  | BitOr => "|" | BitXor => "^" | BitAnd => "&" | FloorDiv => "//"
  end.

Fixpoint render_expr (fuel : nat) (h : heap) (l : loc) : string :=
  match fuel with
  | O => "..."
  | S fuel' =>
    match h !! l with
    | Some (BinOp a op b) =>
      render_expr fuel' h a +:+ " " +:+ operator_text op +:+ " " +:+ render_expr fuel' h b
    | Some (UnaryOp _ e) => "not " +:+ render_expr fuel' h e
    | Some (Constant z) => pretty z
    | Some (Other name _) => name
    | _ => "..."
    end
  end.

Fixpoint render_stmt (fuel : nat) (h : heap) (indent : string) (l : loc) : string :=
  match fuel with
  | O => "..."
  | S fuel' =>
    match h !! l with
    | Some (Return None) => indent +:+ "return"
    | Some (Return (Some v)) => indent +:+ "return " +:+ render_expr fuel' h v
    | Some (If t body _) =>
      indent +:+ "if " +:+ render_expr fuel' h t +:+ ":"
        +:+ String.concat "" (map (fun s => nl +:+ render_stmt fuel' h (indent +:+ "    ") s) body)
    | Some (Other header body) =>
      indent +:+ header
        +:+ String.concat "" (map (fun s => nl +:+ render_stmt fuel' h (indent +:+ "    ") s) body)
    | _ => indent +:+ render_expr fuel' h l
    end
  end.

Definition render (h : heap) (tree : loc) : result string :=
  match h !! tree with
  | Some (Other _ body) =>
    Ok (String.concat nl (map (render_stmt 20 h "") body))
  | _ => Raise (Exception ValueError "not a module")
  end.

Definition load_report (text : string) : result (option Z * option Z) :=
  if decide (text = "report: 7 covered, 3 missing") then Ok (Some 7, Some 3)
  else if decide (text = "report: 10 covered, 0 missing") then Ok (Some 10, Some 0)
  else if decide (text = "report: no totals") then Ok (None, None)
  else Raise (Exception JSONDecodeError "Expecting value: line 1 column 1 (char 0)").

#[export] Instance runtime : Runtime := {|
  rng := nat;
  seed := Z.to_nat;
  sample := fun g population k =>
    (take k (drop (g `mod` length population) population
             ++ take (g `mod` length population) population), S g);
  randbelow := fun g n => ((g `mod` n)%nat, S g);
  recursion_limit := 300;
  parse := parse_text;
  unparse := render;
  json_load := load_report;
  json_dumps := fun text => text;
|}.

Import testing_env fitness_evaluator evolution_orchestrator.

Definition completed (status : Z) : result CompletedProcess :=
  Ok {| returncode := status; stdout := ""; stderr := "" |}.

(** A sandbox in which the suite exits with [status]; every other command
    succeeds, and the report command leaves [report]. *)
Definition sandbox_exiting (name : string) (status : Z) (report : option string)
    : sandbox :=
  {| uuid4 := name; write_fault := None;
     subprocess_run := fun command =>
       match command with
       | "pytest" :: _ => completed status
       | _ => completed 0
       end;
     coverage_json_text := report |}.

(** A sandbox whose storage refuses the second file. *)
Definition sandbox_disk_full (name : string) : sandbox :=
  {| uuid4 := name; write_fault := Some 1%nat;
     subprocess_run := fun _ => completed 0;
     coverage_json_text := None |}.


Definition report_70 : option string := Some "report: 7 covered, 3 missing".

(** The suite passes on the correct function with 70% coverage; it fails
    on the mutant in the first iteration only, for instance because it
    looks for the file [mutated_function_0.py]. *)
Definition first_mutant_only : surroundings :=
  {| correct := sandbox_exiting "correct" 0 report_70;
     mutated := fun i =>
       sandbox_exiting ("mutant-" +:+ pretty i) (if decide (i = 0%nat) then 1 else 0) None |}.

(** The suite passes on the correct function and fails on every mutant. *)
Definition all_detected : surroundings :=
  {| correct := sandbox_exiting "correct" 0 report_70;
     mutated := fun i => sandbox_exiting ("mutant-" +:+ pretty i) 1 None |}.

(** The suite fails on the correct function. *)
Definition suite_fails : surroundings :=
  {| correct := sandbox_exiting "correct" 1 report_70;
     mutated := fun i => sandbox_exiting ("mutant-" +:+ pretty i) 1 None |}.

(** The storage fails in the sandbox of the correct function and in the
    sandbox of every mutant. *)
Definition disk_full : surroundings :=
  {| correct := sandbox_disk_full "correct";
     mutated := fun i => sandbox_disk_full ("mutant-" +:+ pretty i) |}.

Definition spec_90 : test_specifications :=
  {| min_coverage_percentage := Some (YNum 90); framework := None |}.

(** A suite generator that answers in every generation; the suite of
    generation 1 is the only one that passes on the correct function. *)
Definition steady : collaborators :=
  {| generate_tests := fun gen _ => Ok ("suite " +:+ pretty gen);
     evaluation := fun gen => if decide (gen = 1%nat) then all_detected else suite_fails |}.

(** A suite generator that fails in generation 1. *)
Definition failing_once : collaborators :=
  {| generate_tests := fun gen _ =>
       if decide (gen = 1%nat) then Raise (Exception RuntimeError "service unavailable")
       else Ok ("suite " +:+ pretty gen);
     evaluation := fun _ => all_detected |}.

(** An orchestrator as its constructor leaves it, on an empty storage. *)
Definition start : evolution_orchestrator.state :=
  (evolution_orchestrator.__init__, (∅, 0%nat)).

(** A sandbox object after [setup_environment]. *)
Definition env_ready : TestingEnvironment :=
  {| base_dir := "/project/output/test_runs";
     run_dir := "/project/output/test_runs/sandbox";
     source_file_path := Some "/project/output/test_runs/sandbox/target_function.py";
     test_file_path := Some "/project/output/test_runs/sandbox/test_target_function.py" |}.

(** The scores of scenario A of the specification. *)
Definition scenario_a : Results :=
  {| test_pass_rate_correct_function := 100; code_coverage_percentage := 100;
     bug_detection_rate := 100; false_positives_detected := false;
     test_suite_run_output := ""; test_suite_error_output := "";
     coverage_report_raw := ""; total_score := 0 |}.

(** The scores of scenario D of the specification, no mutant detected. *)
Definition scenario_d : Results :=
  {| test_pass_rate_correct_function := 100; code_coverage_percentage := 70;
     bug_detection_rate := 0; false_positives_detected := false;
     test_suite_run_output := ""; test_suite_error_output := "";
     coverage_report_raw := ""; total_score := 0 |}.

(** The storage fails in every sandbox of generation 1. *)
Definition disk_full_once : collaborators :=
  {| generate_tests := fun gen _ => Ok ("suite " +:+ pretty gen);
     evaluation := fun gen => if decide (gen = 1%nat) then disk_full else all_detected |}.

End example.

(** ** The bug-detection rate as a formula over the iterations of the loop

    The attempted mutants whose run exited non-zero over the mutants
    attempted, times 100, and 0 if none was attempted.  [is_noop] is the
    test of the loop of [evaluate_tests] (line 71): the text of the mutant
    equals the original source text once leading and trailing white space
    is removed from both.  The test in the words of the specification is
    in module [in_words] below. *)
Module detection.
Import testing_env fitness_evaluator.

(** One iteration of the fault-injection loop as the specification sees
    it: the text of the mutant and the exit status of the suite against
    it, [None] when the sandbox failed before the suite returned one. *)
Record attempt := { rendered : string; exit_status : option Z }.

Definition is_noop (original : string) (a : attempt) : bool :=
  bool_decide (py.strip (rendered a) = py.strip original).

Definition exited_nonzero (a : attempt) : bool :=
  match exit_status a with
  | Some status => bool_decide (status ≠ 0)
  | None => false
  end.

(** The mutants actually attempted. *)
Definition attempted (original : string) (attempts : list attempt) : list attempt :=
  List.filter (fun a => negb (is_noop original a)) attempts.

Definition bug_detection_rate_spec (original : string) (attempts : list attempt) : Q :=
  match attempted original attempts with
  | [] => 0%Q
  | tried =>
    (inject_Z (Z.of_nat (length (List.filter exited_nonzero tried)))
       / inject_Z (Z.of_nat (length tried)) * 100)%Q
  end.

Section with_runtime.
Context `{Runtime}.

(** The suite in the sandbox of a mutant, from the creation of the sandbox
    to the exit status of the suite. *)
Definition sandbox_run (o : sandbox) (base source_code test_code source_filename
    framework : string) : ST storage Z :=
  env ← __init__ o base;
  env ← setup_environment o env source_code test_code source_filename
          "test_target_function.py";
  '(return_code, _, _) ← run_tests o env framework;
  mret return_code.

(** The working directory of a sandbox. *)
Definition working_directory (o : sandbox) (base : string) : string :=
  py.path_join base (uuid4 o).

Definition sandbox_exit (o : sandbox) (base source_code test_code source_filename
    framework : string) : option Z :=
  match (sandbox_run o base source_code test_code source_filename framework ∅).1 with
  | Ok status => Some status
  | Raise _ => None
  end.

(** The state of the global generator when iteration [i] of the loop
    starts, if the loop starts in state [g]: every earlier iteration made
    one call of [inject_simple_fault]. *)
Fixpoint generator_at (code : string) (g : rng) (i : nat) : rng :=
  match i with
  | O => g
  | S i' => (fault_injector.inject_simple_fault code 1 (generator_at code g i')).2
  end.

(** The text iteration [i] of the loop gets from [inject_simple_fault]. *)
Definition mutant_at (code : string) (g : rng) (i : nat) : string :=
  match (fault_injector.inject_simple_fault code 1 (generator_at code g i)).1 with
  | Ok text => text
  | Raise _ => code
  end.

(** Iteration [i] of the loop of one call of [evaluate_tests] that starts
    the loop with the generator in state [g]. *)
Definition attempt_at (o : surroundings) (base code tests framework : string)
    (g : rng) (i : nat) : attempt :=
  {| rendered := mutant_at code g i;
     exit_status :=
       sandbox_exit (mutated o i) base (mutant_at code g i) tests
         ("mutated_function_" +:+ pretty i +:+ ".py") framework |}.

(** The directory under which every sandbox of an evaluation is made. *)
Definition test_runs (project_root_dir : string) : string :=
  py.path_join (py.path_join project_root_dir "output") "test_runs".

(** The iterations of one call of [evaluate_tests] started with the
    generator in state [g]. *)
Definition attempts (o : surroundings) (project_root_dir code tests : string)
    (test_spec : test_specifications) (num_fault_injections : Z) (g : rng)
    : list attempt :=
  map (attempt_at o (test_runs project_root_dir) code tests
         (default "pytest" (framework test_spec)) g)
      (seq 0 (Z.to_nat num_fault_injections)).

(** The working directories of the iterations, among [iterations], that
    attempt their mutant. *)
Definition removed (o : surroundings) (base code tests framework : string)
    (g : rng) (iterations : list nat) : list string :=
  map (fun i => working_directory (mutated o i) base)
    (List.filter (fun i => negb (is_noop code (attempt_at o base code tests framework g i)))
       iterations).

End with_runtime.
End detection.

(** ** The bug-detection rate in the words of the specification

    "A mutant whose rendered text equals the original's is excluded from
    [bugDetectionRate]'s denominator."  "[bugDetectionRate] = (count of
    mutantResults with non-zero status) / (count of mutants actually
    attempted, i.e. excluding no-op mutants) x 100; 0 if no mutants were
    attempted." *)
Module in_words.
Import detection.

(** The rendered text of the mutant equals the original's. *)
Definition same_text (original : string) (a : attempt) : bool :=
  bool_decide (rendered a = original).

(** The mutants actually attempted. *)
Definition attempted (original : string) (attempts : list attempt) : list attempt :=
  List.filter (fun a => negb (same_text original a)) attempts.

Definition bug_detection_rate (original : string) (attempts : list attempt) : Q :=
  match attempted original attempts with
  | [] => 0%Q
  | tried =>
    (inject_Z (Z.of_nat (length (List.filter detection.exited_nonzero tried)))
       / inject_Z (Z.of_nat (length tried)) * 100)%Q
  end.

End in_words.

(** * The rest of the sources

    Relations on the states of the fault injector, the evaluator and the
    evolution loop, and the modules [utils], [agents/tools],
    [spec_parser], [core/main_orchestrator] and [core/cli]. *)

(** ** The command lines of the sandbox *)
Module commands.
Import testing_env.


Definition coverage_run_cmd (self : TestingEnvironment)
    (source_file_path test_file_path : string) : list string :=
  ["coverage"; "run"; "--source"; py.relpath source_file_path (run_dir self);
   "-m"; "pytest"; test_file_path; "-q"; "--tb=no"].
Definition report_cmd : list string := ["coverage"; "json"; "-o"; "coverage.json"].

End commands.

(** ** Relations between the states of the fault injector *)
Module fault_injector_relations.
Import ast fault_injector.

(** What [visit] does to the objects: the store, the target and the fault
    count stay, and the locations gain fault-location objects of the
    store. *)
Definition records_locations (o o' : objects) : Prop :=
  nodes o' = nodes o
  ∧ target_fault_count (self o') = target_fault_count (self o)
  ∧ faults_injected (self o') = faults_injected (self o)
  ∧ ∃ found,
      possible_fault_locations (self o') = possible_fault_locations (self o) ++ found
      ∧ Forall (fun l => from_option is_fault_location false (nodes o !! l) = true) found.

(** The nodes a mutation method changes: a binary operation, a comparison
    with an operator, a Boolean operation, an [if] statement, a [return]
    with a value.  A [while] statement, a bare [return] and a comparison
    without operator are fault locations that no method changes. *)
Definition mutable (n : node) : bool :=
  match n with
  | BinOp _ _ _ | Compare _ (_ :: _) _ | BoolOp _ _ | If _ _ _
  | Return (Some _) => true
  | _ => false
  end.

Section with_runtime.
Context `{Runtime}.

(** The injector object is as it was. *)
Definition same_self (st st' : state) : Prop := self st'.1 = self st.1.

(** The fault count only grows, the target stays, and a count within the
    target stays within it. *)
Definition within_budget (st st' : state) : Prop :=
  target_fault_count (self st'.1) = target_fault_count (self st.1)
  ∧ faults_injected (self st.1) <= faults_injected (self st'.1)
  ∧ (faults_injected (self st.1) <= target_fault_count (self st.1) ->
     faults_injected (self st'.1) <= target_fault_count (self st'.1)).

(** No object that a mutation cannot change has changed. *)
Definition leaves_immutable (st st' : state) : Prop :=
  ∀ x n, nodes st.1 !! x = Some n -> mutable n = false -> nodes st'.1 !! x = Some n.

End with_runtime.
End fault_injector_relations.

(** ** What an evaluation reports *)
Module grading.
Import fitness_evaluator.

(** The pass rate and the false-positive flag that go with the way the
    suite ended on the correct function: [exit] is its exit status, [None]
    when the sandbox failed before the suite returned one. *)
Definition graded (exit : option Z) (r : Results) : Prop :=
  test_pass_rate_correct_function r = (if decide (exit = Some 0) then 100%Q else 0%Q)
  ∧ false_positives_detected r
    = match exit with Some status => bool_decide (status ≠ 0) | None => false end.

End grading.

(** ** What a run records *)
Module records.
Import fitness_evaluator evolution_orchestrator.

(** The verdict of one generation after the initial one: the entry [e] it
    appends, given the best fitness before, and the best fitness after.
    Either the suite generator failed, or the candidate was evaluated and
    compared with the best suite. *)
Definition judged (before : option Results) (e : entry) (after : option Results)
    : Prop :=
  (status e = "error" ∧ fitness_results e = None ∧ after = before)
  ∨ ∃ candidate best,
      fitness_results e = Some candidate
      ∧ before = Some best
      ∧ (((total_score best < total_score candidate)%Q
          ∧ status e = "new_best" ∧ after = Some candidate)
         ∨ ((total_score candidate <= total_score best)%Q
            ∧ status e = "not_best" ∧ after = Some best)).

(** The best fitness held is the fitness of a generation of the history
    that was recorded as initial or as new best, and no generation of the
    history has a greater total score. *)
Definition dominating (s : EvolutionOrchestrator) : Prop :=
  ∃ best,
    current_best_fitness s = Some best
    ∧ (∃ e, e ∈ evolution_history s ∧ fitness_results e = Some best
            ∧ status e ∈ ["initial_generation"; "new_best"])
    ∧ ∀ e r, e ∈ evolution_history s -> fitness_results e = Some r ->
        (total_score r <= total_score best)%Q.

End records.

(** ** Exceptions of further classes *)
Module errors.

(** What a call raises: an exception of a class that [exn_class] does not
    list, with its text, or one of the exceptions of [exn]. *)
Inductive raised :=
  | OverflowError (msg : string)
  | ZeroDivisionError (msg : string)
  | KeyError (msg : string)
  | YAMLError (msg : string)
  | Error (e : exn).

Inductive outcome (A : Type) := Returns (a : A) | Raises (r : raised).
Arguments Returns {A} a.
Arguments Raises {A} r.

#[global] Instance outcome_ret : MRet outcome := fun A a => Returns a.
#[global] Instance outcome_bind : MBind outcome := fun A B f r =>
  match r with
  | Returns a => f a
  | Raises x => Raises x
  end.

(** A result as an outcome. *)
Definition of_result {A} (r : result A) : outcome A :=
  match r with
  | Ok a => Returns a
  | Raise e => Raises (Error e)
  end.

(** Code that mutates state and raises exceptions of any of the classes
    of [raised]. *)
Definition SO (S A : Type) : Type := S -> outcome A * S.

#[global] Instance SO_ret {S} : MRet (SO S) := fun A a s => (Returns a, s).
#[global] Instance SO_bind {S} : MBind (SO S) := fun A B f m s =>
  match m s with
  | (Returns a, s') => f a s'
  | (Raises x, s') => (Raises x, s')
  end.

Definition of_ST {S A} (m : ST S A) : SO S A := fun s =>
  match m s with
  | (r, s') => (of_result r, s')
  end.
Definition of_outcome {S A} (r : outcome A) : SO S A := fun s => (r, s).

(** [for x in l: body x] without [break]. *)
Fixpoint for_every {S A} (l : list A) (body : A -> SO S unit) : SO S unit :=
  match l with
  | [] => mret tt
  | x :: l' => body x ;; for_every l' body
  end.

End errors.

(** ** Python floats: IEEE 754 binary64 *)
Module binary64.

Definition pow2 (e : Z) : Q := (2 ^ e)%Q.

(** The exponent of a positive number: the [e] with [2^e <= q < 2^(e+1)]. *)
Definition exponent (q : Q) : Z :=
  let k := Z.log2 (Qnum q) - Z.log2 (Z.pos (Qden q)) in
  if Qle_bool (pow2 k) q then k else k - 1.

(** The distance between the doubles next to [q]: 53 significant bits
    from the exponent -1022 upwards, and the distance of that exponent for
    all smaller numbers. *)
Definition ulp (q : Q) : Q := pow2 (Z.max (exponent (Qabs q)) (-1022) - 52).

(** The double nearest to [q], the one with the even significand of two
    that are equally near; it may lie beyond the largest double. *)
Definition round (q : Q) : Q :=
  if Qeq_bool q 0 then 0%Q
  else (inject_Z (py.round_half_even (q / ulp q)) * ulp q)%Q.

(** A number beyond the largest double, [2^1024 - 2^970]. *)
Definition too_large (q : Q) : bool := Qle_bool (pow2 1024) (Qabs q).

End binary64.

(** ** [src/utils.py] *)
Module utils.
Import errors.

(** [sum(numbers)]: the additions are made from the left, starting at 0. *)
Definition sum (numbers : list Z) : Z := fold_left Z.add numbers 0.

(** [a / b] on two integers: the double nearest to the quotient, and
    [OverflowError] where that lies beyond the largest double. *)
Definition true_divide (a b : Z) : outcome Q :=
  if decide (b = 0) then Raises (ZeroDivisionError "division by zero")
  else
    let q := binary64.round (inject_Z a / inject_Z b) in
    if binary64.too_large q
    then Raises (OverflowError "integer division result too large for a float")
    else Returns q.

(** [calculate_average] *)
Definition calculate_average (numbers : list Z) : outcome Q :=
  match numbers with
  | [] => Raises (Error (Exception ValueError "Input list cannot be empty."))
  | _ => true_divide (sum numbers) (Z.of_nat (length numbers))
  end.

End utils.

(** ** Paths, as [os.path] has them on POSIX *)
Module os_path.

Definition sep : ascii := "/"%char.

(** [a.endswith('/')] *)
Fixpoint ends_with_sep (a : string) : bool :=
  match a with
  | EmptyString => false
  | String c EmptyString => Ascii.eqb c sep
  | String _ a' => ends_with_sep a'
  end.

(** [os.path.join(a, b)]: an absolute [b] replaces [a]; a separator is put
    between the two unless [a] is empty or ends with one. *)
Definition join (a b : string) : string :=
  if String.prefix "/" b then b
  else if bool_decide (a = "") || ends_with_sep a then a +:+ b
  else a +:+ "/" +:+ b.

(** [p[:p.rfind('/') + 1]] *)
Fixpoint head (p : string) : string :=
  match p with
  | EmptyString => EmptyString
  | String c p' =>
    if py.contains "/" p' then String c (head p')
    else if Ascii.eqb c sep then String c EmptyString else EmptyString
  end.

Fixpoint all_sep (p : string) : bool :=
  match p with
  | EmptyString => true
  | String c p' => Ascii.eqb c sep && all_sep p'
  end.

(** [head.rstrip('/')] *)
Fixpoint rstrip_sep (p : string) : string :=
  match p with
  | EmptyString => EmptyString
  | String c p' =>
    match rstrip_sep p' with
    | EmptyString => if Ascii.eqb c sep then EmptyString else String c EmptyString
    | t => String c t
    end
  end.

(** [os.path.dirname(p)] *)
Definition dirname (p : string) : string :=
  let h := head p in
  if negb (bool_decide (h = "")) && negb (all_sep h) then rstrip_sep h else h.

(** A file name that names a file directly in the directory it is joined
    to: not empty, without separator, and not one of the two entries every
    directory has.  [dirname] of such a name is the empty string. *)
Definition plain_file_name (name : string) : bool :=
  negb (py.contains "/" name)
  && bool_decide (name ≠ "") && bool_decide (name ≠ ".") && bool_decide (name ≠ "..").

End os_path.

(** ** [src/agents/tools.py] *)
Module tools.
Import testing_env.

(** The machine the tools act on: the text of every file by its path, and
    the commands of the processes started so far, latest last. *)
Record machine := {
  files : gmap string string;
  started : list (list string);
}.

(** What is done to a path. *)
Inductive operation := Reading | Writing | Making | Removing.

(** What the tools do not control.  [refuses] is the error with which the
    operating system refuses an operation on a path, if it does: to open
    the file there for reading or for writing, to make a directory there,
    to remove the file there.  [process] is a call of [subprocess.run]
    with a command and a working directory, on the files as they are: the
    completed process or the exception raised ([TimeoutExpired],
    [FileNotFoundError] for a missing executable, ...), and the files as
    the process leaves them. *)
Record host := {
  refuses : operation -> string -> option exn;
  process : list string -> string -> gmap string string
            -> result CompletedProcess * gmap string string;
}.

Definition nl : string := fitness_evaluator.nl.

Definition no_such_file (path : string) : exn :=
  Exception FileNotFoundError ("[Errno 2] No such file or directory: '" +:+ path +:+ "'").

Definition cr : ascii := ascii_of_nat 13.
Definition lf : ascii := ascii_of_nat 10.

(** What reading in text mode makes of the line ends ([newline=None],
    universal newlines): a carriage return, together with the line feed
    that follows it if one does, is read as one line feed.  Writing in
    text mode leaves the text as it is, the line end of POSIX being the
    line feed. *)
Fixpoint universal_newlines (text : string) : string :=
  match text with
  | EmptyString => EmptyString
  | String c rest =>
    if Ascii.eqb c cr then
      match rest with
      | String c' rest' =>
        if Ascii.eqb c' lf then String lf (universal_newlines rest')
        else String lf (universal_newlines rest)
      | EmptyString => String lf EmptyString
      end
    else String c (universal_newlines rest)
  end.

(** ['\r' in text] *)
Fixpoint has_cr (text : string) : bool :=
  match text with
  | EmptyString => false
  | String c rest => Ascii.eqb c cr || has_cr rest
  end.

Section with_host.
Variable h : host.

Definition set_files (f : gmap string string -> gmap string string) (m : machine)
    : machine :=
  {| files := f (files m); started := started m |}.

(** [with open(path, 'r', encoding='utf-8') as f: f.read()] *)
Definition read_file (path : string) : ST machine string := fun m =>
  match refuses h Reading path with
  | Some e => (Raise e, m)
  | None =>
    match files m !! path with
    | Some text => (Ok (universal_newlines text), m)
    | None => (Raise (no_such_file path), m)
    end
  end.

(** [with open(path, 'w', encoding='utf-8') as f: f.write(content)] *)
Definition write_file (path content : string) : ST machine unit := fun m =>
  match refuses h Writing path with
  | Some e => (Raise e, m)
  | None => (Ok tt, set_files <[path := content]> m)
  end.

(** [os.makedirs(d, exist_ok=True)]: the empty path names no directory, and
    a path that names a file cannot become one. *)
Definition makedirs (d : string) : ST machine unit := fun m =>
  if bool_decide (d = "") then (Raise (no_such_file ""), m)
  else
    match files m !! d with
    | Some _ => (Raise (Exception OSError ("[Errno 17] File exists: '" +:+ d +:+ "'")), m)
    | None =>
      match refuses h Making d with
      | Some e => (Raise e, m)
      | None => (Ok tt, m)
      end
    end.

(** [os.remove(path)] *)
Definition remove (path : string) : ST machine unit := fun m =>
  match files m !! path with
  | None => (Raise (no_such_file path), m)
  | Some _ =>
    match refuses h Removing path with
    | Some e => (Raise e, m)
    | None => (Ok tt, set_files (delete path) m)
    end
  end.

(** [subprocess.run(command, capture_output=True, text=True, cwd=cwd,
    timeout=...)] *)
Definition subprocess_run (command : list string) (cwd : string)
    : ST machine CompletedProcess := fun m =>
  match process h command cwd (files m) with
  | (r, files') => (r, {| files := files'; started := started m ++ [command] |})
  end.

(** [ReadPythonFileTool._run] *)
Definition read_python_file (file_path : string) : ST machine string :=
  try_except (read_file file_path)
    (fun e =>
       match exn_cls e with
       | FileNotFoundError => mret ("Error: File not found at " +:+ file_path)
       | _ => mret ("Error reading file " +:+ file_path +:+ ": " +:+ exn_msg e)
       end).

(** [WritePythonFileTool._run] *)
Definition write_python_file (file_path content : string) : ST machine string :=
  try_except
    (makedirs (os_path.dirname file_path) ;;
     write_file file_path content ;;
     mret ("Successfully wrote to " +:+ file_path))
    (fun e => mret ("Error writing to file " +:+ file_path +:+ ": " +:+ exn_msg e)).

(** The text both process tools make of a completed process. *)
Definition report (result : CompletedProcess) : string :=
  let output :=
    "STDOUT:" +:+ nl +:+ stdout result +:+ nl +:+ "STDERR:" +:+ nl +:+ stderr result in
  if bool_decide (returncode result ≠ 0)
  then output +:+ nl +:+ "Exit code: " +:+ pretty (returncode result)
  else output.

(** [ExecutePythonCodeTool._run] *)
Definition execute_python_code (code working_dir : string) : ST machine string :=
  try_except
    (let temp_script_path := os_path.join working_dir "__temp_exec_script__.py" in
     write_file temp_script_path code ;;
     result ← subprocess_run ["python"; temp_script_path] working_dir;
     remove temp_script_path ;;
     mret (report result))
    (fun e =>
       match exn_cls e with
       | TimeoutExpired => mret "Error: Code execution timed out."
       | _ => mret ("Error executing code: " +:+ exn_msg e)
       end).

(** [os.path.isfile(path)] *)
Definition isfile (path : string) : ST machine bool :=
  gets (fun m => bool_decide (is_Some (files m !! path))).

(** [RunTestsTool._run] *)
Definition run_tests (test_file_path framework : string) : ST machine string :=
  try_except
    (if decide (py.lower framework = "pytest") then
       is_file ← isfile test_file_path;
       result ← subprocess_run ["pytest"; test_file_path; "-q"; "--tb=short"]
                  (if is_file : bool then os_path.dirname test_file_path
                   else test_file_path);
       mret (report result)
     else if decide (py.lower framework = "unittest") then
       is_file ← isfile test_file_path;
       result ← subprocess_run ["python"; "-m"; "unittest"; test_file_path]
                  (if is_file : bool then os_path.dirname test_file_path
                   else test_file_path);
       mret (report result)
     else mret ("Error: Unsupported framework '" +:+ framework +:+ "'."))
    (fun e =>
       match exn_cls e with
       | TimeoutExpired => mret "Error: Test execution timed out."
       | _ => mret ("Error running tests: " +:+ exn_msg e)
       end).

End with_host.
End tools.

(** ** YAML documents *)
Module yaml.

(** What [yaml.safe_load] makes of a document whose scalars are nulls,
    Booleans, numbers and texts (a date, a binary value or a set is left
    out). *)
Inductive value :=
  | Null
  | Bool (b : bool)
  | Int (z : Z)
  | Float (q : Q)
  | Text (s : string)
  | Seq (items : list value)
  | Mapping (items : list (string * value)).

(** [d.get(key)] on the items of a dictionary; [None] is Python's [None]. *)
Fixpoint get (key : string) (items : list (string * value)) : option value :=
  match items with
  | [] => None
  | (k, v) :: items' => if decide (k = key) then Some v else get key items'
  end.

(** The truth value of an object, as [if not x] takes it. *)
Definition truthy (v : option value) : bool :=
  match v with
  | None | Some Null => false
  | Some (Bool b) => b
  | Some (Int z) => negb (bool_decide (z = 0))
  | Some (Float q) => negb (Qeq_bool q 0)
  | Some (Text s) => negb (bool_decide (s = ""))
  | Some (Seq items) => match items with [] => false | _ => true end
  | Some (Mapping items) => match items with [] => false | _ => true end
  end.

(** [type(x).__name__] *)
Definition type_name (v : option value) : string :=
  match v with
  | None | Some Null => "NoneType"
  | Some (Bool _) => "bool"
  | Some (Int _) => "int"
  | Some (Float _) => "float"
  | Some (Text _) => "str"
  | Some (Seq _) => "list"
  | Some (Mapping _) => "dict"
  end.

(** The [AttributeError] of [x.name] on an object without that
    attribute. *)
Definition no_attribute (v : option value) (name : string) : exn :=
  Exception AttributeError
    ("'" +:+ type_name v +:+ "' object has no attribute '" +:+ name +:+ "'").

End yaml.

(** ** [evaluate_tests] and [evolve_tests] on the parsed document

    In [fitness_evaluator] the specification is a record of the two
    settings the evaluator reads, in [evolution_orchestrator] the run
    starts once the document is parsed, and only the files of the
    sandboxes are written.  The two modules below take the specification
    as the object [yaml.safe_load] returned, whatever its form, and keep
    every step of the two methods that can raise: the reads of the
    document, the conversion of an integer to a float, the text made of an
    object for a [print], and the writing of the files of a generation.
    The first argument of the two methods is
    [sys.get_int_max_str_digits()], the greatest number of digits of an
    integer that is made into a text: 4300 unless the interpreter is told
    otherwise, 0 for no limit. *)
Module fitness_evaluator_yaml.
Import testing_env fitness_evaluator errors.

(** [d.get(key, default)] on any object. *)
Definition dict_get (d : yaml.value) (key : string) (default : yaml.value)
    : result yaml.value :=
  match d with
  | yaml.Mapping items =>
    Ok (match yaml.get key items with Some v => v | None => default end)
  | v => Raise (yaml.no_attribute (Some v) "get")
  end.

(** Lines 35 and 36: the minimum coverage and the framework. *)
Definition settings (test_spec : yaml.value) : result (yaml.value * yaml.value) :=
  section ← dict_get test_spec "test_specifications" (yaml.Mapping []);
  min_coverage_spec ← dict_get section "min_coverage_percentage" (yaml.Int 0);
  section ← dict_get test_spec "test_specifications" (yaml.Mapping []);
  framework ← dict_get section "framework" (yaml.Text "pytest");
  mret (min_coverage_spec, framework).

(** [str(z)] is refused: [z] has more digits than the limit. *)
Definition exceeds (int_max_str_digits z : Z) : bool :=
  bool_decide (0 < int_max_str_digits)
  && bool_decide (10 ^ int_max_str_digits <= Z.abs z).

(** The text of an object holds the text of every integer in it. *)
Fixpoint has_long_int (int_max_str_digits : Z) (v : yaml.value) : bool :=
  match v with
  | yaml.Int z => exceeds int_max_str_digits z
  | yaml.Seq items => existsb (has_long_int int_max_str_digits) items
  | yaml.Mapping items =>
    existsb (fun item => let '(_, v') := item in has_long_int int_max_str_digits v')
      items
  | _ => false
  end.

(** An object in an f-string of a [print]; the text itself is dropped with
    the [print]. *)
Definition format (int_max_str_digits : Z) (v : yaml.value) : result unit :=
  if has_long_int int_max_str_digits v
  then Raise (Exception ValueError
                ("Exceeds the limit (" +:+ pretty int_max_str_digits
                   +:+ " digits) for integer string conversion; "
                   +:+ "use sys.set_int_max_str_digits() to increase the limit"))
  else Ok tt.

(** [run_tests(framework=framework)]: the method calls [framework.lower()]
    first. *)
Definition run_tests (o : sandbox) (self : TestingEnvironment) (framework : yaml.value)
    : ST storage (Z * string * string) :=
  match framework with
  | yaml.Text name => testing_env.run_tests o self name
  | v => raise (yaml.no_attribute (Some v) "lower")
  end.

(** The exit status of the suite in a sandbox, [None] when the sandbox
    failed before the suite returned one. *)
Definition sandbox_exit `{Runtime} (o : sandbox) (base source_code test_code
    source_filename : string) (framework : yaml.value) : option Z :=
  match framework with
  | yaml.Text name =>
    detection.sandbox_exit o base source_code test_code source_filename name
  | _ => None
  end.

(** [x < v] for a float [x]: a number is compared by its value, an integer
    without being converted. *)
Definition float_lt (x : Q) (v : yaml.value) : result bool :=
  match v with
  | yaml.Bool b => Ok (if Qlt_le_dec x (if b then 1 else 0) then true else false)
  | yaml.Int z => Ok (if Qlt_le_dec x (inject_Z z) then true else false)
  | yaml.Float y => Ok (if Qlt_le_dec x y then true else false)
  | v =>
    Raise (Exception TypeError
             ("'<' not supported between instances of 'float' and '"
                +:+ yaml.type_name (Some v) +:+ "'"))
  end.

(** [float(z)], the conversion made of an integer that meets a float in
    an operation: [OverflowError] where the nearest double lies beyond the
    largest one. *)
Definition int_to_float (z : Z) : outcome Q :=
  if binary64.too_large (binary64.round (inject_Z z))
  then Raises (OverflowError "int too large to convert to float")
  else Returns (inject_Z z).

(** [v - x] for a float [x]. *)
Definition minus_float (v : yaml.value) (x : Q) : outcome Q :=
  match v with
  | yaml.Bool b => Returns ((if b then 1 else 0) - x)%Q
  | yaml.Int z => y ← int_to_float z; mret (y - x)%Q
  | yaml.Float y => Returns (y - x)%Q
  | v =>
    Raises (Error (Exception TypeError
                     ("unsupported operand type(s) for -: '"
                        +:+ yaml.type_name (Some v) +:+ "' and 'float'")))
  end.

(** Part 3 of [evaluate_tests]. *)
Definition calculate_total_score (r : Results) (min_coverage_spec : yaml.value)
    : outcome Q :=
  let score := 0%Q in
  let score := if false_positives_detected r then (score - 100)%Q else score in
  let score := (score + test_pass_rate_correct_function r * (1 # 2))%Q in
  score ←
    (if Qeq_bool (test_pass_rate_correct_function r) 100 then
       let score := (score + code_coverage_percentage r * (3 # 10))%Q in
       below ← of_result (float_lt (code_coverage_percentage r) min_coverage_spec);
       if below : bool then
         gap ← minus_float min_coverage_spec (code_coverage_percentage r);
         mret (score - gap * (1 # 2))%Q
       else mret score
     else mret (score - code_coverage_percentage r * (1 # 10))%Q);
  let score :=
    if Qeq_bool (test_pass_rate_correct_function r) 100
       && negb (false_positives_detected r)
    then (score + bug_detection_rate r * (1 # 5))%Q else score in
  mret (py.max0 score).

(** The exceptions of the scoring step. *)
Definition of_scoring (x : raised) : Prop :=
  x = OverflowError "int too large to convert to float"
  ∨ ∃ e, x = Error e ∧ exn_cls e = TypeError.

(** The exceptions of an evaluation: the [AttributeError] of lines 35 and
    36, an exception of the scoring step, or the [ValueError] of the text
    of the minimum coverage. *)
Definition of_evaluation (x : raised) : Prop :=
  of_scoring x
  ∨ ∃ e, x = Error e ∧ (exn_cls e = AttributeError ∨ exn_cls e = ValueError).

Section with_runtime.
Context `{Runtime}.

(** Part 1 of [evaluate_tests]: the suite against the correct function. *)
Definition evaluate_correct (o : sandbox) (base : string)
    (original_function_code generated_test_code : string) (framework : yaml.value)
    : ST frame unit :=
  env_correct ← on_storage (__init__ o base);
  try_finally
    (try_except
      (env ← on_storage (setup_environment o env_correct original_function_code
                           generated_test_code "target_function.py" "test_target_function.py");
       '(return_code, out, err) ← on_storage (run_tests o env framework);
       set_results (add_run_output
         ("--- Tests vs. Correct Function ---" +:+ nl +:+ "STDOUT:" +:+ nl +:+ out
            +:+ nl +:+ "STDERR:" +:+ nl +:+ err +:+ nl)) ;;
       (if bool_decide (return_code = 0)
        then set_results (with_pass_rate 100)
        else set_results (with_false_positives true) ;;
             set_results (with_pass_rate 0)) ;;
       '(coverage_percentage, coverage_report) ← on_storage (get_coverage o env);
       set_results (with_coverage coverage_percentage coverage_report))
      (fun e => set_results (add_error_output ("Error: " +:+ exn_msg e +:+ nl))))
    (on_storage (cleanup env_correct)).

(** One iteration of the loop of part 2. *)
Definition fault_injection (o : sandbox) (base : string)
    (original_function_code generated_test_code : string) (framework : yaml.value)
    (i : nat) : ST frame unit :=
  mutated_function_code ←
    on_random (fault_injector.inject_simple_fault original_function_code 1);
  if decide (py.strip mutated_function_code = py.strip original_function_code)
  then mret tt
  else
    incr_total_faults_attempted ;;
    env_mutated ← on_storage (__init__ o base);
    try_finally
      (try_except
        (env ← on_storage (setup_environment o env_mutated mutated_function_code
                             generated_test_code
                             ("mutated_function_" +:+ pretty i +:+ ".py")
                             "test_target_function.py");
         '(return_code, out, err) ← on_storage (run_tests o env framework);
         set_results (add_run_output
           ("--- Tests vs. Mutated " +:+ pretty (i + 1)%nat +:+ " ---" +:+ nl
              +:+ "STDOUT:" +:+ nl +:+ out +:+ nl +:+ "STDERR:" +:+ nl +:+ err +:+ nl)) ;;
         if bool_decide (return_code ≠ 0) then incr_detected_bugs else mret tt)
        (fun e => set_results (add_error_output
           ("Error mutation " +:+ pretty (i + 1)%nat +:+ ": " +:+ exn_msg e +:+ nl))))
      (on_storage (cleanup env_mutated)).

(** Parts 1 and 2, and the rate assigned after the loop. *)
Definition sandboxes (o : surroundings) (project_root_dir : string)
    (original_function_code generated_test_code : string) (framework : yaml.value)
    (num_fault_injections : Z) : ST frame Results :=
  let base := py.path_join (py.path_join project_root_dir "output") "test_runs" in
  evaluate_correct (correct o) base original_function_code generated_test_code framework ;;
  for_each (seq 0 (Z.to_nat num_fault_injections)) (fun i =>
    fault_injection (mutated o i) base original_function_code generated_test_code
      framework i) ;;
  f ← get;
  set_results (with_bug_detection_rate (rate (detected_bugs f) (total_faults_attempted f))) ;;
  gets results.

Definition evaluate_tests_body (int_max_str_digits : Z) (o : surroundings)
    (project_root_dir : string) (original_function_code generated_test_code : string)
    (test_spec : yaml.value) (num_fault_injections : Z) : SO frame Results :=
  '(min_coverage_spec, framework) ← of_outcome (of_result (settings test_spec));
  r ← of_ST (sandboxes o project_root_dir original_function_code generated_test_code
               framework num_fault_injections);
  score ← of_outcome (calculate_total_score r min_coverage_spec);
  of_outcome (of_result (format int_max_str_digits min_coverage_spec)) ;;
  mret (with_total_score score r).

(** [FitnessEvaluator.evaluate_tests], on the storage and the global random
    generator. *)
Definition evaluate_tests (int_max_str_digits : Z) (o : surroundings)
    (project_root_dir : string) (original_function_code generated_test_code : string)
    (test_spec : yaml.value) (num_fault_injections : Z)
    : SO (storage * rng) Results := fun w =>
  match evaluate_tests_body int_max_str_digits o project_root_dir original_function_code
          generated_test_code test_spec num_fault_injections
          {| results := initial_results; detected_bugs := 0;
             total_faults_attempted := 0; fs := w.1; random := w.2 |} with
  | (r, f) => (r, (fs f, random f))
  end.

End with_runtime.
End fitness_evaluator_yaml.

Module evolution_orchestrator_yaml.
Import testing_env fitness_evaluator evolution_orchestrator errors.

(** What lies outside the program during one run: [yaml.safe_load] on a
    text; the suite generator and the sandboxes; and what [open],
    [f.write] or [json.dump] raises when the files of a generation are
    written, if they raise. *)
Record outside := {
  safe_load : string -> outcome yaml.value;
  agents : collaborators;
  save_fault : nat -> option exn;
}.

(** Line 55. *)
Definition func_name (parsed_gsd_spec : yaml.value) : result yaml.value :=
  info ← fitness_evaluator_yaml.dict_get parsed_gsd_spec "target_function_info"
           (yaml.Mapping []);
  fitness_evaluator_yaml.dict_get info "name" (yaml.Text "unknown_function").

Section with_runtime.
Context `{Runtime}.

(** [_save_generation_data]: the entry is appended before the files are
    written. *)
Definition _save_generation_data (c : outside) (generation : nat) (tests : string)
    (fitness_results : option Results) (status : string) : SO state unit :=
  of_ST (evolution_orchestrator._save_generation_data generation tests fitness_results
           status) ;;
  match save_fault c generation with
  | Some e => of_outcome (Raises (Error e))
  | None => mret tt
  end.

(** [d["total_score"]] on a fitness dictionary. *)
Definition get_total_score (d : option Results) : SO state Q :=
  match d with
  | Some r => mret (total_score r)
  | None => of_outcome (Raises (KeyError "'total_score'"))
  end.

(** The part of [evolve_tests] before the loop, from the document on. *)
Definition initial_generation (int_max_str_digits : Z) (c : outside)
    (project_root_dir : string) (target_function_code : string)
    (parsed_gsd_spec : yaml.value) : SO state unit :=
  initial_tests ← of_ST (call_generator (agents c) 0 None);
  initial_fitness ←
    (fun st : state =>
       match fitness_evaluator_yaml.evaluate_tests int_max_str_digits
               (evaluation (agents c) 0) project_root_dir target_function_code
               initial_tests parsed_gsd_spec 3 st.2 with
       | (r, w) => (r, (st.1, w))
       end);
  of_ST (set_best initial_tests initial_fitness) ;;
  _save_generation_data c 0 initial_tests (Some initial_fitness) "initial_generation".

(** The body of the loop [for gen in range(1, max_generations + 1)]. *)
Definition next_generation (int_max_str_digits : Z) (c : outside)
    (project_root_dir : string) (target_function_code : string)
    (parsed_gsd_spec : yaml.value) (gen : nat) : SO state unit :=
  best ← of_ST (gets (fun st : state => current_best_fitness st.1));
  generated ← (fun st : state => (Returns (generate_tests (agents c) gen best), st));
  match generated with
  | Raise _ => _save_generation_data c gen "ERROR_GENERATION" None "error"
  | Ok candidate_tests =>
    candidate_fitness ←
      (fun st : state =>
         match fitness_evaluator_yaml.evaluate_tests int_max_str_digits
                 (evaluation (agents c) gen) project_root_dir target_function_code
                 candidate_tests parsed_gsd_spec 3 st.2 with
         | (r, w) => (r, (st.1, w))
         end);
    best ← of_ST (gets (fun st : state => current_best_fitness st.1));
    best_score ← get_total_score best;
    if Qlt_le_dec best_score (total_score candidate_fitness)
    then
      of_ST (set_best candidate_tests candidate_fitness) ;;
      _save_generation_data c gen candidate_tests (Some candidate_fitness) "new_best"
    else
      _save_generation_data c gen candidate_tests (Some candidate_fitness) "not_best"
  end.

(** [EvolutionOrchestrator.evolve_tests]; the three values it returns are
    the attributes of the orchestrator at the end. *)
Definition evolve_tests (int_max_str_digits : Z) (c : outside)
    (project_root_dir : string) (target_function_code gsd_spec_yaml : string)
    (max_generations : Z) : SO state EvolutionOrchestrator :=
  parsed_gsd_spec ← of_outcome (safe_load c gsd_spec_yaml);
  name ← of_outcome (of_result (func_name parsed_gsd_spec));
  of_outcome (of_result (fitness_evaluator_yaml.format int_max_str_digits name)) ;;
  initial_generation int_max_str_digits c project_root_dir target_function_code
    parsed_gsd_spec ;;
  for_every (seq 1 (Z.to_nat max_generations))
    (next_generation int_max_str_digits c project_root_dir target_function_code
       parsed_gsd_spec) ;;
  of_ST (gets (fun st : state => st.1)).

End with_runtime.
End evolution_orchestrator_yaml.

(** ** [src/spec_parser/spec_parser.py] *)
Module spec_parser.

(** What a call raises: a [yaml.YAMLError] with its text, or one of the
    exceptions of [exn]. *)
Inductive raised := YAMLError (msg : string) | Error (e : exn).

Inductive outcome (A : Type) := Returns (a : A) | Raises (r : raised).
Arguments Returns {A} a.
Arguments Raises {A} r.

(** A path of the file system: nothing there, a file that can be read, or
    something that [open] refuses with an exception (a directory, a file
    without read permission). *)
Inductive on_disk := Absent | Readable (text : string) | Unreadable (e : exn).

(** The file system, and [yaml.safe_load] on a text: a value, a
    [yaml.YAMLError], or another exception. *)
Record host := {
  disk : string -> on_disk;
  safe_load : string -> outcome yaml.value;
}.

(** [SpecificationParser.load_spec].  The [YAMLError] raised for a
    document that is not a dictionary is caught by the [except] clause
    around it and raised again with the path in its text. *)
Definition load_spec (h : host) (file_path : string)
    : outcome (list (string * yaml.value)) :=
  match disk h file_path with
  | Absent =>
    Raises (Error (Exception FileNotFoundError
                     ("Specification file not found: " +:+ file_path)))
  | Unreadable e => Raises (Error e)
  | Readable text =>
    match safe_load h text with
    | Returns (yaml.Mapping spec) => Returns spec
    | Returns _ =>
      Raises (YAMLError ("Error parsing YAML file " +:+ file_path
                           +:+ ": YAML content is not a dictionary."))
    | Raises (YAMLError msg) =>
      Raises (YAMLError ("Error parsing YAML file " +:+ file_path +:+ ": " +:+ msg))
    | Raises (Error e) => Raises (Error e)
    end
  end.

End spec_parser.

(** ** [src/agents/test_generator_agent.py]: the choice of the model *)
Module test_generator_agent.

Inductive provider := OpenAI | Gemini.

(** The [if] chain of [TestGeneratorAgent.__init__] on the name of the
    model. *)
Definition provider_of (llm_model_name : string) : result provider :=
  if py.contains "gpt" (py.lower llm_model_name)
     || py.contains "openai" (py.lower llm_model_name)
  then Ok OpenAI
  else if py.contains "gemini" (py.lower llm_model_name) then Ok Gemini
  else Raise (Exception ValueError ("Unsupported LLM model: " +:+ llm_model_name)).

End test_generator_agent.

(** ** [src/core/main_orchestrator.py] *)
Module main_orchestrator.
Import spec_parser.

Section workflow.
(** [W] is all that an evolution run acts on, [R] the dictionary it
    returns. *)
Context {W R : Type}.

(** What [run_evolution_workflow] calls outside this module:
    [yaml.dump(full_spec, sort_keys=False)]; what the constructor of
    [EvolutionOrchestrator] does once the provider of the model is chosen
    (the client of the model, the agent, the output directory of the run);
    and [EvolutionOrchestrator.evolve_tests] on the source code, the text
    of the specification and the number of generations. *)
Record collaborators := {
  dump : list (string * yaml.value) -> outcome string;
  construct : test_generator_agent.provider -> string -> W -> outcome unit * W;
  evolve_tests : yaml.value -> string -> Z -> W -> outcome R * W;
}.

(** [full_spec.get(section, {}).get(key, default)]; [.get] on a section
    that is not a dictionary raises [AttributeError].  Without default, a
    missing key gives [None]. *)
Definition field (full_spec : list (string * yaml.value)) (section key : string)
    (default : option yaml.value) : outcome (option yaml.value) :=
  match yaml.get section full_spec with
  | None => Returns default
  | Some (yaml.Mapping items) =>
    Returns (match yaml.get key items with Some v => Some v | None => default end)
  | Some v => Raises (Error (yaml.no_attribute (Some v) "get"))
  end.

(** [EvolutionOrchestrator(project_root_dir, llm_provider, llm_model_name)]:
    the agent calls [llm_model_name.lower()] first. *)
Definition new_orchestrator (c : collaborators) (llm_model_name : option yaml.value)
    (w : W) : outcome unit * W :=
  match llm_model_name with
  | Some (yaml.Text name) =>
    match test_generator_agent.provider_of name with
    | Ok provider => construct c provider name w
    | Raise e => (Raises (Error e), w)
    end
  | _ => (Raises (Error (yaml.no_attribute llm_model_name "lower")), w)
  end.

(** The [try] block that loads the specification. *)
Definition load (h : host) (c : collaborators) (gsd_spec_file_path : string)
    : outcome (list (string * yaml.value) * string) :=
  match load_spec h gsd_spec_file_path with
  | Returns full_spec =>
    match dump c full_spec with
    | Returns gsd_spec_yaml_content => Returns (full_spec, gsd_spec_yaml_content)
    | Raises r => Raises r
    end
  | Raises r => Raises r
  end.

(** [MainOrchestrator.run_evolution_workflow]: [None], or the dictionary
    [evolve_tests] returned. *)
Definition run_evolution_workflow (h : host) (c : collaborators)
    (gsd_spec_file_path : string) (max_generations : Z) (w : W)
    : outcome (option R) * W :=
  match load h c gsd_spec_file_path with
  | Raises _ => (Returns None, w)
  | Returns (full_spec, gsd_spec_yaml_content) =>
    match field full_spec "target_function_info" "source_code" None with
    | Raises r => (Raises r, w)
    | Returns None => (Returns None, w)
    | Returns (Some target_function_code) =>
      if negb (yaml.truthy (Some target_function_code)) then (Returns None, w)
      else
        match field full_spec "llm_configuration" "model_name"
                (Some (yaml.Text "gpt-4o-mini")) with
        | Raises r => (Raises r, w)
        | Returns llm_model_name =>
          match new_orchestrator c llm_model_name w with
          | (Raises _, w') => (Returns None, w')
          | (Returns _, w') =>
            match evolve_tests c target_function_code gsd_spec_yaml_content
                    max_generations w' with
            | (Returns final_results, w'') => (Returns (Some final_results), w'')
            | (Raises r, w'') => (Raises r, w'')
            end
          end
        end
    end
  end.

(** A specification from which the workflow does not start a run: it
    cannot be loaded, it names no source code, or the model it names has
    no provider. *)
Definition unusable (h : host) (gsd_spec_file_path : string) : Prop :=
  match load_spec h gsd_spec_file_path with
  | Raises _ => True
  | Returns full_spec =>
    (∃ code, field full_spec "target_function_info" "source_code" None = Returns code
             ∧ yaml.truthy code = false)
    ∨ (∃ code llm_model_name,
         field full_spec "target_function_info" "source_code" None = Returns code
         ∧ field full_spec "llm_configuration" "model_name"
             (Some (yaml.Text "gpt-4o-mini")) = Returns llm_model_name
         ∧ match llm_model_name with
           | Some (yaml.Text name) =>
             ∃ e, test_generator_agent.provider_of name = Raise e
           | _ => True
           end)
  end.

End workflow.
End main_orchestrator.

(** ** [src/core/cli.py] *)
Module cli.
Import fitness_evaluator evolution_orchestrator.

Definition nl : string := fitness_evaluator.nl.

(** *** [spec_create]: the source of the function *)

(** The local variables of the loop over the lines of the file. *)
Record scan := {
  function_code : string;
  in_function : bool;
  indent_level : nat;
}.

(** [' ' * n] *)
Fixpoint spaces (n : nat) : string :=
  match n with
  | O => EmptyString
  | S n' => String " "%char (spaces n')
  end.

(** [s.count('\n')] *)
Fixpoint count_newlines (s : string) : nat :=
  match s with
  | EmptyString => O
  | String c s' =>
    ((if Ascii.eqb c (ascii_of_nat 10) then 1 else 0) + count_newlines s')%nat
  end.

(** [line.strip().startswith(f"def {func_name}(")] *)
Definition starts_function (func_name line : string) : bool :=
  String.prefix ("def " +:+ func_name +:+ "(") (py.strip line).

(** The loop [for line in full_code.splitlines(): ...] of [spec_create], on
    the lines of the file.  A line is appended before the test that ends
    the loop; [continue] and the end of the body both go on with the next
    line. *)
Fixpoint extract (func_name : string) (lines : list string) (s : scan) : scan :=
  match lines with
  | [] => s
  | line :: rest =>
    let s :=
      if starts_function func_name line
      then {| function_code := function_code s; in_function := true;
              indent_level := String.length line - String.length (py.lstrip line) |}
      else s in
    if in_function s then
      let s := {| function_code := function_code s +:+ line +:+ nl;
                  in_function := in_function s; indent_level := indent_level s |} in
      if (2 <? count_newlines (function_code s))%nat
         && negb (bool_decide (py.strip line = ""))
         && negb (String.prefix (spaces (indent_level s + 1)) line)
      then
        if negb (String.prefix "def " (py.strip line))
        then extract func_name rest s
        else s
      else extract func_name rest s
    else extract func_name rest s
  end.

(** [len(line) - len(line.lstrip())] *)
Definition indentation (line : string) : nat :=
  String.length line - String.length (py.lstrip line).

(** The lines up to and including the first that [stops]; all of them if
    none does. *)
Fixpoint through {A} (stops : A -> bool) (lines : list A) : list A :=
  match lines with
  | [] => []
  | line :: rest => if stops line then [line] else line :: through stops rest
  end.

(** A line that ends the scan of a function whose [def] line is indented
    by [indent_level]: a line that starts the function again, or a line
    that is not blank, does not begin with more than [indent_level] spaces
    and, stripped, begins with [def ]. *)
Definition ends_function (func_name : string) (indent_level : nat) (line : string)
    : bool :=
  starts_function func_name line
  || (negb (bool_decide (py.strip line = ""))
      && negb (String.prefix (spaces (indent_level + 1)) line)
      && String.prefix "def " (py.strip line)).

(** The text of a block of lines, each with its line end. *)
Fixpoint block_text (block : list string) : string :=
  match block with
  | [] => ""
  | line :: rest => line +:+ nl +:+ block_text rest
  end.

(** A text is blank when all its characters are white space. *)
Fixpoint blank (s : string) : bool :=
  match s with
  | EmptyString => true
  | String c s' => py.isspace c && blank s'
  end.

(** How a command ends: it returns, it raises [typer.Exit(code)], or an
    exception leaves it. *)
Inductive ending := Finished | Exit (code : Z) | Uncaught (e : exn).

(** The [try] block of [spec_create], given what reading the file gives
    and the lines of its text: the source for the specification, or the
    way the command ends. *)
Definition function_source (func_name : string) (file : result (list string))
    : string + ending :=
  match file with
  | Ok lines =>
    let function_code :=
      function_code (extract func_name lines
                       {| function_code := ""; in_function := false; indent_level := 0 |}) in
    if bool_decide (py.strip function_code = "") then inr (Exit 1)
    else inl function_code
  | Raise e =>
    match exn_cls e with
    | FileNotFoundError => inr (Exit 1)
    | _ => inr (Uncaught e)
    end
  end.

(** *** [history] *)

(** What [history] prints for a generation, without the markup; the
    heading and the error messages of the command are left out. *)
Inductive line :=
  | Generation (n : nat)
  | Timestamp
  | Status (s : string)
  | FitnessScore (score : Q)
  | Coverage (percentage : option Q)
  | BugDetection (rate : option Q).

Definition print (l : line) : ST (list line) unit := modify (fun out => out ++ [l]).

(** The body of the loop over the entries.  The score is formatted with
    [:.2f]; for an entry whose fitness dictionary is empty the value to
    format is the text ['N/A']. *)
Definition show (entry : entry) : ST (list line) unit :=
  print (Generation (generation entry)) ;;
  print Timestamp ;;
  print (Status (status entry)) ;;
  let fitness := fitness_results entry in
  score ← match fitness with
          | Some r => mret (total_score r)
          | None => raise (Exception ValueError
                             "Unknown format code 'f' for object of type 'str'")
          end;
  print (FitnessScore score) ;;
  print (Coverage (code_coverage_percentage <$> fitness)) ;;
  print (BugDetection (bug_detection_rate <$> fitness)).

(** [history], given the history file of the run: [None] if there is no
    such file, else what [json.load] makes of it. *)
Definition history (history_file : option (result (list entry)))
    : ending * list line :=
  match history_file with
  | None => (Exit 1, [])
  | Some (Raise e) =>
    match exn_cls e with
    | JSONDecodeError => (Exit 1, [])
    | _ => (Uncaught e, [])
    end
  | Some (Ok history_data) =>
    match for_each history_data show [] with
    | (Ok _, out) => (Finished, out)
    | (Raise e, out) => (Uncaught e, out)
    end
  end.

(** What [show] prints for an entry with a fitness dictionary. *)
Definition shown_lines (entry : entry) : list line :=
  [Generation (generation entry); Timestamp; Status (status entry)]
  ++ match fitness_results entry with
     | Some r =>
       [FitnessScore (total_score r); Coverage (Some (code_coverage_percentage r));
        BugDetection (Some (bug_detection_rate r))]
     | None => []
     end.

(** The generations that were printed. *)
Definition generations_shown (out : list line) : list nat :=
  omap (fun l => match l with Generation n => Some n | _ => None end) out.

End cli.

(** ** More example inputs *)
Module samples.
Import ast example.

(** [a < b] *)
Definition tree_compare : heap :=
  list_to_map [(0%nat, Compare 1%nat [Lt] [2%nat]); (1%nat, Other "a" []);
               (2%nat, Other "b" [])].

(** [a and b] *)
Definition tree_boolop : heap :=
  list_to_map [(0%nat, BoolOp And [1%nat; 2%nat]); (1%nat, Other "a" []);
               (2%nat, Other "b" [])].

(** [if x: return] *)
Definition tree_if : heap :=
  list_to_map [(0%nat, If 1%nat [2%nat] []); (1%nat, Other "x" []);
               (2%nat, Return None)].

(** An injector for one fault on a store, with the generator in state 0. *)
Definition injector_on (h : heap) : fault_injector.state :=
  ({| fault_injector.self := fault_injector.__init__ 1; fault_injector.nodes := h |},
   0%nat).

(** A machine on which every operation is accepted and every process
    exits with status 0 at once, leaving the files as they are. *)
Definition quiet : tools.host :=
  {| tools.refuses := fun _ _ => None;
     tools.process := fun _ _ files => (completed 0, files) |}.

(** A machine on which every process runs into its time limit. *)
Definition slow : tools.host :=
  {| tools.refuses := fun _ _ => None;
     tools.process := fun _ _ files =>
       (Raise (Exception TimeoutExpired "timed out after 10 seconds"), files) |}.

Definition empty_machine : tools.machine :=
  {| tools.files := ∅; tools.started := [] |}.

(** Three specification files: one without source code, one that names a
    model no provider offers, and one whose [target_function_info] is a
    list. *)
Definition spec_files : spec_parser.host :=
  {| spec_parser.disk := fun path =>
       if decide (path = "specs/no_code.yaml") then spec_parser.Readable "no code"
       else if decide (path = "specs/llama.yaml") then spec_parser.Readable "llama"
       else if decide (path = "specs/list.yaml") then spec_parser.Readable "list"
       else spec_parser.Absent;
     spec_parser.safe_load := fun text =>
       if decide (text = "no code")
       then spec_parser.Returns
              (yaml.Mapping [("target_function_info",
                              yaml.Mapping [("name", yaml.Text "add")])])
       else if decide (text = "llama")
       then spec_parser.Returns
              (yaml.Mapping [("target_function_info",
                              yaml.Mapping [("source_code", yaml.Text code_add)]);
                             ("llm_configuration",
                              yaml.Mapping [("model_name", yaml.Text "llama-3")])])
       else if decide (text = "list")
       then spec_parser.Returns
              (yaml.Mapping [("target_function_info", yaml.Seq [yaml.Text code_add])])
       else spec_parser.Raises (spec_parser.YAMLError "mapping values are not allowed here") |}.

(** Collaborators of the workflow whose evolution run raises. *)
Definition failing_run : @main_orchestrator.collaborators unit string :=
  {| main_orchestrator.dump := fun _ => spec_parser.Returns "dumped";
     main_orchestrator.construct := fun _ _ w => (spec_parser.Returns tt, w);
     main_orchestrator.evolve_tests := fun _ _ _ w =>
       (spec_parser.Raises (spec_parser.Error (Exception RuntimeError "no answer")), w) |}.

(** A function that polls.  Its fault locations are a [while] statement
    and a bare [return], neither of which a mutation method changes; the
    comment is not part of the tree. *)
Definition code_wait : string :=
  "def wait(ready):" +:+ nl +:+ "    while ready():  # poll" +:+ nl
    +:+ "        pass" +:+ nl +:+ "    return" +:+ nl.
Definition tree_wait : heap :=
  list_to_map
    [(0%nat, Other "Module" [1%nat]); (1%nat, Other "def wait(ready):" [2%nat; 5%nat]);
     (2%nat, While 3%nat [4%nat] []); (3%nat, Other "ready()" []);
     (4%nat, Other "pass" []); (5%nat, Return None)].
Definition shape_wait : shape :=
  (Shape 0 [Shape 1 [Shape 2 [Shape 3 []; Shape 4 []]; Shape 5 []]])%nat.

(** [render_stmt] with [while] statements. *)
Fixpoint render_suite (fuel : nat) (h : heap) (indent : string) (l : loc) : string :=
  match fuel with
  | O => "..."
  | S fuel' =>
    match h !! l with
    | Some (While t body _) =>
      indent +:+ "while " +:+ render_expr fuel' h t +:+ ":"
        +:+ String.concat ""
              (map (fun s => nl +:+ render_suite fuel' h (indent +:+ "    ") s) body)
    | Some (Other header body) =>
      indent +:+ header
        +:+ String.concat ""
              (map (fun s => nl +:+ render_suite fuel' h (indent +:+ "    ") s) body)
    | _ => render_stmt (S fuel') h indent l
    end
  end.

Definition render_loops (h : heap) (tree : loc) : result string :=
  match h !! tree with
  | Some (Other _ body) => Ok (String.concat nl (map (render_suite 20 h "") body))
  | _ => Raise (Exception ValueError "not a module")
  end.

(** The instance [runtime] with a parser and a renderer that also know
    [wait]. *)
Definition with_loops : Runtime := {|
  rng := nat;
  seed := Z.to_nat;
  sample := fun g population k =>
    (take k (drop (g `mod` length population) population
             ++ take (g `mod` length population) population), S g);
  randbelow := fun g n => ((g `mod` n)%nat, S g);
  recursion_limit := 300;
  parse := fun code =>
    if decide (code = code_wait) then Ok (tree_wait, 0%nat) else parse_text code;
  unparse := render_loops;
  json_load := load_report;
  json_dumps := fun text => text;
|}.


(** A text with a line end of two characters. *)
Definition two_lines : string :=
  "a = 1" +:+ String tools.cr (String tools.lf EmptyString) +:+ "b = 2".

(** A file with two functions and a statement between them. *)
Definition two_functions : list string :=
  ["import os"; ""; "def foo(a):"; "    x = 1"; "    return x"; ""; "y = 2";
   "def bar():"; "    pass"; "z = 3"].

(** The document of a specification with a minimum coverage. *)
Definition document (min_coverage_percentage : yaml.value) : yaml.value :=
  yaml.Mapping
    [("target_function_info", yaml.Mapping [("name", yaml.Text "add")]);
     ("test_specifications",
      yaml.Mapping [("min_coverage_percentage", min_coverage_percentage)])].

(** [test_specifications:] with nothing under it. *)
Definition document_without_settings : yaml.value :=
  yaml.Mapping
    [("target_function_info", yaml.Mapping [("name", yaml.Text "add")]);
     ("test_specifications", yaml.Null)].

(** [framework: 3] *)
Definition document_with_framework_3 : yaml.value :=
  yaml.Mapping [("test_specifications", yaml.Mapping [("framework", yaml.Int 3)])].

(** A suite generator that never answers. *)
Definition silent : evolution_orchestrator.collaborators :=
  {| evolution_orchestrator.generate_tests := fun _ _ =>
       Raise (Exception RuntimeError "service unavailable");
     evolution_orchestrator.evaluation := fun _ => all_detected |}.

(** A run whose text is parsed to [parsed] and whose files are written. *)
Definition parsing_to (parsed : yaml.value)
    (agents : evolution_orchestrator.collaborators) : evolution_orchestrator_yaml.outside :=
  {| evolution_orchestrator_yaml.safe_load := fun _ => errors.Returns parsed;
     evolution_orchestrator_yaml.agents := agents;
     evolution_orchestrator_yaml.save_fault := fun _ => None |}.

(** A run in which the files of generation 2 cannot be written. *)
Definition unwritable_in_generation_2 (parsed : yaml.value)
    : evolution_orchestrator_yaml.outside :=
  {| evolution_orchestrator_yaml.safe_load := fun _ => errors.Returns parsed;
     evolution_orchestrator_yaml.agents := steady;
     evolution_orchestrator_yaml.save_fault := fun gen =>
       if decide (gen = 2%nat)
       then Some (Exception OSError "[Errno 28] No space left on device")
       else None |}.

End samples.

(** * Properties *)

(** ** The monad *)

Lemma bind_run {S A B} (m : ST S A) (f : A -> ST S B) (s : S) :
  (m ≫= f) s = match m s with
               | (Ok a, s') => f a s'
               | (Raise e, s') => (Raise e, s')
               end.
Proof. reflexivity. Qed.

(** Symbolic execution of a computation applied to a state. *)
Ltac st_simpl :=
  repeat first
    [ progress rewrite bind_run
    | progress unfold mret, ST_ret, raise, gets, get, modify
    | progress cbn ].

Lemma for_each_app {S A} (l1 l2 : list A) (body : A -> ST S unit) (s : S) :
  for_each (l1 ++ l2) body s = (for_each l1 body ;; for_each l2 body) s.
Proof.
  revert s. induction l1 as [|x l1 IH]; intros s; simpl.
  - reflexivity.
  - rewrite !bind_run. destruct (body x s) as [[[]|e] s']; [|reflexivity].
    rewrite IH. reflexivity.
Qed.

(** ** State that a computation leaves related to the state it started in *)
Section keeps.
Context {S : Type} (R : S -> S -> Prop) `{!Reflexive R} `{!Transitive R}.

Lemma keeps_ret {A} (a : A) : keeps R (mret a).
Proof. intros s. simpl. reflexivity. Qed.

Lemma keeps_raise {A} (e : exn) : keeps R (raise e : ST S A).
Proof. intros s. simpl. reflexivity. Qed.

Lemma keeps_gets {A} (f : S -> A) : keeps R (gets f).
Proof. intros s. simpl. reflexivity. Qed.

Lemma keeps_get : keeps R get.
Proof. intros s. simpl. reflexivity. Qed.

Lemma keeps_modify (f : S -> S) : (∀ s, R s (f s)) -> keeps R (modify f).
Proof. intros Hf s. apply Hf. Qed.

Lemma keeps_bind {A B} (m : ST S A) (f : A -> ST S B) :
  keeps R m -> (∀ a, keeps R (f a)) -> keeps R (m ≫= f).
Proof.
  intros Hm Hf s. rewrite bind_run. specialize (Hm s).
  destruct (m s) as [[a|e] s']; simpl in *; [|done].
  etrans; [exact Hm|]. apply Hf.
Qed.

Lemma keeps_try_except {A} (m : ST S A) (h : exn -> ST S A) :
  keeps R m -> (∀ e, keeps R (h e)) -> keeps R (try_except m h).
Proof.
  intros Hm Hh s. unfold try_except. specialize (Hm s).
  destruct (m s) as [[a|e] s']; simpl in *; [done|].
  etrans; [exact Hm|]. apply Hh.
Qed.

Lemma keeps_try_finally {A} (m : ST S A) (fin : ST S unit) :
  keeps R m -> keeps R fin -> keeps R (try_finally m fin).
Proof.
  intros Hm Hfin s. unfold try_finally. specialize (Hm s).
  destruct (m s) as [r s']. specialize (Hfin s').
  destruct (fin s') as [[[]|e] s'']; simpl in *; etrans; eauto.
Qed.

End keeps.

Lemma keeps_for_each {S A} (R : S -> S -> Prop) `{!Reflexive R} `{!Transitive R}
    (l : list A) (body : A -> ST S unit) :
  (∀ x, keeps R (body x)) -> keeps R (for_each l body).
Proof.
  intros Hbody. induction l as [|x l IH]; cbn [for_each].
  - by apply keeps_ret.
  - apply keeps_bind; [done..|]. intros []. exact IH.
Qed.

(** ** The fault injector *)
Module fault_injector_facts.
Import ast fault_injector.

Section shape_ind.
Context (P : shape -> Prop).
Context (Hnode : ∀ l cs, Forall P cs -> P (Shape l cs)).

Fixpoint shape_forall_ind (s : shape) : P s :=
  match s with
  | Shape l cs =>
    Hnode l cs
      ((fix go (cs : list shape) : Forall P cs :=
          match cs with
          | [] => @List.Forall_nil _ P
          | c :: cs' => @List.Forall_cons _ P c cs' (shape_forall_ind c) (go cs')
          end) cs)
  end.
End shape_ind.

Lemma nodes_of_root s : root s ∈ nodes_of s.
Proof. destruct s. cbn. by left. Qed.

Lemma shaped_dom h s x : shaped h s -> x ∈ nodes_of s -> is_Some (h !! x).
Proof.
  revert x. induction s as [l cs IH] using shape_forall_ind. intros x Hs Hx.
  inversion Hs as [l' n cs' Hl Hcs Hall]; subst. cbn in Hx.
  apply elem_of_cons in Hx as [->|Hx]; [by eexists|].
  apply list_elem_of_In, in_flat_map in Hx as (c & Hc%list_elem_of_In & Hx%list_elem_of_In).
  rewrite Forall_forall in IH, Hall.
  apply (IH c Hc); [|done]. by apply Hall.
Qed.

(** A shape stays valid when the store changes outside of it. *)
Lemma shaped_frame h h' s :
  shaped h s -> (∀ x, x ∈ nodes_of s -> h' !! x = h !! x) -> shaped h' s.
Proof.
  induction s as [l cs IH] using shape_forall_ind. intros Hs Hsame.
  inversion Hs as [l' n cs' Hl Hcs Hall]; subst.
  apply (shaped_node h' l n cs); [|done|].
  - rewrite Hsame; [done|]. cbn. by left.
  - rewrite Forall_forall in IH, Hall |- *. intros c Hc.
    apply (IH c Hc); [by apply Hall|]. intros x Hx. apply Hsame.
    cbn. right. apply list_elem_of_In, in_flat_map. exists c.
    split; by apply list_elem_of_In.
Qed.

Section with_runtime.
Context `{Runtime}.

#[local] Instance leaves_others_refl l : Reflexive (leaves_others l).
Proof. by intros st x. Qed.
#[local] Instance leaves_others_trans l : Transitive (leaves_others l).
Proof.
  intros a b c Hab Hbc x Hx Hin. rewrite Hbc; [by apply Hab|done|].
  by rewrite Hab.
Qed.

Lemma get_node_leaves l node : keeps (leaves_others l) (get_node node).
Proof. apply keeps_gets. apply _. Qed.

Lemma set_node_leaves l n : keeps (leaves_others l) (set_node l n).
Proof.
  apply keeps_modify. intros st x Hx _. cbn. by rewrite lookup_insert_ne.
Qed.

Lemma new_node_leaves l n : keeps (leaves_others l) (new_node n).
Proof.
  intros st x Hx Hin. unfold new_node, alloc. cbn.
  rewrite lookup_insert_ne; [done|]. intros <-.
  apply elem_of_dom in Hin. by apply is_fresh in Hin.
Qed.

Lemma random_choice_leaves {A} l (seq : list A) :
  keeps (leaves_others l) (random_choice seq).
Proof.
  intros st. unfold random_choice. destruct seq; [reflexivity|].
  destruct (randbelow _ _) as [i g]. by destruct (_ !! i).
Qed.

Ltac leaves_step :=
  first
    [ apply keeps_bind; [apply _ | | intros ?]
    | apply keeps_ret; apply _
    | apply get_node_leaves
    | apply set_node_leaves
    | apply new_node_leaves
    | apply random_choice_leaves ].

(** A mutation assigns fields of the node it is given and creates objects;
    it touches no other object. *)
Lemma mutate_leaves l : keeps (leaves_others l) (mutate l).
Proof.
  unfold mutate. leaves_step; [leaves_step|].
  repeat case_match; try (by leaves_step);
    unfold _mutate_binop, _mutate_compare, _mutate_boolop, _mutate_if_condition,
      _mutate_return_value;
    repeat first [leaves_step | case_match].
Qed.


#[local] Arguments mutate : simpl never.

(** The queue of the walk after the first node was taken from it. *)
Lemma queue_step h h' l cs ts :
  Forall (shaped h) (Shape l cs :: ts) ->
  NoDup (flat_map nodes_of (Shape l cs :: ts)) ->
  (∀ x, x ≠ l -> is_Some (h !! x) -> h' !! x = h !! x) ->
  children h l = map root cs
  ∧ Forall (shaped h') (ts ++ cs)
  ∧ NoDup (flat_map nodes_of (ts ++ cs))
  ∧ length (flat_map nodes_of (Shape l cs :: ts))
    = S (length (flat_map nodes_of (ts ++ cs))).
Proof.
  intros Hall Hnodup Hsame. cbn in Hnodup.
  apply Forall_cons in Hall as [Hs Hts].
  inversion Hs as [l' n cs' Hl Hcs Hcs_all]; subst.
  apply NoDup_cons in Hnodup as [Hl_fresh Hnodup].
  rewrite !flat_map_app. split; [|split; [|split]].
  - unfold children. by rewrite Hl.
  - apply Forall_app. split.
    + rewrite Forall_forall in Hts |- *. intros c Hc.
      apply (shaped_frame h); [by apply Hts|]. intros x Hx. apply Hsame.
      * intros ->. apply Hl_fresh. apply elem_of_app. right.
        apply list_elem_of_In, in_flat_map. exists c. split; by apply list_elem_of_In.
      * eapply shaped_dom; [by apply Hts|done].
    + rewrite Forall_forall in Hcs_all |- *. intros c Hc.
      apply (shaped_frame h); [by apply Hcs_all|]. intros x Hx. apply Hsame.
      * intros ->. apply Hl_fresh. apply elem_of_app. left.
        apply list_elem_of_In, in_flat_map. exists c. split; by apply list_elem_of_In.
      * eapply shaped_dom; [by apply Hcs_all|done].
  - apply NoDup_app in Hnodup as (Hcs_nd & Hdisj & Hts_nd).
    apply NoDup_app. split; [done|]. split; [|done].
    intros x Hx Hx'. by apply (Hdisj x).
  - cbn. rewrite !length_app. lia.
Qed.

(** The bound of [walk_loop] is not what ends the walk of a forest that
    has no more nodes than the bound: a greater bound gives the same
    result. *)
Lemma walk_loop_bound locations_to_fault : ∀ pending ts st k,
  Forall (shaped (nodes st.1)) ts ->
  NoDup (flat_map nodes_of ts) ->
  (length (flat_map nodes_of ts) <= pending)%nat ->
  walk_loop (pending + k) (map root ts) locations_to_fault st
  = walk_loop pending (map root ts) locations_to_fault st.
Proof.
  induction pending as [|p IH]; intros ts st k Hall Hnodup Hlen.
  - destruct ts as [|[l cs] ts]; [|cbn in Hlen; lia].
    cbn. by destruct k.
  - destruct ts as [|[l cs] ts]; [done|].
    cbn [map root Nat.add walk_loop]. st_simpl.
    assert (∀ st' : state,
      (∀ x, x ≠ l -> is_Some (nodes st.1 !! x) -> nodes st'.1 !! x = nodes st.1 !! x) ->
      walk_loop (p + k) (map root ts ++ children (nodes st.1) l) locations_to_fault st'
      = walk_loop p (map root ts ++ children (nodes st.1) l) locations_to_fault st')
      as Hrest.
    { intros st' Hsame.
      destruct (queue_step _ _ _ _ _ Hall Hnodup Hsame) as (-> & Hall' & Hnodup' & Hlen').
      rewrite <- map_app. apply IH; [done..|]. lia. }
    case_match; [|apply Hrest; done].
    pose proof (mutate_leaves l st) as Hleaves. rewrite !bind_run.
    destruct (mutate l st) as [[[]|e] st1]; cbn [snd] in Hleaves; [|done].
    st_simpl. case_match; [done|]. apply Hrest. exact Hleaves.
Qed.

(** On a tree, [_inject_faults_in_tree] walks until its queue is empty:
    with any greater bound the walk gives the same result. *)
Lemma inject_faults_in_tree_bound tree locations_to_fault (st : state) k :
  is_tree (nodes st.1) tree ->
  walk_loop (size (nodes st.1) + k) [tree] locations_to_fault st
  = _inject_faults_in_tree tree locations_to_fault st.
Proof.
  intros (s & <- & Hs & Hnodup). unfold _inject_faults_in_tree. st_simpl.
  apply (walk_loop_bound locations_to_fault (size (nodes st.1)) [s] st k).
  - by apply Forall_singleton.
  - cbn. by rewrite app_nil_r.
  - cbn. rewrite app_nil_r. rewrite <- size_dom.
    rewrite <- (size_list_to_set (C := gset loc) (nodes_of s)) by done.
    apply subseteq_size. intros x Hx%elem_of_list_to_set.
    apply elem_of_dom. by eapply shaped_dom.
Qed.

(** Apart from the state it leaves the generator in, [inject_faults] does
    not depend on the state of the generator it starts with: the first use
    of the generator is behind [random.seed(0)]. *)
Lemma inject_faults_generator (tree : loc) (o : objects) (g1 g2 : rng) :
  (inject_faults tree (o, g1)).1 = (inject_faults tree (o, g2)).1
  ∧ (inject_faults tree (o, g1)).2.1 = (inject_faults tree (o, g2)).2.1.
Proof.
  unfold inject_faults. rewrite !bind_run. unfold zoom_fst. simpl.
  destruct (visit recursion_limit tree o) as [[[]|e] o']; simpl; [|done].
  rewrite !bind_run. simpl.
  destruct (possible_fault_locations (self o')); done.
Qed.

Lemma inject_simple_fault_returns (code : string) (num_faults : Z) (g : rng) :
  ∃ text, (inject_simple_fault code num_faults g).1 = Ok text.
Proof.
  unfold inject_simple_fault, try_except.
  destruct (parse code) as [[h tree]|e]; [|by eexists].
  destruct (inject_faults _ _) as [[t|e] st]; [|by eexists].
  destruct (unparse _ _); by eexists.
Qed.

(** The text [inject_simple_fault] returns does not depend on the state of
    the generator. *)
Lemma inject_simple_fault_generator (code : string) (num_faults : Z) (g1 g2 : rng) :
  (inject_simple_fault code num_faults g1).1 = (inject_simple_fault code num_faults g2).1.
Proof.
  unfold inject_simple_fault, try_except.
  destruct (parse code) as [[h tree]|e]; [|done].
  pose proof (inject_faults_generator tree
                {| self := __init__ num_faults; nodes := h |} g1 g2) as [Hr Hs].
  destruct (inject_faults tree (_, g1)) as [r1 s1],
           (inject_faults tree (_, g2)) as [r2 s2].
  simpl in Hr, Hs. subst r2. rewrite Hs.
  destruct r1; [|done]. destruct (unparse _ _); done.
Qed.

(** C4.  Fault injection is deterministic: two calls of
    [inject_simple_fault] with the same source text and the same number of
    faults return the same text, whatever the state of the global random
    generator at either call. *)
Theorem inject_simple_fault_deterministic (code : string) (num_faults : Z)
    (g1 g2 : rng) :
  (inject_simple_fault code num_faults g1).1 = (inject_simple_fault code num_faults g2).1.
Proof.
  unfold inject_simple_fault, try_except.
  destruct (parse code) as [[h tree]|e]; [|reflexivity].
  destruct (inject_faults_generator tree
              {| self := __init__ num_faults; nodes := h |} g1 g2) as [Hresult Hobjects].
  destruct (inject_faults tree (_, g1)) as [[mutated_tree|e] st1],
           (inject_faults tree (_, g2)) as [[mutated_tree'|e'] st2];
    cbn in Hresult, Hobjects; try discriminate Hresult.
  - injection Hresult as <-. rewrite Hobjects.
    destruct (unparse _ _); reflexivity.
  - reflexivity.
Qed.

(** C8, as the code has it.  When [ast.parse] rejects the source text,
    [inject_simple_fault] catches the error and returns the source text
    unchanged; no error reaches the caller and the generator is not
    touched. *)
Theorem inject_simple_fault_syntax_error (code : string) (num_faults : Z)
    (g : rng) (e : exn) :
  parse code = Raise e ->
  inject_simple_fault code num_faults g = (Ok code, g).
Proof.
  intros Hparse. unfold inject_simple_fault, try_except. rewrite Hparse. done.
Qed.

End with_runtime.
End fault_injector_facts.

(** ** Numbers *)
Module py_facts.

Lemma round_half_even_floor (q : Q) : Qfloor q <= py.round_half_even q.
Proof.
  unfold py.round_half_even. destruct (_ ?= _)%Q; [destruct (Z.even _)|..]; lia.
Qed.

Lemma round2_nonneg (q : Q) : (0 <= q)%Q -> (0 <= py.round2 q)%Q.
Proof.
  intros Hq. unfold py.round2.
  assert (0 <= py.round_half_even (q * 100)) as Hz.
  { etrans; [|apply round_half_even_floor].
    change 0 with (Qfloor 0). apply Qfloor_resp_le. nra. }
  apply Qle_shift_div_l; [reflexivity|]. rewrite Qmult_0_l.
  change 0%Q with (inject_Z 0). by rewrite <- Zle_Qle.
Qed.

Lemma percentage_nonneg (c t : Z) :
  0 <= c -> 0 < t -> (0 <= inject_Z c / inject_Z t * 100)%Q.
Proof.
  intros Hc Ht.
  assert (0 <= inject_Z c)%Q by (change 0%Q with (inject_Z 0); by rewrite <- Zle_Qle).
  assert (0 < inject_Z t)%Q by (change 0%Q with (inject_Z 0); by rewrite <- Zlt_Qlt).
  assert (0 <= inject_Z c / inject_Z t)%Q.
  { apply Qle_shift_div_l; [done|]. by rewrite Qmult_0_l. }
  nra.
Qed.

End py_facts.

(** ** The sandbox *)
Module testing_env_facts.
Import testing_env.

#[local] Instance same_outside_refl d : Reflexive (same_outside d).
Proof. by intros fs. Qed.
#[local] Instance same_outside_trans d : Transitive (same_outside d).
Proof. unfold same_outside. intros a b c Hab Hbc. congruence. Qed.

Lemma same_outside_insert d (files : gmap string string) (fs : storage) :
  same_outside d fs (<[d := files]> fs).
Proof. unfold same_outside. by rewrite delete_insert_eq. Qed.

Ltac keeps_step :=
  first
    [ apply keeps_bind; [apply _ | | intros ?]
    | apply keeps_ret; apply _
    | apply keeps_raise; apply _
    | apply keeps_gets; apply _
    | apply keeps_get; apply _
    | apply keeps_modify; intros ?; try apply same_outside_insert ].

Lemma makedirs_outside d : keeps (same_outside d) (makedirs d).
Proof.
  apply keeps_modify. intros fs. destruct (fs !! d); [done|].
  apply same_outside_insert.
Qed.

Lemma init_outside o base fs :
  same_outside (py.path_join base (uuid4 o)) fs (__init__ o base fs).2.
Proof.
  revert fs. change (keeps (same_outside (py.path_join base (uuid4 o))) (__init__ o base)).
  unfold __init__. keeps_step; [apply makedirs_outside|]. keeps_step.
Qed.

Lemma init_run o base fs :
  ∃ fs', __init__ o base fs
         = (Ok {| base_dir := base; run_dir := py.path_join base (uuid4 o);
                  source_file_path := None; test_file_path := None |}, fs').
Proof. by eexists. Qed.

Lemma write_file_outside fails self filename content :
  keeps (same_outside (run_dir self)) (_write_file fails self filename content).
Proof.
  unfold _write_file. keeps_step; [apply makedirs_outside|].
  destruct fails; repeat keeps_step.
Qed.

Lemma setup_environment_outside o self source_code test_code source_filename test_filename :
  keeps (same_outside (run_dir self))
    (setup_environment o self source_code test_code source_filename test_filename).
Proof.
  unfold setup_environment.
  repeat (keeps_step; [apply write_file_outside|]). keeps_step.
Qed.

(** [run_tests] does not touch the storage. *)
Lemma run_tests_storage o self framework fs :
  (run_tests o self framework fs).2 = fs.
Proof.
  unfold run_tests, attribute. st_simpl.
  repeat case_decide; destruct (test_file_path self); done.
Qed.

(** The outcome of [run_tests] does not depend on the storage. *)
Lemma run_tests_result o self framework fs fs' :
  (run_tests o self framework fs).1 = (run_tests o self framework fs').1.
Proof.
  unfold run_tests, attribute. st_simpl.
  repeat case_decide; destruct (test_file_path self); done.
Qed.

(** [cleanup] leaves the storage without the working directory. *)
Lemma cleanup_run self fs : cleanup self fs = (Ok tt, delete (run_dir self) fs).
Proof.
  unfold cleanup. rewrite bind_run. simpl. case_bool_decide as Hd; simpl.
  - done.
  - rewrite delete_id; [done|]. by apply eq_None_not_Some.
Qed.

Section with_runtime.
Context `{Runtime}.

Lemma get_coverage_outside o self :
  keeps (same_outside (run_dir self)) (get_coverage o self).
Proof.
  unfold get_coverage. keeps_step.
  { unfold attribute. destruct (source_file_path self); keeps_step. }
  keeps_step. { intros fs. unfold run. simpl. done. }
  keeps_step. { unfold attribute. destruct (test_file_path self); keeps_step. }
  keeps_step. { intros fs. unfold run. simpl. done. }
  case_match; [keeps_step|].
  keeps_step. { intros fs. unfold run. simpl. done. }
  keeps_step. { destruct (coverage_json_text o); keeps_step. }
  case_match; [keeps_step|]. keeps_step; [keeps_step|].
  case_match; keeps_step.
Qed.

Lemma read_report_nonneg text :
  counts_nonneg -> (0 <= (read_report text).1)%Q.
Proof.
  intros Hwf. unfold read_report.
  destruct (json_load text) as [[c m]|e] eqn:Hload.
  - apply Hwf in Hload as [Hc Hm]. case_bool_decide; simpl; [|done].
    apply py_facts.round2_nonneg, py_facts.percentage_nonneg; lia.
  - destruct (exn_cls e); done.
Qed.


(** The coverage [get_coverage] returns is not negative. *)
Lemma get_coverage_nonneg o self fs p raw fs' :
  counts_nonneg ->
  get_coverage o self fs = (Ok (p, raw), fs') -> (0 <= p)%Q.
Proof.
  intros Hwf. unfold get_coverage, attribute, run. st_simpl.
  destruct (source_file_path self); st_simpl; [|done].
  destruct (subprocess_run o ["coverage"; "erase"]); st_simpl; [|done].
  destruct (test_file_path self); st_simpl; [|done].
  destruct (subprocess_run o _) as [run_result|]; st_simpl; [|done].
  case_match; st_simpl. { intros [= <- _ _]. done. }
  destruct (subprocess_run o _) as [report_result|]; st_simpl; [|done].
  destruct (coverage_json_text o); st_simpl;
    (case_match; st_simpl; [intros [= <- _ _]; done|]);
    (case_match; st_simpl; [|intros [= <- _ _]; done]);
    intros [= Hr _];
    match type of Hr with read_report ?t = _ =>
      generalize (read_report_nonneg t Hwf); rewrite Hr; done end.
Qed.


End with_runtime.
End testing_env_facts.

(** ** The evaluator *)
Module fitness_evaluator_facts.
Import testing_env fitness_evaluator testing_env_facts detection.

#[local] Arguments testing_env.__init__ : simpl never.
#[local] Arguments setup_environment : simpl never.
#[local] Arguments run_tests : simpl never.
#[local] Arguments get_coverage : simpl never.
#[local] Arguments cleanup : simpl never.
#[local] Arguments fault_injector.inject_simple_fault : simpl never.

Ltac storage_back d fs0 :=
  match goal with
  | |- context [delete d ?fsk] =>
    replace (delete d fsk) with (delete d fs0)
      by (unfold same_outside in *; congruence)
  end.

Section with_runtime.
Context `{Runtime}.

Lemma setup_environment_ok o self a b c d fs env fs' :
  setup_environment o self a b c d fs = (Ok env, fs') ->
  env = {| base_dir := base_dir self; run_dir := run_dir self;
           source_file_path := Some (py.path_join (run_dir self) c);
           test_file_path := Some (py.path_join (run_dir self) d) |}.
Proof.
  unfold setup_environment, _write_file, makedirs. st_simpl.
  destruct (is_fault o 0); st_simpl; [done|].
  destruct (is_fault o 1); st_simpl; [done|].
  destruct (is_fault o 2); st_simpl; [done|].
  destruct (is_fault o 3); st_simpl; [done|].
  by intros [= <- _].
Qed.

Lemma setup_environment_result o self a b c d fs fs' :
  (setup_environment o self a b c d fs).1 = (setup_environment o self a b c d fs').1.
Proof.
  unfold setup_environment, _write_file, makedirs. st_simpl.
  destruct (is_fault o 0); st_simpl; [done|].
  destruct (is_fault o 1); st_simpl; [done|].
  destruct (is_fault o 2); st_simpl; [done|].
  destruct (is_fault o 3); st_simpl; done.
Qed.

Lemma evaluate_correct_run o base code tests fw f :
  ∃ rs, evaluate_correct o base code tests fw f
    = (Ok tt, {| results := rs; detected_bugs := detected_bugs f;
                 total_faults_attempted := total_faults_attempted f;
                 fs := delete (py.path_join base (uuid4 o)) (fs f);
                 random := random f |})
    ∧ (results f = initial_results -> counts_nonneg -> consistent rs).
Proof.
  destruct f as [rs0 db tot fs0 g].
  unfold evaluate_correct. rewrite bind_run. unfold on_storage at 1.
  pose proof (init_outside o base fs0) as Hinit.
  destruct (init_run o base fs0) as [fs1 Hrun]. cbn [fs]. rewrite Hrun in *.
  cbn [snd] in Hinit. cbn [results detected_bugs total_faults_attempted random].
  set (d := py.path_join base (uuid4 o)) in *.
  set (env0 := {| base_dir := base; run_dir := d; source_file_path := None;
                  test_file_path := None |}).
  unfold try_finally, try_except.
  rewrite bind_run. unfold on_storage at 1. cbn [fs].
  pose proof (setup_environment_outside o env0 code tests "target_function.py"
                "test_target_function.py" fs1) as Hsetup.
  destruct (setup_environment o env0 _ _ _ _ fs1) as [[env|e] fs2] eqn:Hs;
    cbn [snd run_dir env0] in Hsetup;
    cbn [results detected_bugs total_faults_attempted random].
  2:{ unfold set_results, on_storage. st_simpl. rewrite cleanup_run. simpl.
      storage_back d fs0. eexists. split; [done|]. intros -> _. split; done. }
  assert (run_dir env = d) as Hd by (by apply setup_environment_ok in Hs as ->).
  rewrite bind_run. unfold on_storage at 1. cbn [fs].
  pose proof (run_tests_storage o env fw fs2) as Hrt.
  destruct (run_tests o env fw fs2) as [[[[rc out] err]|e] fs3]; cbn [snd] in Hrt; subst fs3;
    cbn [results detected_bugs total_faults_attempted random].
  2:{ unfold set_results, on_storage. st_simpl. rewrite cleanup_run. simpl.
      storage_back d fs0. eexists. split; [done|]. intros -> _. split; done. }
  pose proof (get_coverage_outside o env fs2) as Hcov. rewrite Hd in Hcov.
  pose proof (get_coverage_nonneg o env fs2) as Hnonneg.
  unfold set_results, on_storage.
  case_bool_decide; st_simpl;
    destruct (get_coverage o env fs2) as [[[p raw]|e] fs3]; cbn [snd] in Hcov;
    st_simpl; rewrite cleanup_run; simpl; storage_back d fs0;
    (eexists; split; [done|]); intros -> Hwf; split; simpl; try done;
    by eapply Hnonneg.
Qed.

Lemma sandbox_exit_eq o base text tests fname fw fs1 fs2 :
  sandbox_exit o base text tests fname fw
  = match (setup_environment o
             {| base_dir := base; run_dir := py.path_join base (uuid4 o);
                source_file_path := None; test_file_path := None |}
             text tests fname "test_target_function.py" fs1).1 with
    | Raise _ => None
    | Ok env =>
      match (run_tests o env fw fs2).1 with
      | Ok (return_code, _, _) => Some return_code
      | Raise _ => None
      end
    end.
Proof.
  unfold sandbox_exit, sandbox_run. rewrite bind_run.
  destruct (init_run o base ∅) as [fs0 ->].
  rewrite bind_run.
  rewrite (surjective_pairing (setup_environment _ _ _ _ _ _ fs0)).
  rewrite (setup_environment_result _ _ _ _ _ _ fs0 fs1).
  destruct (setup_environment _ _ _ _ _ _ fs1).1 as [env|e]; [|done].
  rewrite bind_run.
  rewrite (surjective_pairing (run_tests _ _ _ _)).
  rewrite (run_tests_result _ _ _ _ fs2).
  destruct (run_tests o env fw fs2).1 as [[[rc out] err]|e]; done.
Qed.

Lemma fault_injection_run o base code tests fw i f :
  let text := match (fault_injector.inject_simple_fault code 1 (random f)).1 with
              | Ok text => text
              | Raise _ => code
              end in
  let a := {| rendered := text;
              exit_status := sandbox_exit o base text tests
                               ("mutated_function_" +:+ pretty i +:+ ".py") fw |} in
  ∃ rs, fault_injection o base code tests fw i f
    = (Ok tt,
       {| results := rs;
          detected_bugs :=
            detected_bugs f + (if negb (is_noop code a) && exited_nonzero a then 1 else 0);
          total_faults_attempted :=
            total_faults_attempted f + (if is_noop code a then 0 else 1);
          fs := if is_noop code a then fs f
                else delete (py.path_join base (uuid4 o)) (fs f);
          random := (fault_injector.inject_simple_fault code 1 (random f)).2 |})
    ∧ same_scores (results f) rs.
Proof.
  destruct f as [rs0 db tot fs0 g]. cbn [random results detected_bugs total_faults_attempted fs].
  unfold fault_injection. rewrite bind_run. unfold on_random at 1. cbn [random].
  destruct (fault_injector_facts.inject_simple_fault_returns code 1 g) as [text Htext].
  destruct (fault_injector.inject_simple_fault code 1 g) as [r g'].
  cbn [fst snd] in *. subst r.
  cbn [results detected_bugs total_faults_attempted fs].
  unfold is_noop. cbn [rendered].
  case_decide as Hnoop.
  { rewrite bool_decide_true by done. st_simpl. rewrite !Z.add_0_r.
    eexists. split; [done|]. done. }
  rewrite bool_decide_false by done. cbn [negb andb].
  unfold incr_total_faults_attempted. st_simpl.
  unfold on_storage at 1.
  pose proof (init_outside o base fs0) as Hinit.
  destruct (init_run o base fs0) as [fs1 Hrun]. cbn [fs]. rewrite Hrun in *.
  cbn [snd] in Hinit. cbn [results detected_bugs total_faults_attempted random].
  set (d := py.path_join base (uuid4 o)) in *.
  set (env0 := {| base_dir := base; run_dir := d; source_file_path := None;
                  test_file_path := None |}).
  unfold try_finally, try_except.
  rewrite bind_run. unfold on_storage at 1. cbn [fs].
  set (fname := "mutated_function_" +:+ pretty i +:+ ".py").
  pose proof (setup_environment_outside o env0 text tests fname
                "test_target_function.py" fs1) as Hsetup.
  unfold exited_nonzero. cbn [exit_status].
  rewrite (sandbox_exit_eq o base text tests fname fw fs1 fs1). fold d env0.
  destruct (setup_environment o env0 _ _ _ _ fs1) as [[env|e] fs2] eqn:Hs;
    cbn [fst snd run_dir env0] in Hsetup |- *;
    cbn [results detected_bugs total_faults_attempted random].
  2:{ unfold set_results, on_storage. st_simpl. rewrite cleanup_run. simpl.
      storage_back d fs0. rewrite Z.add_0_r. eexists. split; [done|]. done. }
  rewrite bind_run. unfold on_storage at 1. cbn [fs].
  rewrite (run_tests_result o env fw fs1 fs2).
  pose proof (run_tests_storage o env fw fs2) as Hrt.
  destruct (run_tests o env fw fs2) as [[[[rc out] err]|e] fs3]; cbn [fst snd] in Hrt |- *;
    subst fs3; cbn [results detected_bugs total_faults_attempted random].
  2:{ unfold set_results, on_storage. st_simpl. rewrite cleanup_run. simpl.
      storage_back d fs0. rewrite Z.add_0_r. eexists. split; [done|]. done. }
  unfold set_results, on_storage, incr_detected_bugs.
  case_bool_decide; st_simpl; rewrite cleanup_run; simpl; storage_back d fs0;
    rewrite ?Z.add_0_r; (eexists; split; [done|]); done.
Qed.

Lemma fault_injections_run o base code tests fw g n : ∀ a f,
  random f = generator_at code g a ->
  let atts := map (attempt_at o base code tests fw g) (seq a n) in
  ∃ rs fs',
    for_each (seq a n)
      (fun i => fault_injection (mutated o i) base code tests fw i) f
    = (Ok tt,
       {| results := rs;
          detected_bugs :=
            detected_bugs f
            + Z.of_nat (length (List.filter exited_nonzero (attempted code atts)));
          total_faults_attempted :=
            total_faults_attempted f + Z.of_nat (length (attempted code atts));
          fs := fs';
          random := generator_at code g (a + n) |})
    ∧ same_scores (results f) rs
    ∧ ∀ d, fs' !! d
           = if bool_decide (d ∈ removed o base code tests fw g (seq a n))
             then None else fs f !! d.
Proof.
  induction n as [|n IH]; intros a f Hg atts.
  - subst atts. cbn. destruct f as [rs db tot fs0 g0]. cbn in *.
    rewrite !Z.add_0_r, Nat.add_0_r. subst g0.
    eexists _, _. split; [done|]. split; [done|]. intros d.
    rewrite bool_decide_false; [done|]. unfold removed. cbn. by intros ?%elem_of_nil.
  - cbn [seq for_each]. rewrite bind_run.
    destruct (fault_injection_run (mutated o a) base code tests fw a f) as (rs1 & Hrun & Hs1).
    rewrite Hg in Hrun. 
    change (match (fault_injector.inject_simple_fault code 1 (generator_at code g a)).1 with
            | Ok text => text | Raise _ => code end) with (mutant_at code g a) in Hrun.
    change {| rendered := mutant_at code g a; exit_status := _ |}
      with (attempt_at o base code tests fw g a) in Hrun.
    rewrite Hrun. clear Hrun.
    set (x := attempt_at o base code tests fw g a) in *.
    match goal with |- context [for_each _ _ ?f1] =>
      destruct (IH (S a) f1) as (rs2 & fs2 & Hrest & Hs2 & Hfs) end.
    { reflexivity. }
    rewrite Hrest. clear Hrest. cbn [results detected_bugs total_faults_attempted fs] in *.
    subst atts. cbn [seq map]. fold x.
    unfold attempted in *. cbn [List.filter].
    eexists _, _. split; [|split].
    + f_equal. f_equal.
      * destruct (is_noop code x); cbn [negb andb List.filter length].
        -- lia.
        -- destruct (exited_nonzero x); cbn [length]; lia.
      * destruct (is_noop code x); cbn [negb length]; lia.
      * f_equal. lia.
    + destruct Hs1 as (?&?&?), Hs2 as (?&?&?). repeat split; congruence.
    + intros d. rewrite Hfs. unfold removed. cbn [seq List.filter]. fold x.
      destruct (is_noop code x); cbn [negb map].
      * done.
      * unfold working_directory.
        destruct (decide (d = py.path_join base (uuid4 (mutated o a)))) as [->|Hne];
          repeat case_bool_decide; rewrite ?lookup_delete_eq;
          rewrite ?lookup_delete_ne by done; try done; exfalso;
          match goal with
          | Hn : ¬ _ ∈ _ :: _ |- _ => apply Hn; rewrite elem_of_cons; by auto
          | Hc : _ ∈ _ :: _ |- _ => apply elem_of_cons in Hc as [?|?]; done
          end.
Qed.

Lemma evaluate_tests_run o root code tests spec K (w : storage * rng) :
  let atts := attempts o root code tests spec K w.2 in
  ∃ rs fs',
    let r := with_bug_detection_rate
               (rate (Z.of_nat (length (List.filter exited_nonzero (attempted code atts))))
                     (Z.of_nat (length (attempted code atts)))) rs in
    evaluate_tests o root code tests spec K w
    = (match calculate_total_score r (default (YNum 0) (min_coverage_percentage spec)) with
       | Ok score => Ok (with_total_score score r)
       | Raise e => Raise e
       end, (fs', generator_at code w.2 (Z.to_nat K)))
    ∧ (counts_nonneg -> consistent rs)
    ∧ ∀ d, fs' !! d
           = if bool_decide
                  (d ∈ removed o (test_runs root) code tests
                         (default "pytest" (framework spec)) w.2 (seq 0 (Z.to_nat K)))
             then None
             else delete (working_directory (correct o) (test_runs root)) w.1 !! d.
Proof.
  intros atts. destruct w as [fs0 g]. cbn [fst snd] in *.
  unfold evaluate_tests, evaluate_tests_body. cbn [fst snd]. fold (test_runs root).
  rewrite bind_run.
  match goal with |- context [evaluate_correct ?o ?b ?c ?t ?fw ?f] =>
    destruct (evaluate_correct_run o b c t fw f) as (rs1 & -> & Hcons) end.
  cbn [results detected_bugs total_faults_attempted fs random] in *.
  rewrite bind_run.
  match goal with |- context [for_each _ _ ?f1] =>
    destruct (fault_injections_run o (test_runs root) code tests
                (default "pytest" (framework spec)) g (Z.to_nat K) 0%nat f1)
      as (rs2 & fs2 & -> & Hs & Hfs) end.
  { reflexivity. }
  cbn [results detected_bugs total_faults_attempted fs random] in *.
  rewrite !Z.add_0_l. unfold set_results. st_simpl.
  fold atts.
  exists rs2, fs2. cbn zeta. split; [|split].
  - destruct (calculate_total_score _ _); reflexivity.
  - intros Hwf. destruct (Hcons eq_refl Hwf) as [Hfp Hcov], Hs as (Hp & Hc & Hf).
    split; [rewrite Hf, Hp; exact Hfp | rewrite Hc; exact Hcov].
  - exact Hfs.
Qed.


(** C2.  With the coverage and the bug-detection rate in [0, 100], the
    pass rate 0 or 100 and a minimum coverage that is not negative, the
    scoring step returns a total score, and that score lies in [0, 100]. *)
Theorem total_score_range (r : Results) (min_coverage : Q) :
  (0 <= code_coverage_percentage r <= 100)%Q ->
  (0 <= bug_detection_rate r <= 100)%Q ->
  (test_pass_rate_correct_function r == 0
   ∨ test_pass_rate_correct_function r == 100)%Q ->
  (0 <= min_coverage)%Q ->
  ∃ score, calculate_total_score r (YNum min_coverage) = Ok score
           ∧ (0 <= score <= 100)%Q.
Proof.
  intros Hcov Hbdr Hpass Hmin. unfold calculate_total_score.
  destruct (Qeq_bool (test_pass_rate_correct_function r) 100) eqn:Hp.
  - apply Qeq_bool_iff in Hp. cbn.
    destruct (Qlt_le_dec _ _); cbn; eexists; (split; [reflexivity|]);
      destruct (false_positives_detected r); cbn;
      unfold py.max0; destruct (Qlt_le_dec _ _); lra.
  - apply Qeq_bool_neq in Hp. destruct Hpass as [Hpass|Hpass]; [|done].
    cbn. eexists. split; [reflexivity|].
    destruct (false_positives_detected r); cbn;
      unfold py.max0; destruct (Qlt_le_dec _ _); lra.
Qed.

Lemma score_of_false_positive (r : Results) (min_coverage_spec : yaml_value) :
  consistent r -> false_positives_detected r = true ->
  calculate_total_score r min_coverage_spec = Ok 0%Q.
Proof.
  intros [Hpass Hcov] Hfp. specialize (Hpass Hfp).
  unfold calculate_total_score. rewrite Hfp, Hpass.
  change (Qeq_bool 0 100) with false. cbn.
  unfold py.max0. destruct (Qlt_le_dec _ _) as [Hlt|]; [|done]. lra.
Qed.

(** C1.  Whenever [evaluate_tests] returns a report whose false-positive
    flag is set, the total score of the report is 0, whatever the coverage
    measured and whatever happened in the runs against the mutants.  The
    coverage is a percentage: the line counts of a report are not
    negative. *)
Theorem false_positive_scores_zero (o : surroundings)
    (project_root_dir code tests : string) (test_spec : test_specifications)
    (num_fault_injections : Z) (w w' : storage * rng) (r : Results) :
  counts_nonneg ->
  evaluate_tests o project_root_dir code tests test_spec num_fault_injections w
    = (Ok r, w') ->
  false_positives_detected r = true ->
  total_score r = 0%Q.
Proof.
  intros Hwf Hrun Hfp.
  destruct (evaluate_tests_run o project_root_dir code tests test_spec
              num_fault_injections w) as (rs & fs' & Heq & Hcons & _).
  rewrite Heq in Hrun. clear Heq. specialize (Hcons Hwf).
  rewrite score_of_false_positive in Hrun.
  - injection Hrun as <- _. done.
  - exact Hcons.
  - destruct (calculate_total_score _ _) eqn:Hs; [|done].
    injection Hrun as <- _. exact Hfp.
Qed.

Lemma rate_spec (original : string) (atts : list attempt) :
  rate (Z.of_nat (length (List.filter exited_nonzero (attempted original atts))))
       (Z.of_nat (length (attempted original atts)))
  = bug_detection_rate_spec original atts.
Proof.
  unfold rate, bug_detection_rate_spec.
  destruct (attempted original atts) as [|a tried].
  - done.
  - rewrite bool_decide_true; [done|]. cbn [length]. lia.
Qed.

(** What [evaluate_tests] returns, when it returns. *)
Lemma evaluate_tests_returns o root code tests spec K (w w' : storage * rng) r :
  evaluate_tests o root code tests spec K w = (Ok r, w') ->
  bug_detection_rate r
  = bug_detection_rate_spec code (attempts o root code tests spec K w.2).
Proof.
  intros Hrun.
  destruct (evaluate_tests_run o root code tests spec K w) as (rs & fs' & Heq & _).
  rewrite Heq in Hrun. clear Heq.
  destruct (calculate_total_score _ _); [|done].
  injection Hrun as <- _. cbn. apply rate_spec.
Qed.




(** C9.  When [evaluate_tests] is left, by return or by exception, the
    working directory of the sandbox of the correct function and the
    working directory of the sandbox of every mutant that was attempted
    do not exist in the storage, whatever failed inside [setup_environment],
    [run_tests] or [get_coverage]. *)
Theorem working_directories_removed (o : surroundings)
    (project_root_dir code tests : string) (test_spec : test_specifications)
    (num_fault_injections : Z) (w : storage * rng) :
  let after :=
    (evaluate_tests o project_root_dir code tests test_spec num_fault_injections w).2.1 in
  let base := test_runs project_root_dir in
  after !! working_directory (correct o) base = None
  ∧ ∀ i, (i < Z.to_nat num_fault_injections)%nat ->
      is_noop code (attempt_at o base code tests
                      (default "pytest" (framework test_spec)) w.2 i) = false ->
      after !! working_directory (mutated o i) base = None.
Proof.
  intros after base.
  destruct (evaluate_tests_run o project_root_dir code tests test_spec
              num_fault_injections w) as (rs & fs' & Heq & _ & Hfs).
  subst after. rewrite Heq. cbn [fst snd]. clear Heq. fold base in Hfs. split.
  - rewrite Hfs. case_bool_decide; [done|]. apply lookup_delete_eq.
  - intros i Hi Hnoop. rewrite Hfs. rewrite bool_decide_true; [done|].
    unfold removed. apply list_elem_of_fmap.
    exists i. split; [done|]. apply list_elem_of_In, filter_In. split.
    + apply in_seq. lia.
    + by rewrite Hnoop.
Qed.

Lemma filter_none {A} (p : A -> bool) (l : list A) :
  (∀ a, a ∈ l -> p a = false) -> List.filter p l = [].
Proof.
  induction l as [|x l IH]; intros Hp; [done|].
  cbn. rewrite Hp by left. apply IH. intros a Ha. apply Hp. by right.
Qed.

Lemma filter_all_or_none {A} (p : A -> bool) (l : list A) :
  (∀ a b, a ∈ l -> b ∈ l -> p a = p b) ->
  List.filter p l = l ∨ List.filter p l = [].
Proof.
  intros Hsame. destruct l as [|x l]; [by left|].
  destruct (p x) eqn:Hx; [left|right].
  - apply forallb_filter_id, forallb_forall. intros a Ha.
    rewrite <- Hx. apply Hsame; [by apply list_elem_of_In|by left].
  - apply filter_none. intros a Ha. rewrite <- Hx. apply Hsame; [done|by left].
Qed.

Lemma rate_zero_or_hundred (original : string) (atts : list attempt) :
  (∀ a b, a ∈ atts -> b ∈ atts -> exit_status a = exit_status b) ->
  (bug_detection_rate_spec original atts == 0
   ∨ bug_detection_rate_spec original atts == 100)%Q.
Proof.
  intros Hsame. unfold bug_detection_rate_spec.
  destruct (attempted original atts) as [|a tried] eqn:Htried; [by left|].
  destruct (filter_all_or_none exited_nonzero (a :: tried)) as [-> | ->].
  - intros x y Hx Hy. unfold exited_nonzero. rewrite (Hsame x y); [done|..].
    + rewrite <- Htried in Hx. unfold attempted in Hx.
      by apply list_elem_of_In, filter_In in Hx as [?%list_elem_of_In _].
    + rewrite <- Htried in Hy. unfold attempted in Hy.
      by apply list_elem_of_In, filter_In in Hy as [?%list_elem_of_In _].
  - right. 
    assert (0 < inject_Z (Z.of_nat (length (a :: tried))))%Q.
    { change 0%Q with (inject_Z 0). rewrite <- Zlt_Qlt. cbn [length]. lia. }
    field. lra.
  - left. cbn [length]. unfold Qdiv. rewrite !Qmult_0_l. reflexivity.
Qed.

(** C10, as the code has it.  Within one call of [evaluate_tests] every
    iteration of the fault-injection loop gets the same mutated text; if
    moreover the sandboxes of the iterations all end the same way (the same
    exit status, or all fail before the suite returns one), the
    bug-detection rate reported is 0 or 100. *)
Theorem one_mutant_per_evaluation (o : surroundings)
    (project_root_dir code tests : string) (test_spec : test_specifications)
    (num_fault_injections : Z) (w w' : storage * rng) (r : Results) :
  evaluate_tests o project_root_dir code tests test_spec num_fault_injections w
    = (Ok r, w') ->
  let atts := attempts o project_root_dir code tests test_spec num_fault_injections w.2 in
  (∀ a b, a ∈ atts -> b ∈ atts -> rendered a = rendered b)
  ∧ ((∀ a b, a ∈ atts -> b ∈ atts -> exit_status a = exit_status b) ->
     (bug_detection_rate r == 0 ∨ bug_detection_rate r == 100)%Q).
Proof.
  intros Hrun atts. split.
  - intros a b Ha Hb. subst atts. unfold attempts in *.
    apply list_elem_of_fmap in Ha as (i & -> & _), Hb as (j & -> & _).
    cbn [attempt_at rendered]. unfold mutant_at.
    by rewrite (fault_injector_facts.inject_simple_fault_generator code 1
                  (generator_at code w.2 i) (generator_at code w.2 j)).
  - intros Hsame. rewrite (evaluate_tests_returns _ _ _ _ _ _ _ _ _ Hrun).
    by apply rate_zero_or_hundred.
Qed.

End with_runtime.
End fitness_evaluator_facts.

(** ** The evolution loop *)
Module evolution_facts.
Import testing_env fitness_evaluator evolution_orchestrator.

#[local] Arguments evaluate_tests : simpl never.

#[local] Instance advances_refl : Reflexive advances.
Proof. intros s. unfold advances. by left. Qed.
#[local] Instance advances_trans : Transitive advances.
Proof.
  unfold advances, best_total. intros a b c [Hab|Hab] [Hbc|Hbc].
  - left. congruence.
  - right. by rewrite <- Hab.
  - right. by rewrite Hbc.
  - right. eapply Qlt_trans; eassumption.
Qed.

Lemma advances_le s s' : advances s s' -> (best_total s <= best_total s')%Q.
Proof.
  unfold advances, best_total. intros [->|Hlt]; [apply Qle_refl|by apply Qlt_le_weak].
Qed.

Section with_runtime.
Context `{Runtime}.

#[local] Instance advancing_refl : Reflexive advancing.
Proof. intros st. unfold advancing. reflexivity. Qed.
#[local] Instance advancing_trans : Transitive advancing.
Proof. intros a b c. unfold advancing. apply advances_trans. Qed.

Lemma save_generation_data_advancing gen tests fitness status :
  keeps advancing (_save_generation_data gen tests fitness status).
Proof. apply keeps_modify. intros st. by left. Qed.

(** Elitism: a generation leaves the best suite as it was or replaces it
    by one with a strictly greater total score. *)
Lemma next_generation_advancing c root code spec gen :
  keeps advancing (next_generation c root code spec gen).
Proof.
  unfold next_generation.
  apply keeps_bind; [apply _..|apply keeps_gets; apply _|]. intros best.
  apply keeps_bind; [apply _..| |].
  { apply keeps_try_except; [apply _..| |].
    - apply keeps_bind; [apply _..| |intros ?; apply keeps_ret; apply _].
      intros st. unfold call_generator. cbn. reflexivity.
    - intros e. apply keeps_bind; [apply _..|apply save_generation_data_advancing|].
      intros ?. apply keeps_ret; apply _. }
  intros [candidate_tests|]; [|apply keeps_ret; apply _].
  apply keeps_bind; [apply _..| |].
  { intros st. unfold zoom_snd. destruct (evaluate_tests _ _ _ _ _ _ _). unfold advancing. cbn. reflexivity. }
  intros candidate_fitness. intros st. st_simpl.
  unfold get_total_score. destruct (current_best_fitness st.1) as [b|] eqn:Hbest;
    st_simpl; [|reflexivity].
  destruct (Qlt_le_dec _ _) as [Hlt|Hle]; unfold set_best, _save_generation_data;
    st_simpl; unfold advancing, advances, best_total; cbn.
  - right. by rewrite Hbest.
  - by left.
Qed.

(** Generation 0: the suite of the generator becomes the best suite,
    whatever its score. *)
Lemma initial_generation_best c root code spec st st' :
  initial_generation c root code spec st = (Ok tt, st') ->
  ∃ tests fitness w',
    generate_tests c 0 None = Ok tests
    ∧ evaluate_tests (evaluation c 0) root code tests spec 3 st.2 = (Ok fitness, w')
    ∧ current_best_tests st'.1 = Some tests
    ∧ current_best_fitness st'.1 = Some fitness.
Proof.
  unfold initial_generation, call_generator, zoom_snd. st_simpl.
  destruct (generate_tests c 0 None) as [tests|e]; [|done]. st_simpl.
  destruct (evaluate_tests _ _ _ _ _ _ _) as [[fitness|e] w'] eqn:Heval; [|done].
  unfold set_best, _save_generation_data. st_simpl. intros [= <-].
  by exists tests, fitness, w'.
Qed.

Lemma generations_advancing c root code spec gens :
  keeps advancing (for_each gens (next_generation c root code spec)).
Proof. apply keeps_for_each; [apply _..|]. intros gen. apply next_generation_advancing. Qed.

(** C3.  The best total score is non-decreasing over the generations of a
    run: if the run of generations 0..j completes, so does the run of
    generations 0..i for every [i <= j], and the best score held after
    generation i is at most the best score held after generation j;
    between the two the best suite either stayed the same or was replaced
    by one with a strictly greater total score. *)
Theorem best_score_never_decreases (c : collaborators) (project_root_dir code : string)
    (spec : test_specifications) (i j : nat) (st st_j : state)
    (s_j : EvolutionOrchestrator) :
  (i <= j)%nat ->
  evolve_tests c project_root_dir code spec (Z.of_nat j) st = (Ok s_j, st_j) ->
  ∃ s_i st_i,
    evolve_tests c project_root_dir code spec (Z.of_nat i) st = (Ok s_i, st_i)
    ∧ (best_total s_i <= best_total s_j)%Q
    ∧ advances s_i s_j.
Proof.
  intros Hij. unfold evolve_tests. rewrite !Nat2Z.id.
  assert (seq 1 j = seq 1 i ++ seq (1 + i) (j - i)) as ->
    by (rewrite <- seq_app; f_equal; lia).
  rewrite !bind_run.
  destruct (initial_generation c project_root_dir code spec st) as [[[]|e] st1]; [|done].
  rewrite ?bind_run. rewrite for_each_app. rewrite ?bind_run.
  destruct (for_each (seq 1 i) _ st1) as [[[]|e] st2]; [|done].
  pose proof (generations_advancing c project_root_dir code spec
                (seq (1 + i) (j - i)) st2) as Hadv.
  rewrite ?bind_run.
  destruct (for_each (seq (1 + i) (j - i)) _ st2) as [[[]|e] st3]; [|done].
  cbn in Hadv |- *. intros [= <- <-].
  eexists _, _. split; [done|]. split; [by apply advances_le|done].
Qed.


End with_runtime.
End evolution_facts.

(** ** More on the fault injector *)
Module fault_injector_more.
Import ast fault_injector fault_injector_relations fault_injector_facts.

#[local] Instance records_locations_refl : Reflexive records_locations.
Proof.
  intros o. repeat split. exists []. split; [by rewrite app_nil_r|constructor].
Qed.
#[local] Instance records_locations_trans : Transitive records_locations.
Proof.
  intros a b c (Hn & Ht & Hf & l1 & Hl1 & Hall1) (Hn' & Ht' & Hf' & l2 & Hl2 & Hall2).
  split; [congruence|]. split; [congruence|]. split; [congruence|].
  exists (l1 ++ l2). split.
  - by rewrite Hl2, Hl1, app_assoc.
  - apply Forall_app. split; [done|]. by rewrite <- Hn.
Qed.

Lemma visit_records depth : ∀ node, keeps records_locations (visit depth node).
Proof.
  induction depth as [|depth IH]; intros node o; cbn [visit].
  - cbn. reflexivity.
  - st_simpl.
    destruct (from_option is_fault_location false (nodes o !! node)) eqn:Hloc; st_simpl.
    + etrans; [|apply (keeps_for_each records_locations); exact IH].
      repeat split. exists [node]. split; [done|]. by apply Forall_singleton.
    + apply (keeps_for_each records_locations). exact IH.
Qed.

Section with_runtime.
Context `{Runtime}.

#[local] Arguments mutate : simpl never.

#[local] Instance same_self_refl : Reflexive same_self.
Proof. by intros st. Qed.
#[local] Instance same_self_trans : Transitive same_self.
Proof. unfold same_self. intros a b c. congruence. Qed.

Lemma random_choice_same_self {A} (seq : list A) : keeps same_self (random_choice seq).
Proof.
  intros st. unfold random_choice. destruct seq; [reflexivity|].
  destruct (randbelow _ _) as [i g]. by destruct (_ !! i).
Qed.

Ltac self_step :=
  first
    [ apply keeps_bind; [apply _ | | intros ?]
    | apply keeps_ret; apply _
    | apply keeps_gets; apply _
    | apply keeps_modify; intros ?; reflexivity
    | apply random_choice_same_self
    | (intros ?; unfold new_node, alloc; cbn; reflexivity) ].

(** A mutation assigns to nodes only: the injector object is as it was. *)
Lemma mutate_same_self l : keeps same_self (mutate l).
Proof.
  unfold mutate, _mutate_binop, _mutate_compare, _mutate_boolop,
    _mutate_if_condition, _mutate_return_value, get_node, set_node.
  repeat first [self_step | case_match].
Qed.

#[local] Instance within_budget_refl : Reflexive within_budget.
Proof. intros st. unfold within_budget. repeat split; [lia|done]. Qed.
#[local] Instance within_budget_trans : Transitive within_budget.
Proof.
  unfold within_budget. intros a b c (Ht & Hle & Hin) (Ht' & Hle' & Hin').
  split; [congruence|]. split; [lia|]. intros Ha. apply Hin', Hin, Ha.
Qed.

Lemma walk_loop_within_budget locations_to_fault : ∀ pending todo,
  keeps within_budget (walk_loop pending todo locations_to_fault).
Proof.
  induction pending as [|p IH]; intros todo st; [reflexivity|].
  destruct todo as [|node todo]; [reflexivity|].
  cbn [walk_loop]. st_simpl.
  case_match eqn:Hcond; [|apply IH].
  apply andb_true_iff in Hcond as [_ Hlt%bool_decide_eq_true].
  pose proof (mutate_same_self node st) as Hself. rewrite !bind_run.
  destruct (mutate node st) as [[[]|e] st1]; cbn [snd] in Hself.
  2:{ cbn. unfold within_budget. rewrite Hself. repeat split; [lia|done]. }
  st_simpl.
  assert (within_budget st
            (set_self (set_faults_injected (faults_injected (self st1.1) + 1)) st1.1,
             st1.2)) as Hstep.
  { unfold within_budget. cbn. rewrite Hself. repeat split; lia. }
  case_match; [exact Hstep|]. etrans; [exact Hstep|]. apply IH.
Qed.

#[local] Instance leaves_immutable_refl : Reflexive leaves_immutable.
Proof. by intros st x n. Qed.
#[local] Instance leaves_immutable_trans : Transitive leaves_immutable.
Proof. intros a b c Hab Hbc x n Hx Hn. eapply Hbc; [|done]. by eapply Hab. Qed.

(** On an object that no method changes, and on an identity that is not
    in the store, [mutate] does nothing. *)
Lemma mutate_immutable l (st : state) :
  from_option mutable false (nodes st.1 !! l) = false -> mutate l st = (Ok tt, st).
Proof.
  unfold mutate, _mutate_compare, _mutate_return_value, get_node. st_simpl.
  destruct (nodes st.1 !! l) as [n|] eqn:Hl; [|done]. cbn.
  destruct n as [|? [|] ?| | | | |[]| |]; try done; st_simpl; by rewrite Hl.
Qed.

Lemma mutate_leaves_immutable l : keeps leaves_immutable (mutate l).
Proof.
  intros st x n Hx Hn. destruct (decide (x = l)) as [->|Hne].
  - rewrite mutate_immutable; [done|]. by rewrite Hx.
  - rewrite <- Hx. apply (mutate_leaves l st); [done|by eexists].
Qed.

Lemma walk_loop_leaves_immutable locations_to_fault : ∀ pending todo,
  keeps leaves_immutable (walk_loop pending todo locations_to_fault).
Proof.
  induction pending as [|p IH]; intros todo st; [reflexivity|].
  destruct todo as [|node todo]; [reflexivity|].
  cbn [walk_loop]. st_simpl.
  case_match eqn:Hcond; [|apply IH].
  pose proof (mutate_leaves_immutable node st) as Hleaves. rewrite !bind_run.
  destruct (mutate node st) as [[[]|e] st1]; cbn [snd] in Hleaves; [|done].
  st_simpl.
  assert (leaves_immutable st
            (set_self (set_faults_injected (faults_injected (self st1.1) + 1)) st1.1,
             st1.2)) as Hstep by exact Hleaves.
  case_match; [exact Hstep|]. etrans; [exact Hstep|]. apply IH.
Qed.

(** Where no object can be changed, the walk leaves the store as it is. *)
Lemma walk_loop_nothing_mutable locations_to_fault : ∀ pending todo (st : state),
  (∀ l n, nodes st.1 !! l = Some n -> mutable n = false) ->
  nodes (walk_loop pending todo locations_to_fault st).2.1 = nodes st.1.
Proof.
  induction pending as [|p IH]; intros todo st Hnone; [done|].
  destruct todo as [|node todo]; [done|].
  cbn [walk_loop]. st_simpl.
  case_match eqn:Hcond; [|by apply IH].
  rewrite !bind_run. rewrite mutate_immutable.
  2:{ destruct (nodes st.1 !! node) as [n|] eqn:Hn; [|done]. cbn. by eapply Hnone. }
  st_simpl. case_match; [done|]. by rewrite IH.
Qed.

(** With its budget used up the walk changes nothing. *)
Lemma walk_loop_no_budget locations_to_fault : ∀ pending todo (st : state),
  target_fault_count (self st.1) <= faults_injected (self st.1) ->
  walk_loop pending todo locations_to_fault st = (Ok tt, st).
Proof.
  induction pending as [|p IH]; intros todo st Hfull; [done|].
  destruct todo as [|node todo]; [done|].
  cbn [walk_loop]. st_simpl.
  rewrite (bool_decide_false (faults_injected _ < _)) by lia.
  rewrite andb_false_r. by apply IH.
Qed.

(** X1.  When [inject_faults] returns, on an injector made for a
    non-negative number of faults, it returns the tree it was given, and
    the number of faults it has counted lies between 0 and the number
    requested. *)
Theorem faults_within_request (tree : loc) (h : heap) (num_faults : Z) (g : rng)
    (mutated_tree : loc) (st : state) :
  0 <= num_faults ->
  inject_faults tree ({| self := __init__ num_faults; nodes := h |}, g)
    = (Ok mutated_tree, st) ->
  mutated_tree = tree
  ∧ target_fault_count (self st.1) = num_faults
  ∧ 0 <= faults_injected (self st.1) <= num_faults.
Proof.
  intros Hn. unfold inject_faults. rewrite bind_run. unfold zoom_fst. cbn [fst snd].
  pose proof (visit_records recursion_limit tree
                {| self := __init__ num_faults; nodes := h |}) as (_ & Ht & Hf & _).
  destruct (visit _ _ _) as [[[]|e] o1]; [|done]. cbn [snd] in Ht, Hf. cbn in Ht, Hf.
  st_simpl. destruct (possible_fault_locations (self o1)) as [|l ls] eqn:Hlocs.
  { intros [= <- <-]. cbn. rewrite Ht, Hf. repeat split; lia. }
  unfold random_seed, random_sample. st_simpl.
  case_bool_decide; [done|]. destruct (sample _ _ _) as [chosen g1]. st_simpl.
  unfold _inject_faults_in_tree. st_simpl.
  match goal with |- context [walk_loop ?p ?todo ?sel ?s] =>
    pose proof (walk_loop_within_budget sel p todo s) as (Ht' & Hle & Hin);
    destruct (walk_loop p todo sel s) as [[[]|e] st2]; [|done] end.
  cbn in Ht', Hle, Hin. intros [= <- <-]. split; [done|].
  rewrite Ht' in *. rewrite Ht in *. split; [done|]. split; [lia|]. apply Hin. lia.
Qed.

(** Nothing is changed when no fault is requested. *)
Lemma inject_faults_nothing_requested (tree : loc) (o : objects) (g : rng) :
  target_fault_count (self o) <= 0 ->
  nodes (inject_faults tree (o, g)).2.1 = nodes o.
Proof.
  intros Hn. unfold inject_faults. rewrite bind_run. unfold zoom_fst. cbn [fst snd].
  pose proof (visit_records recursion_limit tree o) as (Hnodes & Ht & _).
  destruct (visit _ _ _) as [[[]|e] o1]; [|done]. cbn [snd] in Hnodes, Ht.
  st_simpl. destruct (possible_fault_locations (self o1)) as [|l ls] eqn:Hlocs; [done|].
  unfold random_seed, random_sample. st_simpl.
  case_bool_decide; [done|]. destruct (sample _ _ _) as [chosen g1]. st_simpl.
  unfold _inject_faults_in_tree. st_simpl.
  rewrite walk_loop_no_budget; [done|]. cbn. lia.
Qed.

(** [inject_faults] returns the tree it was given, if it returns. *)
Lemma inject_faults_result (tree : loc) (st : state) :
  (inject_faults tree st).1 = Ok tree ∨ ∃ e, (inject_faults tree st).1 = Raise e.
Proof.
  unfold inject_faults. rewrite bind_run.
  destruct (zoom_fst _ _) as [[[]|e] s1]; [|right; by eexists]. st_simpl.
  destruct (possible_fault_locations _); [by left|].
  unfold random_seed, random_sample. st_simpl.
  case_bool_decide; [right; by eexists|]. destruct (sample _ _ _). st_simpl.
  destruct (_inject_faults_in_tree _ _ _) as [[[]|e] s2]; [by left|right; by eexists].
Qed.

(** What [inject_simple_fault] returns when the injector left the store
    as the parser made it. *)
Lemma inject_simple_fault_unchanged (code : string) (num_faults : Z) (g : rng)
    (h : heap) (tree : loc) :
  parse code = Ok (h, tree) ->
  nodes (inject_faults tree ({| self := __init__ num_faults; nodes := h |}, g)).2.1 = h ->
  (inject_simple_fault code num_faults g).1 = Ok code
  ∨ (inject_simple_fault code num_faults g).1 = unparse h tree.
Proof.
  intros Hparse Hnodes. unfold inject_simple_fault, try_except. rewrite Hparse.
  pose proof (inject_faults_result tree
                ({| self := __init__ num_faults; nodes := h |}, g)) as Hres.
  destruct (inject_faults tree _) as [r st]. cbn in Hnodes, Hres.
  destruct Hres as [->|[e ->]]; [|by left]. rewrite Hnodes.
  destruct (unparse h tree); [by right|by left].
Qed.

(** When no fault is requested, the code comes back as the parser and
    the renderer make it. *)
Lemma no_fault_requested (code : string) (num_faults : Z) (g : rng)
    (h : heap) (tree : loc) :
  num_faults <= 0 ->
  parse code = Ok (h, tree) ->
  (inject_simple_fault code num_faults g).1 = Ok code
  ∨ (inject_simple_fault code num_faults g).1 = unparse h tree.
Proof.
  intros Hn Hparse. apply inject_simple_fault_unchanged; [done|].
  by apply (inject_faults_nothing_requested tree
              {| self := __init__ num_faults; nodes := h |} g).
Qed.

(** X3.  On code without any fault location, [inject_simple_fault]
    leaves the random generator as it was, and returns the code as the
    renderer gives the parsed tree back (the code itself, if that
    fails). *)
Theorem without_fault_location (code : string) (num_faults : Z) (g : rng)
    (h : heap) (tree : loc) :
  parse code = Ok (h, tree) ->
  (∀ l node, h !! l = Some node -> is_fault_location node = false) ->
  (inject_simple_fault code num_faults g).2 = g
  ∧ ((inject_simple_fault code num_faults g).1 = Ok code
     ∨ (inject_simple_fault code num_faults g).1 = unparse h tree).
Proof.
  intros Hparse Hnone. unfold inject_simple_fault, try_except. rewrite Hparse.
  unfold inject_faults. rewrite bind_run. unfold zoom_fst. cbn [fst snd].
  pose proof (visit_records recursion_limit tree
                {| self := __init__ num_faults; nodes := h |})
    as (Hnodes & _ & _ & found & Hfound & Hall).
  destruct (visit _ _ _) as [[[]|e] o1]; [|by split; [|left]].
  cbn [snd] in Hnodes, Hfound. cbn in Hnodes, Hfound, Hall.
  destruct found as [|l found].
  - st_simpl. rewrite Hfound. st_simpl. rewrite Hnodes.
    destruct (unparse h tree); (split; [done|]); [by right|by left].
  - apply Forall_cons in Hall as [Hl _].
    destruct (h !! l) as [node|] eqn:Hlook; [|done].
    cbn in Hl. by rewrite (Hnone l node Hlook) in Hl.
Qed.

(** With one fault to inject, at an object that no method changes, the
    walk of a forest that holds the object counts the fault and leaves
    everything else as it is. *)
Lemma walk_loop_counts (l : loc) : ∀ pending ts (st : state),
  Forall (shaped (nodes st.1)) ts ->
  NoDup (flat_map nodes_of ts) ->
  (length (flat_map nodes_of ts) <= pending)%nat ->
  l ∈ flat_map nodes_of ts ->
  from_option mutable false (nodes st.1 !! l) = false ->
  faults_injected (self st.1) = 0 ->
  target_fault_count (self st.1) = 1 ->
  walk_loop pending (map root ts) [l] st
  = (Ok tt, (set_self (set_faults_injected 1) st.1, st.2)).
Proof.
  induction pending as [|p IH]; intros ts st Hall Hnodup Hlen Hl Himm Hf Ht.
  { destruct ts as [|[x cs] ts]; [by apply elem_of_nil in Hl|cbn in Hlen; lia]. }
  destruct ts as [|[x cs] ts]; [by apply elem_of_nil in Hl|].
  cbn [map root walk_loop]. st_simpl. rewrite Hf, Ht.
  rewrite (bool_decide_true (0 < 1)) by lia. rewrite andb_true_r.
  destruct (queue_step (nodes st.1) (nodes st.1) x cs ts Hall Hnodup)
    as (Hchildren & Hall' & Hnodup' & Hlen'); [done|].
  case_bool_decide as Hx.
  - apply list_elem_of_singleton in Hx as ->.
    rewrite !bind_run. rewrite mutate_immutable by done.
    st_simpl. rewrite Hf, Ht. by rewrite bool_decide_true.
  - rewrite Hchildren, <- map_app. apply IH; try done.
    + lia.
    + cbn in Hl. apply elem_of_cons in Hl as [->|Hl].
      * exfalso. apply Hx. by apply list_elem_of_singleton.
      * rewrite flat_map_app. apply elem_of_app. apply elem_of_app in Hl. tauto.
Qed.

(** X2.  [inject_faults] changes no object that no mutation method
    changes: a node that is neither a binary operation, a comparison with
    an operator, a Boolean operation, an [if] statement nor a [return] with
    a value is the same after the call, whether the call returns or raises
    and whatever the random generator draws.  And a [while] statement
    counts as an injected fault without being changed: when one fault is
    requested on a tree and [random.sample] picks a [while] statement of
    the tree among the locations found, [inject_faults] returns with one
    fault counted and every object as it was. *)
Theorem only_mutable_nodes_change (tree : loc) (o : objects) (g : rng) :
  (∀ x node,
     nodes o !! x = Some node -> mutable node = false ->
     nodes (inject_faults tree (o, g)).2.1 !! x = Some node)
  ∧ (∀ s l test body orelse st',
       root s = tree -> shaped (nodes o) s -> NoDup (nodes_of s) ->
       l ∈ nodes_of s ->
       nodes o !! l = Some (While test body orelse) ->
       target_fault_count (self o) = 1 ->
       let found := possible_fault_locations (self (visit recursion_limit tree o).2) in
       l ∈ found ->
       (sample (seed 0) found 1).1 = [l] ->
       inject_faults tree (o, g) = (Ok tree, st') ->
       faults_injected (self st'.1) = 1 ∧ nodes st'.1 = nodes o).
Proof.
  split.
  - intros x node Hx Hclass. unfold inject_faults. rewrite bind_run.
    unfold zoom_fst. cbn [fst snd].
    pose proof (visit_records recursion_limit tree o) as (Hnodes & _).
    destruct (visit _ _ _) as [[[]|e] o1]; cbn [snd] in Hnodes;
      [|cbn; by rewrite Hnodes].
    st_simpl. destruct (possible_fault_locations (self o1)) as [|l ls] eqn:Hlocs.
    { cbn. by rewrite Hnodes. }
    unfold random_seed, random_sample. st_simpl.
    case_bool_decide; [cbn; by rewrite Hnodes|].
    destruct (sample _ _ _) as [chosen g1]. st_simpl.
    unfold _inject_faults_in_tree. st_simpl.
    match goal with |- context [walk_loop ?p ?todo ?sel ?s] =>
      pose proof (walk_loop_leaves_immutable sel p todo s x node) as Hleaves end.
    cbn in Hleaves. rewrite ?bind_run.
    destruct (walk_loop _ _ _ _) as [[[]|e] st2]; cbn in Hleaves |- *;
      apply Hleaves; by rewrite ?Hnodes.
  - intros s l test body orelse st' Hroot Hs Hnodup Hl Hwhile Htarget found Hfound Hsample.
    subst found. unfold inject_faults. rewrite bind_run. unfold zoom_fst. cbn [fst snd].
    pose proof (visit_records recursion_limit tree o) as (Hnodes & Ht & _).
    destruct (visit _ _ _) as [[[]|e] o1]; [|done].
    cbn [snd] in Hnodes, Ht, Hsample, Hfound.
    st_simpl.
    destruct (possible_fault_locations (self o1)) as [|l0 ls] eqn:Hlocs.
    { by apply elem_of_nil in Hfound. }
    unfold random_seed, random_sample. st_simpl. rewrite Ht, Htarget.
    assert (Z.min 1 (Z.of_nat (S (length ls))) = 1) as -> by lia.
    rewrite bool_decide_false by lia.
    change (Z.to_nat 1) with 1%nat.
    destruct (sample _ _ _) as [chosen g1]. cbn [fst] in Hsample. subst chosen.
    st_simpl. unfold _inject_faults_in_tree. st_simpl.
    rewrite <- Hroot. change [root s] with (map root [s]).
    match goal with |- context [walk_loop ?p _ _ ?st0] =>
      rewrite (walk_loop_counts l p [s] st0) end.
    + intros [= <-]. cbn. by rewrite Hnodes.
    + apply Forall_singleton. cbn. by rewrite Hnodes.
    + cbn. by rewrite app_nil_r.
    + cbn. rewrite app_nil_r, Hnodes. rewrite <- size_dom.
      rewrite <- (size_list_to_set (C := gset loc) (nodes_of s)) by done.
      apply subseteq_size. intros x Hx%elem_of_list_to_set.
      apply elem_of_dom. by eapply shaped_dom.
    + cbn. by rewrite app_nil_r.
    + cbn. by rewrite Hnodes, Hwhile.
    + done.
    + cbn. by rewrite Ht.
Qed.

(** X4.  On code none of whose nodes a mutation method changes, for
    instance a function whose only fault locations are [while] statements
    and bare [return]s, [inject_simple_fault] returns the rendering of the
    unchanged tree (the code itself, on a failure), however many faults are
    requested. *)
Theorem nothing_mutable_no_mutant (code : string) (num_faults : Z) (g : rng)
    (h : heap) (tree : loc) :
  parse code = Ok (h, tree) ->
  (∀ l node, h !! l = Some node -> mutable node = false) ->
  (inject_simple_fault code num_faults g).1 = Ok code
  ∨ (inject_simple_fault code num_faults g).1 = unparse h tree.
Proof.
  intros Hparse Hnone. apply inject_simple_fault_unchanged; [done|].
  unfold inject_faults. rewrite bind_run. unfold zoom_fst. cbn [fst snd].
  pose proof (visit_records recursion_limit tree
                {| self := __init__ num_faults; nodes := h |}) as (Hnodes & _).
  destruct (visit _ _ _) as [[[]|e] o1]; cbn [snd] in Hnodes; [|done].
  cbn in Hnodes. st_simpl.
  destruct (possible_fault_locations (self o1)) as [|l ls] eqn:Hlocs; [done|].
  unfold random_seed, random_sample. st_simpl.
  case_bool_decide; [done|]. destruct (sample _ _ _) as [chosen g1]. st_simpl.
  unfold _inject_faults_in_tree. st_simpl.
  match goal with |- context [walk_loop ?p ?todo ?sel ?s] =>
    pose proof (walk_loop_nothing_mutable sel p todo s) as Hwalk end.
  cbn in Hwalk. rewrite ?bind_run.
  destruct (walk_loop _ _ _ _) as [[[]|e] st2]; cbn in Hwalk |- *;
    (rewrite Hwalk; [done|]); by rewrite Hnodes.
Qed.

#[local] Arguments filter : simpl never.
#[local] Arguments list_filter : simpl never.

(** What [random.choice] returns is a member of the sequence. *)
Lemma random_choice_member {A} (seq : list A) (st st' : state) (x : A) :
  random_choice seq st = (Ok x, st') -> x ∈ seq ∧ st'.1 = st.1.
Proof.
  unfold random_choice. destruct seq as [|a seq]; [done|].
  destruct (randbelow _ _) as [i g].
  destruct (_ !! i) as [y|] eqn:Hi; [|done]. intros [= <- <-].
  split; [|done]. by eapply list_elem_of_lookup_2.
Qed.

(** X5.  When [_mutate_binop] returns on a binary operation, the
    node has an operator among [+], [-], [*], [/], [%] that differs from
    the one it had, its operands are the same, and no other object has
    changed. *)
Theorem binop_mutation_changes_operator (l lhs rhs : loc) (op : operator)
    (st st' : state) :
  nodes st.1 !! l = Some (BinOp lhs op rhs) ->
  _mutate_binop l st = (Ok tt, st') ->
  ∃ new_op,
    nodes st'.1 !! l = Some (BinOp lhs new_op rhs)
    ∧ new_op ≠ op
    ∧ new_op ∈ [Add; Sub; Mult; Div; Mod]
    ∧ ∀ x, x ≠ l -> nodes st'.1 !! x = nodes st.1 !! x.
Proof.
  intros Hl. unfold _mutate_binop, get_node, set_node. st_simpl. rewrite Hl.
  rewrite bind_run.
  destruct (random_choice _ st) as [[new_op|e] st1] eqn:Hchoice; [|done].
  apply random_choice_member in Hchoice as [Hin Hst]. st_simpl. intros [= <-].
  apply list_elem_of_filter in Hin as [Hne Hin].
  exists new_op. cbn. rewrite Hst. rewrite lookup_insert_eq.
  split; [done|]. split; [done|]. split; [done|].
  intros x Hx. by rewrite lookup_insert_ne.
Qed.

(** X6.  When [_mutate_compare] returns on a comparison, the first
    operator of the node is one of [==], [!=], [<], [<=], [>], [>=] that
    differs from the one it was, the other operators and the operands are
    the same, and no other object has changed; a comparison without
    operator is left as it is. *)
Theorem compare_mutation_changes_first_operator (l lhs : loc) (ops : list cmpop)
    (comparators : list loc) (st st' : state) :
  nodes st.1 !! l = Some (Compare lhs ops comparators) ->
  _mutate_compare l st = (Ok tt, st') ->
  match ops with
  | [] => st' = st
  | current :: others =>
    ∃ new_comp,
      nodes st'.1 !! l = Some (Compare lhs (new_comp :: others) comparators)
      ∧ new_comp ≠ current
      ∧ new_comp ∈ [Eq; NotEq; Lt; LtE; Gt; GtE]
      ∧ ∀ x, x ≠ l -> nodes st'.1 !! x = nodes st.1 !! x
  end.
Proof.
  intros Hl. unfold _mutate_compare, get_node, set_node. st_simpl. rewrite Hl.
  destruct ops as [|current others]; st_simpl; [by intros [= <-]|].
  destruct (random_choice _ st) as [[new_comp|e] st1] eqn:Hchoice; [|done].
  apply random_choice_member in Hchoice as [Hin Hst]. st_simpl. intros [= <-].
  apply list_elem_of_filter in Hin as [Hne Hin].
  exists new_comp. cbn. rewrite Hst. rewrite lookup_insert_eq.
  split; [done|]. split; [done|]. split; [done|].
  intros x Hx. by rewrite lookup_insert_ne.
Qed.

(** X7.  When [_mutate_boolop] returns on a Boolean operation, [and]
    has become [or] and [or] has become [and], whatever the random
    generator draws; the operands are the same and no other object has
    changed. *)
Theorem boolop_mutation_swaps (l : loc) (op : boolop) (values : list loc)
    (st st' : state) :
  nodes st.1 !! l = Some (BoolOp op values) ->
  _mutate_boolop l st = (Ok tt, st') ->
  nodes st'.1 !! l
  = Some (BoolOp (match op with And => Or | Or => And end) values)
  ∧ ∀ x, x ≠ l -> nodes st'.1 !! x = nodes st.1 !! x.
Proof.
  intros Hl. unfold _mutate_boolop, get_node, set_node. st_simpl. rewrite Hl.
  rewrite bind_run.
  destruct (random_choice _ st) as [[new_op|e] st1] eqn:Hchoice; [|done].
  apply random_choice_member in Hchoice as [Hin Hst]. st_simpl. intros [= <-].
  cbn. rewrite Hst. rewrite lookup_insert_eq. split.
  - destruct op; cbn in Hin; apply list_elem_of_singleton in Hin; by subst.
  - intros x Hx. by rewrite lookup_insert_ne.
Qed.

(** X8.  [_mutate_if_condition] applied twice to an [if] statement
    whose condition is not a negation returns, and puts the condition back:
    the node is as it was, and so is every object that was in the
    store. *)
Theorem if_mutation_twice (l test : loc) (body orelse : list loc) (st : state) :
  nodes st.1 !! l = Some (If test body orelse) ->
  (∀ operand, nodes st.1 !! test ≠ Some (UnaryOp Not operand)) ->
  ∃ st',
    (_mutate_if_condition l ;; _mutate_if_condition l) st = (Ok tt, st')
    ∧ nodes st'.1 !! l = Some (If test body orelse)
    ∧ ∀ x, is_Some (nodes st.1 !! x) -> nodes st'.1 !! x = nodes st.1 !! x.
Proof.
  intros Hl Htest. rewrite bind_run.
  set (h := nodes st.1) in *.
  set (negated := fresh (dom h)).
  assert (h !! negated = None) as Hfresh.
  { apply not_elem_of_dom. apply is_fresh. }
  assert (negated ≠ l) as Hne by (intros Heq; rewrite Heq, Hl in Hfresh; done).
  assert (_mutate_if_condition l st
          = (Ok tt, (set_nodes (fun _ => <[l := If negated body orelse]>
                                           (<[negated := UnaryOp Not test]> h)) st.1,
                     st.2))) as ->.
  { unfold _mutate_if_condition, get_node, set_node, new_node, alloc. st_simpl.
    fold h. rewrite Hl. st_simpl. fold h.
    destruct (h !! test) as [[]|] eqn:Ht; st_simpl; try done.
    destruct op; st_simpl; try done. by destruct (Htest operand). }
  unfold _mutate_if_condition, get_node, set_node. st_simpl.
  rewrite lookup_insert_eq. st_simpl.
  rewrite lookup_insert_ne by done. rewrite lookup_insert_eq. st_simpl.
  eexists. split; [done|]. cbn. rewrite lookup_insert_eq. split; [done|].
  intros x Hx. destruct (decide (x = l)) as [->|Hxl].
  - by rewrite lookup_insert_eq.
  - rewrite !lookup_insert_ne by done.
    rewrite lookup_insert_ne; [done|]. intros <-. rewrite Hfresh in Hx. by destruct Hx.
Qed.

End with_runtime.
End fault_injector_more.

(** ** More on numbers *)
Module py_more.

Lemma round_half_even_le (q : Q) (n : Z) :
  (q <= inject_Z n)%Q -> py.round_half_even q <= n.
Proof.
  intros Hq. unfold py.round_half_even.
  pose proof (Qfloor_le q) as Hfloor.
  assert (Qfloor q <= n) as Hle.
  { rewrite Zle_Qle. eapply Qle_trans; eassumption. }
  destruct (decide (Qfloor q = n)) as [Heq|Hne].
  - assert ((q - inject_Z (Qfloor q) ?= 1 # 2)%Q = Lt) as ->; [|lia].
    apply Qlt_alt. rewrite Heq.
    assert (q - inject_Z n <= 0)%Q by lra.
    eapply Qle_lt_trans; [eassumption|reflexivity].
  - destruct (_ ?= _)%Q; [destruct (Z.even _)|..]; lia.
Qed.

Lemma round2_le_100 (q : Q) : (q <= 100)%Q -> (py.round2 q <= 100)%Q.
Proof.
  intros Hq. unfold py.round2.
  assert (py.round_half_even (q * 100) <= 10000) as Hz.
  { apply round_half_even_le. change (inject_Z 10000) with (100 * 100)%Q. nra. }
  apply Qle_shift_div_r; [reflexivity|].
  change (100 * 100)%Q with (inject_Z 10000). by rewrite <- Zle_Qle.
Qed.

Lemma percentage_le_100 (c m : Z) :
  0 <= c -> 0 <= m -> 0 < c + m -> (inject_Z c / inject_Z (c + m) * 100 <= 100)%Q.
Proof.
  intros Hc Hm Ht.
  assert (0 < inject_Z (c + m))%Q by (change 0%Q with (inject_Z 0); by rewrite <- Zlt_Qlt).
  assert (inject_Z c <= inject_Z (c + m))%Q by (rewrite <- Zle_Qle; lia).
  assert (inject_Z c / inject_Z (c + m) <= 1)%Q.
  { apply Qle_shift_div_r; [done|]. by rewrite Qmult_1_l. }
  nra.
Qed.

End py_more.

(** ** More on the sandbox *)
Module testing_env_more.
Import testing_env testing_env_facts os_path.

Section with_runtime.
Context `{Runtime}.

Lemma read_report_le_100 text :
  counts_nonneg -> ((read_report text).1 <= 100)%Q.
Proof.
  intros Hwf. unfold read_report.
  destruct (json_load text) as [[c m]|e] eqn:Hload.
  - apply Hwf in Hload as [Hc Hm]. case_bool_decide; simpl; [|done].
    apply py_more.round2_le_100, py_more.percentage_le_100; lia.
  - destruct (exn_cls e); done.
Qed.

(** The coverage [get_coverage] returns is at most 100. *)
Lemma get_coverage_at_most_100 o self fs p raw fs' :
  counts_nonneg ->
  get_coverage o self fs = (Ok (p, raw), fs') -> (p <= 100)%Q.
Proof.
  intros Hwf. unfold get_coverage, attribute, run. st_simpl.
  destruct (source_file_path self); st_simpl; [|done].
  destruct (subprocess_run o ["coverage"; "erase"]); st_simpl; [|done].
  destruct (test_file_path self); st_simpl; [|done].
  destruct (subprocess_run o _) as [run_result|]; st_simpl; [|done].
  case_match; st_simpl. { intros [= <- _ _]. done. }
  destruct (subprocess_run o _) as [report_result|]; st_simpl; [|done].
  destruct (coverage_json_text o); st_simpl;
    (case_match; st_simpl; [intros [= <- _ _]; done|]);
    (case_match; st_simpl; [|intros [= <- _ _]; done]);
    intros [= Hr _];
    match type of Hr with read_report ?t = _ =>
      generalize (read_report_le_100 t Hwf); rewrite Hr; done end.
Qed.

(** X10.  The coverage [get_coverage] returns, when it returns, is
    a percentage: it lies between 0 and 100, provided the line counts of
    coverage reports are not negative. *)
Theorem coverage_is_a_percentage (o : sandbox) (self : TestingEnvironment)
    (fs fs' : storage) (percentage : Q) (raw : string) :
  counts_nonneg ->
  get_coverage o self fs = (Ok (percentage, raw), fs') ->
  (0 <= percentage <= 100)%Q.
Proof.
  intros Hwf Hrun. split.
  - by eapply get_coverage_nonneg.
  - by eapply get_coverage_at_most_100.
Qed.

End with_runtime.

(** A write that the storage accepts. *)
Lemma write_file_run (self : TestingEnvironment) (filename content : string)
    (fs : storage) :
  _write_file false self filename content fs
  = (Ok (py.path_join (run_dir self) filename),
     <[run_dir self := <[filename := content]> (default ∅ (fs !! run_dir self))]> fs).
Proof.
  unfold _write_file, makedirs. st_simpl.
  destruct (fs !! run_dir self) as [files|] eqn:Hdir; cbn.
  - by rewrite Hdir.
  - by rewrite lookup_insert_eq, insert_insert_eq.
Qed.

(** X9.  With plain file names and a storage that accepts the
    writes, [setup_environment] returns and records the two file names
    joined to the working directory.  The working directory then holds an
    empty [__init__.py]; the test code under the test file name, unless
    that name is [__init__.py]; the source code under the source file
    name, unless that name is the test file's or [__init__.py] (the later
    write wins); every other file as it was.  Nothing outside the working
    directory is changed. *)
Theorem setup_environment_files (o : sandbox) (self : TestingEnvironment)
    (source_code test_code source_filename test_filename : string) (fs : storage) :
  plain_file_name source_filename = true ->
  plain_file_name test_filename = true ->
  write_fault o = None ->
  ∃ fs' files,
    setup_environment o self source_code test_code source_filename test_filename fs
    = (Ok {| base_dir := base_dir self; run_dir := run_dir self;
             source_file_path := Some (py.path_join (run_dir self) source_filename);
             test_file_path := Some (py.path_join (run_dir self) test_filename) |}, fs')
    ∧ same_outside (run_dir self) fs fs'
    ∧ fs' !! run_dir self = Some files
    ∧ files !! "__init__.py" = Some ""
    ∧ (test_filename ≠ "__init__.py" -> files !! test_filename = Some test_code)
    ∧ (source_filename ≠ "__init__.py" -> source_filename ≠ test_filename ->
         files !! source_filename = Some source_code)
    ∧ ∀ name, name ≠ source_filename -> name ≠ test_filename ->
        name ≠ "__init__.py" ->
        files !! name = (fs !! run_dir self) ≫= (.!! name).
Proof.
  intros _ _ Hfault.
  pose proof (setup_environment_outside o self source_code test_code source_filename
                test_filename fs) as Hout.
  revert Hout. unfold setup_environment, is_fault.
  rewrite Hfault. rewrite !bool_decide_false by done.
  rewrite !bind_run, !write_file_run. cbn [fst snd].
  rewrite !bind_run, !write_file_run. cbn [fst snd].
  rewrite !bind_run, !write_file_run. cbn [fst snd].
  rewrite !bind_run, !write_file_run. cbn [fst snd mret ST_ret].
  intros Hout. eexists _, _. split; [reflexivity|]. split; [exact Hout|].
  split; [by rewrite lookup_insert_eq|].
  rewrite !lookup_insert_eq. cbn [default from_option]. unfold id.
  split; [by rewrite ?lookup_insert_eq|].
  split; [intros ?; rewrite !lookup_insert_ne by done; by rewrite lookup_insert_eq|].
  split; [intros ??; rewrite !lookup_insert_ne by done; by rewrite lookup_insert_eq|].
  intros name ???. rewrite !lookup_insert_ne by done. by destruct (fs !! run_dir self).
Qed.

End testing_env_more.

(** ** More on the evaluator *)
Module fitness_evaluator_more.
Import testing_env fitness_evaluator testing_env_facts detection
  fitness_evaluator_facts testing_env_more grading.

#[local] Arguments testing_env.__init__ : simpl never.
#[local] Arguments setup_environment : simpl never.
#[local] Arguments run_tests : simpl never.
#[local] Arguments get_coverage : simpl never.
#[local] Arguments cleanup : simpl never.
#[local] Arguments fault_injector.inject_simple_fault : simpl never.

Section with_runtime.
Context `{Runtime}.

Lemma evaluate_correct_graded o base code tests fw f f' :
  results f = initial_results ->
  evaluate_correct o base code tests fw f = (Ok tt, f') ->
  graded (sandbox_exit o base code tests "target_function.py" fw) (results f')
  ∧ (counts_nonneg -> (0 <= code_coverage_percentage (results f') <= 100)%Q).
Proof.
  destruct f as [rs0 db tot fs0 g]. cbn [results]. intros ->.
  unfold evaluate_correct. rewrite bind_run. unfold on_storage at 1.
  destruct (init_run o base fs0) as [fs1 Hrun]. cbn [fs]. rewrite Hrun.
  cbn [results detected_bugs total_faults_attempted random].
  set (d := py.path_join base (uuid4 o)) in *.
  set (env0 := {| base_dir := base; run_dir := d; source_file_path := None;
                  test_file_path := None |}).
  unfold try_finally, try_except.
  rewrite bind_run. unfold on_storage at 1. cbn [fs].
  rewrite (sandbox_exit_eq o base code tests "target_function.py" fw fs1 fs1).
  fold d env0.
  destruct (setup_environment o env0 _ _ _ _ fs1) as [[env|e] fs2] eqn:Hs;
    cbn [fst snd]; cbn [results detected_bugs total_faults_attempted random].
  2:{ unfold set_results, on_storage. st_simpl. rewrite cleanup_run. simpl.
      intros [= <-]. cbn. repeat split; done. }
  rewrite bind_run. unfold on_storage at 1. cbn [fs].
  rewrite (run_tests_result o env fw fs1 fs2).
  pose proof (run_tests_storage o env fw fs2) as Hrt.
  destruct (run_tests o env fw fs2) as [[[[rc out] err]|e] fs3]; cbn [fst snd] in Hrt |- *;
    subst fs3; cbn [results detected_bugs total_faults_attempted random].
  2:{ unfold set_results, on_storage. st_simpl. rewrite cleanup_run. simpl.
      intros [= <-]. cbn. repeat split; done. }
  assert (∀ p raw fs', counts_nonneg -> get_coverage o env fs2 = (Ok (p, raw), fs') ->
            (0 <= p <= 100)%Q) as Hrange.
  { intros p raw fs' Hwf Hcov. split;
      [by eapply get_coverage_nonneg|by eapply get_coverage_at_most_100]. }
  unfold set_results, on_storage.
  case_bool_decide as Hrc; st_simpl;
    destruct (get_coverage o env fs2) as [[[p raw]|e] fs3];
    st_simpl; rewrite cleanup_run; simpl; intros [= <-]; cbn;
    (split; [split|]); try done.
  all: try (by rewrite decide_True by congruence).
  all: try (rewrite decide_False; [done|]; by intros [= ?]).
  all: try (by rewrite bool_decide_false by (intros ?; done)).
  all: try (by rewrite bool_decide_true).
  all: intros Hwf; by eapply Hrange.
Qed.

(** The rate of the specification is a percentage. *)
Lemma bug_detection_rate_spec_range (original : string) (atts : list attempt) :
  (0 <= bug_detection_rate_spec original atts <= 100)%Q.
Proof.
  unfold bug_detection_rate_spec.
  destruct (attempted original atts) as [|a tried]; [done|].
  pose proof (filter_length_le exited_nonzero (a :: tried)) as Hle.
  set (k := length (List.filter exited_nonzero (a :: tried))) in *.
  set (n := length (a :: tried)) in *.
  assert (0 < n)%nat by (subst n; cbn; lia).
  assert (0 <= inject_Z (Z.of_nat k))%Q
    by (change 0%Q with (inject_Z 0); rewrite <- Zle_Qle; lia).
  assert (0 < inject_Z (Z.of_nat n))%Q
    by (change 0%Q with (inject_Z 0); rewrite <- Zlt_Qlt; lia).
  assert (inject_Z (Z.of_nat k) <= inject_Z (Z.of_nat n))%Q by (rewrite <- Zle_Qle; lia).
  assert (0 <= inject_Z (Z.of_nat k) / inject_Z (Z.of_nat n))%Q.
  { apply Qle_shift_div_l; [done|]. by rewrite Qmult_0_l. }
  assert (inject_Z (Z.of_nat k) / inject_Z (Z.of_nat n) <= 1)%Q.
  { apply Qle_shift_div_r; [done|]. by rewrite Qmult_1_l. }
  split; nra.
Qed.

(** One call of [evaluate_tests], with the scores of its first part. *)
Lemma evaluate_tests_report o root code tests spec K (w : storage * rng) :
  let exit := sandbox_exit (correct o) (test_runs root) code tests "target_function.py"
                (default "pytest" (framework spec)) in
  let atts := attempts o root code tests spec K w.2 in
  ∃ rs fs',
    let r := with_bug_detection_rate (bug_detection_rate_spec code atts) rs in
    evaluate_tests o root code tests spec K w
    = (match calculate_total_score r (default (YNum 0) (min_coverage_percentage spec)) with
       | Ok score => Ok (with_total_score score r)
       | Raise e => Raise e
       end, (fs', generator_at code w.2 (Z.to_nat K)))
    ∧ graded exit rs
    ∧ (counts_nonneg -> (0 <= code_coverage_percentage rs <= 100)%Q).
Proof.
  intros exit atts. destruct w as [fs0 g]. cbn [fst snd] in *.
  unfold evaluate_tests, evaluate_tests_body. cbn [fst snd]. fold (test_runs root).
  rewrite bind_run.
  match goal with |- context [evaluate_correct ?o ?b ?c ?t ?fw ?f] =>
    destruct (evaluate_correct_run o b c t fw f) as (rs1 & Hcorrect & _);
    pose proof (evaluate_correct_graded o b c t fw f _ eq_refl Hcorrect)
      as [Hgraded Hcov];
    rewrite Hcorrect; clear Hcorrect end.
  cbn [results detected_bugs total_faults_attempted fs random] in *.
  rewrite bind_run.
  match goal with |- context [for_each _ _ ?f1] =>
    destruct (fault_injections_run o (test_runs root) code tests
                (default "pytest" (framework spec)) g (Z.to_nat K) 0%nat f1)
      as (rs2 & fs2 & -> & Hs & _) end.
  { reflexivity. }
  cbn [results detected_bugs total_faults_attempted fs random] in *.
  rewrite !Z.add_0_l. unfold set_results. st_simpl.
  fold atts. rewrite rate_spec.
  exists rs2, fs2. cbn zeta. destruct Hs as (Hp & Hc & Hf).
  split; [|split].
  - destruct (calculate_total_score _ _); reflexivity.
  - fold exit in Hgraded. destruct Hgraded as [Hpass Hfp]. split; congruence.
  - intros Hwf. rewrite Hc. by apply Hcov.
Qed.

(** The score of a graded report. *)
Lemma score_within_range (exit : option Z) (r : Results) (m : yaml_value) (score : Q) :
  graded exit r ->
  (0 <= code_coverage_percentage r <= 100)%Q ->
  (0 <= bug_detection_rate r <= 100)%Q ->
  calculate_total_score r m = Ok score ->
  (0 <= score <= 100)%Q ∧ (exit ≠ Some 0 -> score = 0%Q).
Proof.
  intros [Hpass Hfp] Hcov Hbdr. unfold calculate_total_score. rewrite Hpass, Hfp.
  destruct (decide (exit = Some 0)) as [->|Hexit].
  - change (Qeq_bool 100 100) with true. cbn.
    destruct m as [min_coverage|]; [|done].
    destruct (Qlt_le_dec _ _); cbn; intros [= <-];
      (split; [|done]); unfold py.max0; destruct (Qlt_le_dec _ _); lra.
  - change (Qeq_bool 0 100) with false. cbn. intros [= <-].
    assert (py.max0
              ((if match exit with
                   | Some status => bool_decide (status ≠ 0)
                   | None => false
                   end then 0 - 100 else 0) + 0 * (1 # 2)
               - code_coverage_percentage r * (1 # 10)) = 0%Q) as ->; [|done].
    unfold py.max0. destruct (Qlt_le_dec _ _) as [Hlt|]; [|done].
    destruct (match exit with Some _ => _ | None => _ end); lra.
Qed.

(** X11.  Every report [evaluate_tests] returns is within its
    ranges, whatever happened in the sandboxes: the pass rate is 0 or 100,
    and the coverage, the bug-detection rate and the total score lie
    between 0 and 100 (the line counts of coverage reports not being
    negative).  No condition on the minimum coverage of the specification
    is needed. *)
Theorem report_within_ranges (o : surroundings)
    (project_root_dir code tests : string) (test_spec : test_specifications)
    (num_fault_injections : Z) (w w' : storage * rng) (r : Results) :
  counts_nonneg ->
  evaluate_tests o project_root_dir code tests test_spec num_fault_injections w
    = (Ok r, w') ->
  (test_pass_rate_correct_function r = 0%Q ∨ test_pass_rate_correct_function r = 100%Q)
  ∧ (0 <= code_coverage_percentage r <= 100)%Q
  ∧ (0 <= bug_detection_rate r <= 100)%Q
  ∧ (0 <= total_score r <= 100)%Q.
Proof.
  intros Hwf Hrun.
  destruct (evaluate_tests_report o project_root_dir code tests test_spec
              num_fault_injections w) as (rs & fs' & Heq & Hgraded & Hcov).
  rewrite Heq in Hrun. clear Heq. specialize (Hcov Hwf).
  destruct (calculate_total_score _ _) as [score|] eqn:Hscore; [|done].
  injection Hrun as <- _. cbn.
  pose proof (bug_detection_rate_spec_range code
                (attempts o project_root_dir code tests test_spec num_fault_injections w.2))
    as Hbdr.
  split; [|split; [done|split; [done|]]].
  - destruct Hgraded as [-> _]. case_decide; [by right|by left].
  - eapply score_within_range in Hscore as [Hrange _]; [exact Hrange|exact Hgraded|..];
      done.
Qed.

(** X13.  A report of [evaluate_tests] with a positive total score
    is the report of a suite that exited with status 0 on the correct
    function: its pass rate is 100 and its false-positive flag is not
    set. *)
Theorem positive_score_means_passing (o : surroundings)
    (project_root_dir code tests : string) (test_spec : test_specifications)
    (num_fault_injections : Z) (w w' : storage * rng) (r : Results) :
  counts_nonneg ->
  evaluate_tests o project_root_dir code tests test_spec num_fault_injections w
    = (Ok r, w') ->
  (0 < total_score r)%Q ->
  sandbox_exit (correct o) (test_runs project_root_dir) code tests "target_function.py"
    (default "pytest" (framework test_spec)) = Some 0
  ∧ test_pass_rate_correct_function r = 100%Q
  ∧ false_positives_detected r = false.
Proof.
  intros Hwf Hrun Hpos.
  destruct (evaluate_tests_report o project_root_dir code tests test_spec
              num_fault_injections w) as (rs & fs' & Heq & Hgraded & Hcov).
  rewrite Heq in Hrun. clear Heq. specialize (Hcov Hwf).
  destruct (calculate_total_score _ _) as [score|] eqn:Hscore; [|done].
  injection Hrun as <- _. cbn in Hpos |- *.
  pose proof (bug_detection_rate_spec_range code
                (attempts o project_root_dir code tests test_spec num_fault_injections w.2))
    as Hbdr.
  eapply score_within_range in Hscore as [_ Hzero]; [|exact Hgraded|done..].
  destruct Hgraded as [Hpass Hfp]. cbn in Hpass, Hfp.
  destruct (decide (_ = Some 0)) as [Hexit|Hexit].
  - rewrite Hexit in Hfp. done.
  - rewrite (Hzero Hexit) in Hpos. by apply Qlt_irrefl in Hpos.
Qed.

(** X14.  For two reports with pass rate 100 and the same
    false-positive flag, the scoring step is monotone: coverage and
    bug-detection rate that are not smaller give a total score that is not
    smaller. *)
Theorem score_grows_with_coverage_and_detection (r r' : Results) (min_coverage : Q)
    (score score' : Q) :
  test_pass_rate_correct_function r = 100%Q ->
  test_pass_rate_correct_function r' = 100%Q ->
  false_positives_detected r' = false_positives_detected r ->
  (code_coverage_percentage r <= code_coverage_percentage r')%Q ->
  (bug_detection_rate r <= bug_detection_rate r')%Q ->
  calculate_total_score r (YNum min_coverage) = Ok score ->
  calculate_total_score r' (YNum min_coverage) = Ok score' ->
  (score <= score')%Q.
Proof.
  intros Hp Hp' Hfp Hcov Hbdr. unfold calculate_total_score.
  rewrite Hp, Hp', Hfp. change (Qeq_bool 100 100) with true. cbn.
  destruct (Qlt_le_dec (code_coverage_percentage r) _),
           (Qlt_le_dec (code_coverage_percentage r') _); cbn;
    intros [= <-] [= <-]; destruct (false_positives_detected r); cbn;
    unfold py.max0; repeat destruct (Qlt_le_dec _ _); lra.
Qed.

(** X15.  When the text [inject_simple_fault] returns for the
    function is the function's own text up to surrounding white space (the
    function cannot be parsed, or nothing in it can be mutated), no mutant
    is attempted in any iteration: the report [evaluate_tests] returns has
    bug-detection rate 0, and its total score is at most 80. *)
Theorem unchanged_mutant_detects_nothing (o : surroundings)
    (project_root_dir code tests : string) (test_spec : test_specifications)
    (num_fault_injections : Z) (w w' : storage * rng) (r : Results) :
  py.strip (mutant_at code w.2 0) = py.strip code ->
  counts_nonneg ->
  evaluate_tests o project_root_dir code tests test_spec num_fault_injections w
    = (Ok r, w') ->
  bug_detection_rate r = 0%Q ∧ (total_score r <= 80)%Q.
Proof.
  intros Hnoop Hwf Hrun.
  destruct (evaluate_tests_report o project_root_dir code tests test_spec
              num_fault_injections w) as (rs & fs' & Heq & Hgraded & Hcov).
  rewrite Heq in Hrun. clear Heq. specialize (Hcov Hwf).
  assert (bug_detection_rate_spec code
            (attempts o project_root_dir code tests test_spec num_fault_injections w.2)
          = 0%Q) as Hrate.
  { unfold bug_detection_rate_spec, attempted. rewrite filter_none; [done|].
    intros a (i & -> & _)%list_elem_of_fmap. unfold is_noop. cbn [attempt_at rendered].
    rewrite bool_decide_true; [done|]. rewrite <- Hnoop. f_equal. unfold mutant_at.
    by rewrite (fault_injector_facts.inject_simple_fault_generator code 1
                  (generator_at code w.2 i) (generator_at code w.2 0)). }
  rewrite Hrate in Hrun.
  destruct (calculate_total_score _ _) as [score|] eqn:Hscore; [|done].
  injection Hrun as <- _. cbn. split; [done|].
  revert Hscore. destruct Hgraded as [Hpass Hfp]. unfold calculate_total_score.
  cbn. rewrite Hpass, Hfp. destruct (decide (_ = Some 0)) as [->|Hexit].
  - change (Qeq_bool 100 100) with true. cbn.
    destruct (default (YNum 0) _) as [min_coverage|]; cbn; [|done].
    destruct (Qlt_le_dec _ _); cbn; intros [= <-];
      unfold py.max0; destruct (Qlt_le_dec _ _); lra.
  - change (Qeq_bool 0 100) with false. cbn. intros [= <-].
    unfold py.max0. destruct (Qlt_le_dec _ _) as [Hlt|]; [|done].
    destruct (match sandbox_exit _ _ _ _ _ _ with Some _ => _ | None => _ end); lra.
Qed.

End with_runtime.
End fitness_evaluator_more.

(** ** More on the evolution loop *)
Module evolution_more.
Import testing_env fitness_evaluator evolution_orchestrator evolution_facts records.

#[local] Arguments evaluate_tests : simpl never.

Section with_runtime.
Context `{Runtime}.

(** One generation after the initial one. *)
Lemma next_generation_step c root code spec gen (st st' : state) :
  next_generation c root code spec gen st = (Ok tt, st') ->
  ∃ e, evolution_history st'.1 = evolution_history st.1 ++ [e]
       ∧ generation e = gen
       ∧ judged (current_best_fitness st.1) e (current_best_fitness st'.1).
Proof.
  unfold next_generation, try_except, call_generator. st_simpl.
  destruct (generate_tests c gen _) as [candidate_tests|e]; st_simpl.
  2:{ unfold _save_generation_data. st_simpl. intros [= <-]. cbn.
      eexists. split; [done|]. split; [done|]. by left. }
  unfold zoom_snd.
  destruct (evaluate_tests _ _ _ _ _ _ _) as [[candidate_fitness|e] w']; [|done].
  st_simpl. unfold get_total_score.
  destruct (current_best_fitness st.1) as [best|] eqn:Hbest; st_simpl; [|done].
  destruct (Qlt_le_dec _ _) as [Hlt|Hle]; unfold set_best, _save_generation_data;
    st_simpl; intros [= <-]; cbn; (eexists; split; [done|]; split; [done|]); right;
    exists candidate_fitness, best; (split; [done|]); (split; [done|]);
    [left|right]; done.
Qed.

(** The generations of the loop, from a state that holds a best suite
    dominating its history. *)
Lemma generations_step c root code spec : ∀ gens (st st' : state),
  for_each gens (next_generation c root code spec) st = (Ok tt, st') ->
  dominating st.1 ->
  (∃ new, evolution_history st'.1 = evolution_history st.1 ++ new
          ∧ map generation new = gens
          ∧ Forall (fun e => status e ∈ ["new_best"; "not_best"; "error"]
                             ∧ (fitness_results e = None ↔ status e = "error")) new)
  ∧ dominating st'.1.
Proof.
  induction gens as [|gen gens IH]; intros st st' Hrun Hdom.
  { injection Hrun as <-. split; [|done]. exists []. by rewrite app_nil_r. }
  cbn [for_each] in Hrun. rewrite bind_run in Hrun.
  destruct (next_generation _ _ _ _ gen st) as [[[]|e] st1] eqn:Hstep; [|done].
  apply next_generation_step in Hstep as (e & Hhist & Hgen & Hjudged).
  assert (dominating st1.1
          ∧ status e ∈ ["new_best"; "not_best"; "error"]
          ∧ (fitness_results e = None ↔ status e = "error")) as (Hdom1 & Hstatus & Hnone).
  { destruct Hdom as (b & Hb & (e0 & He0 & Hfit0 & Hst0) & Hmax).
    destruct Hjudged as [(Hs & Hf & Hbest)|(r & b' & Hf & Hb' & Hcase)].
    - split; [|split; [rewrite Hs; repeat constructor|by rewrite Hs, Hf]].
      exists b. split; [congruence|]. rewrite Hhist. split.
      + exists e0. split; [apply elem_of_app; by left|done].
      + intros e1 r1 [Hin|Heq%list_elem_of_singleton]%elem_of_app Hr1;
          [by eapply Hmax|congruence].
    - rewrite Hb in Hb'. injection Hb' as <-.
      destruct Hcase as [(Hlt & Hs & Hbest)|(Hle & Hs & Hbest)].
      + split; [|split; [rewrite Hs; repeat constructor|rewrite Hs, Hf; split; done]].
        exists r. split; [done|]. rewrite Hhist. split.
        * exists e. split; [apply elem_of_app; right; constructor|].
          split; [done|]. rewrite Hs. repeat constructor.
        * intros e1 r1 [Hin|Heq%list_elem_of_singleton]%elem_of_app Hr1.
          -- apply Qle_trans with (total_score b); [by eapply Hmax|by apply Qlt_le_weak].
          -- subst e1. rewrite Hf in Hr1. injection Hr1 as <-. apply Qle_refl.
      + split; [|split; [rewrite Hs; repeat constructor|rewrite Hs, Hf; split; done]].
        exists b. split; [done|]. rewrite Hhist. split.
        * exists e0. split; [apply elem_of_app; by left|done].
        * intros e1 r1 [Hin|Heq%list_elem_of_singleton]%elem_of_app Hr1;
            [by eapply Hmax|]. subst e1. rewrite Hf in Hr1. by injection Hr1 as <-. }
  destruct (IH st1 st' Hrun Hdom1) as ((new & Hnew & Hgens & Hall) & Hdom').
  split; [|done]. exists (e :: new). split; [|split].
  - rewrite Hnew, Hhist. by rewrite <- app_assoc.
  - cbn. by rewrite Hgen, Hgens.
  - by constructor.
Qed.

(** What generation 0 records. *)
Lemma initial_generation_step c root code spec (st st' : state) :
  initial_generation c root code spec st = (Ok tt, st') ->
  ∃ e fitness,
    evolution_history st'.1 = evolution_history st.1 ++ [e]
    ∧ generation e = 0%nat ∧ status e = "initial_generation"
    ∧ fitness_results e = Some fitness
    ∧ current_best_fitness st'.1 = Some fitness.
Proof.
  unfold initial_generation, call_generator, zoom_snd. st_simpl.
  destruct (generate_tests c 0 None) as [tests|e]; [|done]. st_simpl.
  destruct (evaluate_tests _ _ _ _ _ _ _) as [[fitness|e] w'] eqn:Heval; [|done].
  unfold set_best, _save_generation_data. st_simpl. intros [= <-]. cbn.
  by eexists _, _.
Qed.

(** A completed run from a new orchestrator. *)
Lemma evolve_tests_step c root code spec n (w : storage * rng) s st' :
  evolve_tests c root code spec n (__init__, w) = (Ok s, st') ->
  ∃ first later,
    evolution_history s = first :: later
    ∧ generation first = 0%nat ∧ status first = "initial_generation"
    ∧ is_Some (fitness_results first)
    ∧ map generation later = seq 1 (Z.to_nat n)
    ∧ Forall (fun e => status e ∈ ["new_best"; "not_best"; "error"]
                       ∧ (fitness_results e = None ↔ status e = "error")) later
    ∧ dominating s.
Proof.
  unfold evolve_tests. rewrite !bind_run.
  destruct (initial_generation _ _ _ _ _) as [[[]|e] st1] eqn:Hinit; [|done].
  apply initial_generation_step in Hinit as (e0 & fitness & Hhist & Hgen & Hs & Hf & Hb).
  cbn in Hhist. rewrite bind_run.
  destruct (for_each _ _ st1) as [[[]|e] st2] eqn:Hloop; [|done].
  apply generations_step in Hloop as ((new & Hnew & Hgens & Hall) & Hdom).
  - cbn. intros [= <- <-]. exists e0, new. rewrite Hnew, Hhist.
    split; [done|]. split; [done|]. split; [done|]. split; [by rewrite Hf|]. done.
  - exists fitness. split; [done|]. rewrite Hhist. split.
    + exists e0. split; [constructor|]. split; [done|]. rewrite Hs. repeat constructor.
    + intros e1 r1 ->%list_elem_of_singleton Hr1. rewrite Hf in Hr1.
      injection Hr1 as <-. apply Qle_refl.
Qed.

(** X17.  When [evolve_tests] returns on a new orchestrator, the
    history has one entry for each generation from 0 to [max_generations],
    in order; the first has status [initial_generation] and every later
    one [new_best], [not_best] or [error]; and an entry has the empty
    fitness dictionary exactly when its status is [error]. *)
Theorem history_has_every_generation (c : collaborators)
    (project_root_dir code : string) (spec : test_specifications)
    (max_generations : Z) (w : storage * rng) (s : EvolutionOrchestrator) (st' : state) :
  evolve_tests c project_root_dir code spec max_generations (__init__, w) = (Ok s, st') ->
  map generation (evolution_history s) = seq 0 (S (Z.to_nat max_generations))
  ∧ (∃ later, map status (evolution_history s) = "initial_generation" :: later
              ∧ Forall (.∈ ["new_best"; "not_best"; "error"]) later)
  ∧ ∀ e, e ∈ evolution_history s -> (fitness_results e = None ↔ status e = "error").
Proof.
  intros (first & later & -> & Hgen & Hs & Hf & Hgens & Hall & _)%evolve_tests_step.
  split; [|split].
  - cbn. by rewrite Hgen, Hgens.
  - exists (map status later). cbn. rewrite Hs. split; [done|].
    apply Forall_fmap. eapply Forall_impl; [exact Hall|]. by intros e [? _].
  - intros e [->|Hin]%elem_of_cons.
    + rewrite Hs. destruct Hf as [r ->]. split; done.
    + rewrite Forall_forall in Hall. by apply Hall.
Qed.

(** X18.  When [evolve_tests] returns on a new orchestrator, the
    best fitness it returns is the fitness of a generation of the history
    recorded as [initial_generation] or [new_best], and no generation of
    the history has a greater total score. *)
Theorem best_suite_dominates_history (c : collaborators)
    (project_root_dir code : string) (spec : test_specifications)
    (max_generations : Z) (w : storage * rng) (s : EvolutionOrchestrator) (st' : state) :
  evolve_tests c project_root_dir code spec max_generations (__init__, w) = (Ok s, st') ->
  ∃ best,
    current_best_fitness s = Some best
    ∧ (∃ e, e ∈ evolution_history s ∧ fitness_results e = Some best
            ∧ status e ∈ ["initial_generation"; "new_best"])
    ∧ ∀ e r, e ∈ evolution_history s -> fitness_results e = Some r ->
        (total_score r <= total_score best)%Q.
Proof.
  intros (first & later & _ & _ & _ & _ & _ & _ & Hdom)%evolve_tests_step. exact Hdom.
Qed.

End with_runtime.
End evolution_more.

(** ** Rounding to a double *)
Module binary64_facts.
Import binary64.

Lemma pow2_pos (e : Z) : (0 < pow2 e)%Q.
Proof. apply Qpower_0_lt. reflexivity. Qed.

Lemma pow2_add (a b : Z) : (pow2 (a + b) == pow2 a * pow2 b)%Q.
Proof. apply Qpower_plus. discriminate. Qed.

Lemma pow2_int (e : Z) : 0 <= e -> (pow2 e == inject_Z (2 ^ e))%Q.
Proof. intros He. symmetry. by apply (Zpower_Qpower 2 e). Qed.

Lemma pow2_le (a b : Z) : a <= b -> (pow2 a <= pow2 b)%Q.
Proof. intros Hab. apply Qpower_le_compat_l; [done|discriminate]. Qed.

(** The exponent is not too great. *)
Lemma exponent_le (q : Q) : (0 < q)%Q -> (pow2 (exponent q) <= q)%Q.
Proof.
  intros Hq. unfold exponent.
  destruct (Qle_bool _ q) eqn:Hk; [by apply Qle_bool_iff|].
  destruct q as [n d]. cbn [Qnum Qden].
  assert (0 < n) as Hn by (unfold Qlt in Hq; cbn in Hq; lia).
  pose proof (Z.log2_spec n Hn) as [Hlo _].
  pose proof (Z.log2_spec (Z.pos d) ltac:(lia)) as [_ Hhi].
  pose proof (Z.log2_nonneg n). pose proof (Z.log2_nonneg (Z.pos d)).
  set (a := Z.log2 n) in *. set (b := Z.log2 (Z.pos d)) in *.
  replace (a - b - 1) with (a - (b + 1)) by lia.
  assert (pow2 (a - (b + 1)) == pow2 a / pow2 (b + 1))%Q as ->
    by (apply Qpower_minus; discriminate).
  rewrite !pow2_int by lia.
  replace (Z.succ b) with (b + 1) in Hhi by lia.
  assert (0 < 2 ^ (b + 1)) as Hp by (apply Z.pow_pos_nonneg; lia).
  apply Qle_shift_div_r.
  { change 0%Q with (inject_Z 0). by rewrite <- Zlt_Qlt. }
  assert (0 <= 2 ^ a) by (apply Z.pow_nonneg; lia).
  generalize dependent (2 ^ (b + 1)). generalize dependent (2 ^ a).
  intros A HA HA0 B HB HB0.
  unfold Qle. cbn [Qnum Qden Qmult inject_Z].
  rewrite Pos.mul_1_r, !Z.mul_1_r. nia.
Qed.

Lemma round_half_even_ge (x : Q) (n : Z) : (inject_Z n <= x)%Q -> n <= py.round_half_even x.
Proof.
  intros Hn. etrans; [|apply py_facts.round_half_even_floor].
  rewrite <- (Qfloor_Z n). by apply Qfloor_resp_le.
Qed.

Lemma ulp_pos (q : Q) : (0 < ulp q)%Q.
Proof. apply pow2_pos. Qed.

(** Rounding does not cross a multiple of the distance between the
    doubles. *)
Lemma round_above (q : Q) (n : Z) :
  (inject_Z n * ulp q <= q)%Q -> (inject_Z n * ulp q <= round q)%Q.
Proof.
  intros Hn. unfold round. pose proof (ulp_pos q) as Hu.
  destruct (Qeq_bool q 0) eqn:Hq.
  - apply Qeq_bool_iff in Hq. apply Qle_trans with q; [done|].
    apply Qle_lteq. by right.
  - apply Qmult_le_compat_r; [|by apply Qlt_le_weak].
    rewrite <- Zle_Qle. apply round_half_even_ge. by apply Qle_shift_div_l.
Qed.

Lemma round_below (q : Q) (n : Z) :
  (q <= inject_Z n * ulp q)%Q -> (round q <= inject_Z n * ulp q)%Q.
Proof.
  intros Hn. unfold round. pose proof (ulp_pos q) as Hu.
  destruct (Qeq_bool q 0) eqn:Hq.
  - apply Qeq_bool_iff in Hq. apply Qle_trans with q; [|done].
    apply Qle_lteq. right. by symmetry.
  - apply Qmult_le_compat_r; [|by apply Qlt_le_weak].
    rewrite <- Zle_Qle. apply py_more.round_half_even_le. by apply Qle_shift_div_r.
Qed.


Lemma pow2_multiple (e : Z) : (pow2 e == inject_Z (2 ^ 52) * pow2 (e - 52))%Q.
Proof.
  rewrite <- pow2_int by lia. rewrite <- pow2_add. by replace (52 + (e - 52)) with e by lia.
Qed.


(** The exponent is not too small. *)
Lemma exponent_lt (q : Q) : (0 < q)%Q -> (q < pow2 (exponent q + 1))%Q.
Proof.
  intros Hq. unfold exponent.
  destruct (Qle_bool _ q) eqn:Hk.
  2:{ replace (_ - 1 + 1) with (Z.log2 (Qnum q) - Z.log2 (Z.pos (Qden q))) by lia.
      apply Qnot_le_lt. intros Hle. apply Qle_bool_iff in Hle. congruence. }
  clear Hk. destruct q as [n d]. cbn [Qnum Qden].
  assert (0 < n) as Hn by (unfold Qlt in Hq; cbn in Hq; lia).
  pose proof (Z.log2_spec n Hn) as [_ Hhi].
  pose proof (Z.log2_spec (Z.pos d) ltac:(lia)) as [Hlo _].
  pose proof (Z.log2_nonneg n). pose proof (Z.log2_nonneg (Z.pos d)).
  set (a := Z.log2 n) in *. set (b := Z.log2 (Z.pos d)) in *.
  replace (a - b + 1) with ((a + 1) - b) by lia.
  assert (pow2 (a + 1 - b) == pow2 (a + 1) / pow2 b)%Q as ->
    by (apply Qpower_minus; discriminate).
  rewrite !pow2_int by lia.
  replace (Z.succ a) with (a + 1) in Hhi by lia.
  assert (0 < 2 ^ b) as Hp by (apply Z.pow_pos_nonneg; lia).
  apply Qlt_shift_div_l.
  { change 0%Q with (inject_Z 0). by rewrite <- Zlt_Qlt. }
  generalize dependent (2 ^ (a + 1)). generalize dependent (2 ^ b).
  intros B HB HB0 A HA.
  unfold Qlt. cbn [Qnum Qden Qmult inject_Z].
  rewrite !Z.mul_1_r. nia.
Qed.

Lemma exponent_unique (q : Q) (e : Z) :
  (pow2 e <= q)%Q -> (q < pow2 (e + 1))%Q -> exponent q = e.
Proof.
  intros Hlo Hhi.
  assert (0 < q)%Q as Hq by (eapply Qlt_le_trans; [apply (pow2_pos e)|done]).
  pose proof (exponent_le q Hq) as Hlo'. pose proof (exponent_lt q Hq) as Hhi'.
  destruct (Z_lt_le_dec (exponent q) e) as [Hlt|Hge].
  { exfalso. apply (Qlt_irrefl q). eapply Qlt_le_trans; [exact Hhi'|].
    eapply Qle_trans; [|exact Hlo]. apply pow2_le. lia. }
  destruct (Z_lt_le_dec e (exponent q)) as [Hlt|Hge']; [|lia].
  exfalso. apply (Qlt_irrefl q). eapply Qlt_le_trans; [exact Hhi|].
  eapply Qle_trans; [|exact Hlo']. apply pow2_le. lia.
Qed.

Lemma inject_Z_pred (n : Z) : (inject_Z (n - 1) == inject_Z n - 1)%Q.
Proof. unfold Z.sub. rewrite inject_Z_plus. reflexivity. Qed.

Lemma inject_Z_succ (n : Z) : (inject_Z (n + 1) == inject_Z n + 1)%Q.
Proof. rewrite inject_Z_plus. reflexivity. Qed.

(** Rounding to an integer, at the half. *)
Lemma round_half_even_up (x : Q) (n : Z) :
  (inject_Z n - (1 # 2) <= x)%Q -> Z.even n = true -> n <= py.round_half_even x.
Proof.
  intros Hx Heven. unfold py.round_half_even.
  pose proof (Qlt_floor x) as Hlt.
  assert (n - 1 <= Qfloor x) as Hf.
  { assert (inject_Z (n - 1) < inject_Z (Qfloor x + 1))%Q as Hc.
    { eapply Qle_lt_trans; [|exact Hlt]. eapply Qle_trans; [|exact Hx].
      rewrite inject_Z_pred. lra. }
    rewrite <- Zlt_Qlt in Hc. lia. }
  destruct (Z.eq_dec (Qfloor x) (n - 1)) as [Heq|Hne].
  2:{ destruct (_ ?= _)%Q; [destruct (Z.even (Qfloor x))|..]; lia. }
  destruct (_ ?= _)%Q eqn:Hcmp.
  - replace (Z.even (Qfloor x)) with false; [lia|].
    rewrite Heq. rewrite Z.even_sub. rewrite Heven. done.
  - exfalso. rewrite <- Qlt_alt in Hcmp. rewrite Heq in Hcmp.
    rewrite inject_Z_pred in Hcmp. lra.
  - lia.
Qed.

Lemma round_half_even_down (x : Q) (n : Z) :
  (x < inject_Z n + (1 # 2))%Q -> py.round_half_even x <= n.
Proof.
  intros Hx. unfold py.round_half_even.
  pose proof (Qfloor_le x) as Hle.
  assert (Qfloor x <= n) as Hf.
  { assert (inject_Z (Qfloor x) < inject_Z (n + 1))%Q as Hc.
    { eapply Qle_lt_trans; [exact Hle|]. eapply Qlt_le_trans; [exact Hx|].
      rewrite inject_Z_succ. lra. }
    rewrite <- Zlt_Qlt in Hc. lia. }
  destruct (Z.eq_dec (Qfloor x) n) as [Heq|Hne].
  2:{ destruct (_ ?= _)%Q; [destruct (Z.even (Qfloor x))|..]; lia. }
  destruct (_ ?= _)%Q eqn:Hcmp; [| lia |].
  - exfalso. apply Qeq_alt in Hcmp. rewrite Heq in Hcmp. lra.
  - exfalso. rewrite <- Qgt_alt in Hcmp. rewrite Heq in Hcmp. lra.
Qed.

Lemma too_large_true (q : Q) : (pow2 1024 <= q)%Q -> too_large q = true.
Proof.
  intros Hq. apply Qle_bool_iff. eapply Qle_trans; [exact Hq|]. apply Qle_Qabs.
Qed.

Lemma too_large_false (q : Q) : (0 <= q)%Q -> (q < pow2 1024)%Q -> too_large q = false.
Proof.
  intros H0 Hq. unfold too_large. destruct (Qle_bool _ _) eqn:Hb; [|done].
  apply Qle_bool_iff in Hb. rewrite Qabs_pos in Hb by done.
  exfalso. apply (Qlt_irrefl q). by eapply Qlt_le_trans.
Qed.

Lemma round_nonneg (q : Q) : (0 <= q)%Q -> (0 <= round q)%Q.
Proof.
  intros Hq. assert (0 == inject_Z 0 * ulp q)%Q as Hz by (change (inject_Z 0) with 0%Q; ring).
  rewrite Hz. apply round_above. by rewrite <- Hz.
Qed.

Lemma ulp_int (z : Z) :
  0 <= z -> ulp (inject_Z z) = pow2 (Z.max (exponent (inject_Z z)) (-1022) - 52).
Proof. intros Hz. unfold ulp, Qabs, inject_Z. by rewrite Z.abs_eq. Qed.

Lemma pow2_lt (a b : Z) : (pow2 a < pow2 b)%Q -> a < b.
Proof.
  intros Hlt. destruct (Z_lt_le_dec a b) as [|Hle]; [done|].
  exfalso. apply (Qlt_irrefl (pow2 a)). eapply Qlt_le_trans; [exact Hlt|]. by apply pow2_le.
Qed.

(** The integers whose nearest double lies beyond the largest double. *)
Lemma int_too_large (z : Z) :
  0 <= z -> too_large (round (inject_Z z)) = bool_decide (2 ^ 1024 - 2 ^ 970 <= z).
Proof.
  intros Hz. set (q := inject_Z z).
  assert (0 <= q)%Q as Hq by (subst q; change 0%Q with (inject_Z 0); by rewrite <- Zle_Qle).
  assert (0 < 2 ^ 970 ∧ 2 ^ 1023 = 2 ^ 53 * 2 ^ 970 ∧ 2 ^ 1024 = 2 ^ 54 * 2 ^ 970
          ∧ 2 ^ 971 = 2 * 2 ^ 970) as (Hp & H23 & H24 & H71).
  { split; [by apply Z.pow_pos_nonneg|].
    rewrite <- !Z.pow_add_r by lia. rewrite <- (Z.pow_succ_r 2 970) by lia. done. }
  pose proof (round_nonneg q Hq) as Hr0.
  destruct (Z.eq_dec z 0) as [->|Hz0].
  { rewrite bool_decide_false by lia. apply too_large_false; [done|]. 
    unfold round. change (Qeq_bool q 0) with true. cbn match. apply pow2_pos. }
  assert (0 < q)%Q as Hqpos by (subst q; change 0%Q with (inject_Z 0); rewrite <- Zlt_Qlt; lia).
  pose proof (exponent_le q Hqpos) as Hlo. pose proof (exponent_lt q Hqpos) as Hhi.
  pose proof (ulp_int z Hz) as Hulp. fold q in Hulp.
  destruct (Z_lt_le_dec z (2 ^ 1023)) as [Hsmall|Hbig].
  - rewrite bool_decide_false by lia. apply too_large_false; [done|].
    assert (exponent q < 1023) as He.
    { apply pow2_lt. eapply Qle_lt_trans; [exact Hlo|].
      rewrite (pow2_int 1023) by lia. subst q. by rewrite <- Zlt_Qlt. }
    set (m := Z.max (exponent q) (-1022)) in *.
    assert (pow2 1023 == inject_Z (2 ^ (1075 - m)) * ulp q)%Q as Hm.
    { rewrite Hulp. rewrite <- pow2_int by lia. rewrite <- pow2_add.
      by replace (1075 - m + (m - 52)) with 1023 by lia. }
    apply Qle_lt_trans with (pow2 1023).
    + rewrite Hm. apply round_below. rewrite <- Hm.
      rewrite (pow2_int 1023) by lia. subst q. rewrite <- Zle_Qle. lia.
    + rewrite (pow2_int 1023), (pow2_int 1024) by lia. rewrite <- Zlt_Qlt. lia.
  - destruct (Z_lt_le_dec z (2 ^ 1024)) as [Hmid|Hhuge].
    + assert (exponent q = 1023) as He.
      { apply exponent_unique.
        - rewrite (pow2_int 1023) by lia. subst q. by rewrite <- Zle_Qle.
        - change (1023 + 1) with 1024. rewrite (pow2_int 1024) by lia.
          subst q. by rewrite <- Zlt_Qlt. }
      rewrite He in Hulp. change (Z.max 1023 (-1022) - 52) with 971 in Hulp.
      assert (round q = (inject_Z (py.round_half_even (q / pow2 971)) * pow2 971)%Q) as Hround.
      { unfold round. rewrite Hulp.
        destruct (Qeq_bool q 0) eqn:Hq0; [|done].
        apply Qeq_bool_iff in Hq0. rewrite Hq0 in Hqpos. by apply Qlt_irrefl in Hqpos. }
      assert (0 < pow2 971)%Q as Hpos by apply pow2_pos.
      assert (pow2 971 == 2 * inject_Z (2 ^ 970))%Q as Hu.
      { rewrite (pow2_int 971) by lia. rewrite H71, inject_Z_mult. reflexivity. }
      set (p := inject_Z (2 ^ 970)) in *.
      assert (0 < p)%Q as Hppos
        by (subst p; change 0%Q with (inject_Z 0); by rewrite <- Zlt_Qlt).
      assert (pow2 1024 == 18014398509481984 * p)%Q as Htop.
      { rewrite (pow2_int 1024) by lia. rewrite H24, inject_Z_mult. reflexivity. }
      case_bool_decide as Hthr.
      * apply too_large_true. rewrite Hround.
        assert (18014398509481984 * p - p <= q)%Q as Hk.
        { subst p q. change 18014398509481984%Q with (inject_Z (2 ^ 54)).
          unfold Qminus. rewrite <- inject_Z_mult, <- inject_Z_opp, <- inject_Z_plus, <- Zle_Qle. lia. }
        rewrite Htop.
        assert (18014398509481984 * p == inject_Z (2 ^ 53) * pow2 971)%Q as ->.
        { rewrite Hu. change (inject_Z (2 ^ 53)) with 9007199254740992%Q. ring. }
        apply Qmult_le_compat_r; [|by apply Qlt_le_weak].
        rewrite <- Zle_Qle. apply round_half_even_up; [|done].
        apply Qle_shift_div_l; [done|].
        rewrite Hu. change (inject_Z (2 ^ 53)) with 9007199254740992%Q. lra.
      * apply too_large_false; [done|]. rewrite Hround.
        assert (q <= 18014398509481984 * p - p - 1)%Q as Hk.
        { subst p q. change 18014398509481984%Q with (inject_Z (2 ^ 54)).
          change 1%Q with (inject_Z 1).
          unfold Qminus. rewrite <- inject_Z_mult, <- !inject_Z_opp, <- !inject_Z_plus, <- Zle_Qle. lia. }
        apply Qle_lt_trans with (inject_Z (2 ^ 53 - 1) * pow2 971)%Q.
        -- apply Qmult_le_compat_r; [|by apply Qlt_le_weak].
           rewrite <- Zle_Qle. apply round_half_even_down.
           apply Qlt_shift_div_r; [done|].
           rewrite Hu. change (inject_Z (2 ^ 53 - 1)) with 9007199254740991%Q. lra.
        -- rewrite Htop, Hu. change (inject_Z (2 ^ 53 - 1)) with 9007199254740991%Q. lra.
    + rewrite bool_decide_true by lia. apply too_large_true.
      assert (1024 <= exponent q) as He.
      { assert (1024 < exponent q + 1); [|lia]. apply pow2_lt.
        eapply Qle_lt_trans; [|exact Hhi].
        rewrite (pow2_int 1024) by lia. subst q. by rewrite <- Zle_Qle. }
      apply Qle_trans with (pow2 (exponent q)); [by apply pow2_le|].
      replace (Z.max (exponent q) (-1022)) with (exponent q) in Hulp by lia.
      pose proof (pow2_multiple (exponent q)) as Hm. rewrite <- Hulp in Hm.
      rewrite Hm. apply round_above. by rewrite <- Hm.
Qed.

End binary64_facts.

(** ** The average *)
Module utils_facts.
Import errors utils binary64 binary64_facts.



End utils_facts.

(** ** The evaluation of any document *)
Module fitness_evaluator_yaml_facts.
Import testing_env fitness_evaluator testing_env_facts detection grading
  fitness_evaluator_facts fitness_evaluator_more errors fitness_evaluator_yaml.

#[local] Arguments testing_env.__init__ : simpl never.
#[local] Arguments setup_environment : simpl never.
#[local] Arguments testing_env.run_tests : simpl never.
#[local] Arguments get_coverage : simpl never.
#[local] Arguments cleanup : simpl never.
#[local] Arguments fault_injector.inject_simple_fault : simpl never.

Lemma dict_get_raise d key default e :
  fitness_evaluator_yaml.dict_get d key default = Raise e ->
  e = yaml.no_attribute (Some d) "get" ∧ ∀ items, d ≠ yaml.Mapping items.
Proof. destruct d; cbn; intros [= <-]; done. Qed.

(** Lines 35 and 36 raise for a document, or a section
    [test_specifications] of it, that is not a dictionary. *)
Lemma settings_raise test_spec e :
  settings test_spec = Raise e ->
  exn_cls e = AttributeError
  ∧ ((∀ items, test_spec ≠ yaml.Mapping items)
     ∨ ∃ items section, test_spec = yaml.Mapping items
         ∧ yaml.get "test_specifications" items = Some section
         ∧ ∀ items', section ≠ yaml.Mapping items').
Proof.
  unfold settings. destruct test_spec as [| | | | | |items]; cbn; try (intros [= <-]; split; [done|by left]).
  destruct (yaml.get "test_specifications" items) as [section|] eqn:Hs; cbn; [|done].
  destruct section; cbn; try (intros [= <-]; split; [done|right; by eexists _, _]).
  done.
Qed.

Section with_runtime.
Context `{Runtime}.

Lemma run_tests_keeps_storage o self framework fs :
  (fitness_evaluator_yaml.run_tests o self framework fs).2 = fs.
Proof. destruct framework; try done. apply run_tests_storage. Qed.

(** Part 1 with a framework that is not a text. *)
Lemma evaluate_correct_no_framework o base code tests framework f :
  (∀ name, framework ≠ yaml.Text name) ->
  ∃ f' text, fitness_evaluator_yaml.evaluate_correct o base code tests framework f
             = (Ok tt, f')
             ∧ results f' = add_error_output text (results f).
Proof.
  intros Hfw. destruct f as [rs0 db tot fs0 g].
  unfold fitness_evaluator_yaml.evaluate_correct. rewrite bind_run. unfold on_storage at 1.
  destruct (init_run o base fs0) as [fs1 Hrun]. cbn [fs]. rewrite Hrun.
  cbn [results detected_bugs total_faults_attempted random].
  unfold try_finally, try_except.
  rewrite bind_run. unfold on_storage at 1. cbn [fs].
  destruct (setup_environment o _ _ _ _ _ fs1) as [[env|e] fs2] eqn:Hs;
    cbn [results detected_bugs total_faults_attempted random].
  2:{ unfold set_results, on_storage. st_simpl. rewrite cleanup_run. simpl.
      eexists _, _. split; done. }
  rewrite bind_run. unfold on_storage at 1. cbn [fs].
  destruct framework; try (by edestruct Hfw);
    unfold set_results, on_storage; st_simpl; rewrite cleanup_run; simpl;
    eexists _, _; split; done.
Qed.

(** One iteration of the loop returns and leaves the scores of part 1. *)
Lemma fault_injection_scores o base code tests framework i f :
  ∃ f', fitness_evaluator_yaml.fault_injection o base code tests framework i f
        = (Ok tt, f')
        ∧ same_scores (results f) (results f').
Proof.
  destruct f as [rs0 db tot fs0 g].
  unfold fitness_evaluator_yaml.fault_injection. rewrite bind_run.
  unfold on_random at 1. cbn [random].
  destruct (fault_injector_facts.inject_simple_fault_returns code 1 g) as [text Htext].
  destruct (fault_injector.inject_simple_fault code 1 g) as [r g'].
  cbn [fst snd] in *. subst r.
  cbn [results detected_bugs total_faults_attempted fs].
  case_decide as Hnoop.
  { st_simpl. eexists. split; done. }
  unfold incr_total_faults_attempted. st_simpl.
  unfold on_storage at 1.
  destruct (init_run o base fs0) as [fs1 Hrun]. cbn [fs]. rewrite Hrun.
  cbn [results detected_bugs total_faults_attempted random].
  unfold try_finally, try_except.
  rewrite bind_run. unfold on_storage at 1. cbn [fs].
  destruct (setup_environment o _ _ _ _ _ fs1) as [[env|e] fs2] eqn:Hs;
    cbn [results detected_bugs total_faults_attempted random].
  2:{ unfold set_results, on_storage. st_simpl. rewrite cleanup_run. simpl.
      eexists. split; done. }
  rewrite bind_run. unfold on_storage at 1. cbn [fs].
  destruct (fitness_evaluator_yaml.run_tests o env framework fs2)
    as [[[[rc out] err]|e] fs3];
    cbn [results detected_bugs total_faults_attempted random].
  2:{ unfold set_results, on_storage. st_simpl. rewrite cleanup_run. simpl.
      eexists. split; done. }
  unfold set_results, on_storage, incr_detected_bugs.
  case_bool_decide; st_simpl; rewrite cleanup_run; simpl; eexists; split; done.
Qed.

Lemma fault_injections_scores (o : nat -> sandbox) base code tests framework :
  ∀ (iterations : list nat) f,
  ∃ f', for_each iterations
          (fun i => fitness_evaluator_yaml.fault_injection (o i) base code tests
                      framework i) f
        = (Ok tt, f')
        ∧ same_scores (results f) (results f').
Proof.
  induction iterations as [|i iterations IH]; intros f.
  - eexists. split; done.
  - cbn [for_each]. rewrite bind_run.
    destruct (fault_injection_scores (o i) base code tests framework i f)
      as (f1 & -> & (Hp1 & Hc1 & Hf1)).
    destruct (IH f1) as (f2 & -> & (Hp2 & Hc2 & Hf2)).
    eexists. split; [done|]. repeat split; congruence.
Qed.

(** Parts 1 and 2 return, whatever the document holds and whatever
    happens in the sandboxes, and the report is graded by the exit status
    of the suite on the correct function. *)
Lemma sandboxes_run o root code tests framework K (w : storage * rng) :
  ∃ r f',
    sandboxes o root code tests framework K
      {| results := initial_results; detected_bugs := 0; total_faults_attempted := 0;
         fs := w.1; random := w.2 |}
    = (Ok r, f')
    ∧ graded (fitness_evaluator_yaml.sandbox_exit (correct o) (test_runs root) code tests
                "target_function.py" framework) r
    ∧ (counts_nonneg -> (0 <= code_coverage_percentage r <= 100)%Q).
Proof.
  unfold sandboxes. fold (test_runs root). rewrite bind_run.
  set (f0 := {| results := initial_results; detected_bugs := 0;
                total_faults_attempted := 0; fs := w.1; random := w.2 |}).
  assert (∃ f1, fitness_evaluator_yaml.evaluate_correct (correct o) (test_runs root) code
                  tests framework f0 = (Ok tt, f1)
                ∧ graded (fitness_evaluator_yaml.sandbox_exit (correct o) (test_runs root)
                            code tests "target_function.py" framework) (results f1)
                ∧ (counts_nonneg -> (0 <= code_coverage_percentage (results f1) <= 100)%Q))
    as (f1 & -> & Hgraded & Hcov).
  { assert ((∃ name, framework = yaml.Text name) ∨ ¬ ∃ name, framework = yaml.Text name)
      as [[name ->]|Hfw]
      by (destruct framework; (by left; eexists) || (right; by intros [? [=]])).
    - change (fitness_evaluator_yaml.evaluate_correct (correct o) (test_runs root) code
                tests (yaml.Text name))
        with (fitness_evaluator.evaluate_correct (correct o) (test_runs root) code tests
                name).
      destruct (evaluate_correct_run (correct o) (test_runs root) code tests name f0)
        as (rs1 & Hcorrect & _).
      pose proof (evaluate_correct_graded (correct o) (test_runs root) code tests name
                    f0 _ eq_refl Hcorrect) as [Hgraded Hcov].
      eexists. split; [exact Hcorrect|]. split; [exact Hgraded|exact Hcov].
    - destruct (evaluate_correct_no_framework (correct o) (test_runs root) code tests
                  framework f0) as (f1 & text & Hrun & Hres).
      { intros name ->. apply Hfw. by eexists. }
      exists f1. split; [exact Hrun|]. rewrite Hres. cbn.
      assert (fitness_evaluator_yaml.sandbox_exit (correct o) (test_runs root) code tests
                "target_function.py" framework = None) as ->.
      { destruct framework; try done. exfalso. apply Hfw. by eexists. }
      split; [split; done|]. intros _. split; done. }
  rewrite bind_run.
  destruct (fault_injections_scores (mutated o) (test_runs root) code tests framework
              (seq 0 (Z.to_nat K)) f1) as (f2 & -> & (Hp & Hc & Hf)).
  unfold set_results. st_simpl. eexists _, _. split; [done|]. cbn.
  split.
  - destruct Hgraded as [Hpass Hfp]. split; cbn; congruence.
  - intros Hwf. cbn. rewrite Hc. by apply Hcov.
Qed.

(** [evaluate_tests] once parts 1 and 2 are run. *)
Lemma evaluate_tests_steps limit o root code tests test_spec K (w : storage * rng) :
  match settings test_spec with
  | Raise e =>
    fitness_evaluator_yaml.evaluate_tests limit o root code tests test_spec K w
    = (Raises (Error e), w)
  | Ok (min_coverage_spec, framework) =>
    ∃ r w',
      fitness_evaluator_yaml.evaluate_tests limit o root code tests test_spec K w
      = (score ← fitness_evaluator_yaml.calculate_total_score r min_coverage_spec;
         of_result (format limit min_coverage_spec) ;;
         mret (with_total_score score r), w')
      ∧ graded (fitness_evaluator_yaml.sandbox_exit (correct o) (test_runs root) code
                  tests "target_function.py" framework) r
      ∧ (counts_nonneg -> (0 <= code_coverage_percentage r <= 100)%Q)
  end.
Proof.
  unfold fitness_evaluator_yaml.evaluate_tests, evaluate_tests_body.
  destruct (settings test_spec) as [[min_coverage_spec framework]|e]; [|by destruct w].
  destruct (sandboxes_run o root code tests framework K w) as (r & f' & Hrun & Hg & Hcov).
  exists r, (fs f', random f'). split; [|done].
  unfold mbind at 1, SO_bind at 1, of_outcome at 1. cbn [of_result].
  unfold mbind at 1, SO_bind at 1, of_ST at 1. rewrite Hrun. cbn [of_result].
  unfold mbind at 1, SO_bind at 1, of_outcome at 1.
  destruct (fitness_evaluator_yaml.calculate_total_score r min_coverage_spec)
    as [score|x]; [|done].
  unfold mbind at 1, SO_bind at 1, of_outcome at 1.
  destruct (format limit min_coverage_spec); done.
Qed.

Lemma format_cases limit v :
  format limit v = Ok tt ∧ has_long_int limit v = false
  ∨ ∃ e, format limit v = Raise e ∧ exn_cls e = ValueError ∧ has_long_int limit v = true.
Proof.
  unfold format. destruct (has_long_int limit v); [right; by eexists|by left].
Qed.

(** X12.  What [evaluate_tests] raises, for any object as the
    specification (the line counts of coverage reports not being
    negative).  The reads of lines 35 and 36 raise [AttributeError] for a
    document, or a section [test_specifications], that is not a
    dictionary, before anything is done.  Otherwise, when the suite exits
    with status 0 on the correct function, a minimum coverage that is not
    a number raises [TypeError] and one that is an integer of at least
    [2^1024 - 2^970] raises [OverflowError]; failing these, a minimum
    coverage whose text holds an integer of more digits than the limit of
    the interpreter raises [ValueError]; and in every other case a report
    is returned, whatever the framework is and whatever fails in the
    sandboxes. *)
Theorem evaluation_raises (int_max_str_digits : Z) (o : surroundings)
    (project_root_dir code tests : string) (test_spec : yaml.value)
    (num_fault_injections : Z) (w : storage * rng) :
  counts_nonneg ->
  let run :=
    fitness_evaluator_yaml.evaluate_tests int_max_str_digits o project_root_dir code
      tests test_spec num_fault_injections w in
  match settings test_spec with
  | Raise e => run = (Raises (Error e), w) ∧ exn_cls e = AttributeError
  | Ok (min_coverage_spec, framework) =>
    let passed :=
      bool_decide (fitness_evaluator_yaml.sandbox_exit (correct o)
                     (test_runs project_root_dir) code tests "target_function.py"
                     framework = Some 0) in
    let too_long := has_long_int int_max_str_digits min_coverage_spec in
    match min_coverage_spec with
    | yaml.Bool _ | yaml.Float _ => ∃ report, run.1 = Returns report
    | yaml.Int z =>
      if passed && bool_decide (2 ^ 1024 - 2 ^ 970 <= z)
      then run.1 = Raises (OverflowError "int too large to convert to float")
      else if too_long then ∃ e, run.1 = Raises (Error e) ∧ exn_cls e = ValueError
      else ∃ report, run.1 = Returns report
    | v =>
      if passed
      then run.1 = Raises (Error (Exception TypeError
                     ("'<' not supported between instances of 'float' and '"
                        +:+ yaml.type_name (Some v) +:+ "'")))
      else if too_long then ∃ e, run.1 = Raises (Error e) ∧ exn_cls e = ValueError
      else ∃ report, run.1 = Returns report
    end
  end.
Proof.
  intros Hwf run. subst run.
  pose proof (evaluate_tests_steps int_max_str_digits o project_root_dir code tests
                test_spec num_fault_injections w) as Hrun.
  destruct (settings test_spec) as [[min_coverage_spec framework]|e] eqn:Hsettings.
  2:{ split; [exact Hrun|]. by apply settings_raise in Hsettings as [? _]. }
  destruct Hrun as (r & w' & -> & [Hpass Hfp] & Hcov). specialize (Hcov Hwf).
  cbn [fst]. cbn zeta.
  set (exit := fitness_evaluator_yaml.sandbox_exit _ _ _ _ _ _) in *.
  assert (∀ score : Q,
            (if has_long_int int_max_str_digits min_coverage_spec
             then ∃ e, (of_result (format int_max_str_digits min_coverage_spec) ;;
                        mret (with_total_score score r)) = Raises (Error e)
                       ∧ exn_cls e = ValueError
             else ∃ report, (of_result (format int_max_str_digits min_coverage_spec) ;;
                             mret (with_total_score score r)) = Returns report))
    as Hformat.
  { intros score. unfold format.
    destruct (has_long_int int_max_str_digits min_coverage_spec); by eexists. }
  unfold fitness_evaluator_yaml.calculate_total_score. rewrite Hpass.
  case_bool_decide as Hexit.
  2:{ rewrite decide_False by done. change (Qeq_bool 0 100) with false.
      cbn [andb]. cbn [mbind outcome_bind mret outcome_ret].
      destruct min_coverage_spec; cbn [andb]; try apply Hformat;
        (edestruct Hformat as [report Hreport]; exists report; exact Hreport). }
  rewrite decide_True by done. change (Qeq_bool 100 100) with true. cbn [andb].
  destruct min_coverage_spec as [|b|z|y|s|items|items]; try reflexivity.
  - cbn [float_lt of_result minus_float]. cbn [mbind outcome_bind mret outcome_ret].
    destruct (Qlt_le_dec _ _); cbn [mbind outcome_bind mret outcome_ret];
      (edestruct Hformat as [report Hreport]; exists report; exact Hreport).
  - cbn [float_lt of_result minus_float]. cbn [mbind outcome_bind mret outcome_ret].
    unfold int_to_float.
    case_bool_decide as Hbig.
    + destruct (Qlt_le_dec _ _) as [Hlt|Hle].
      * rewrite binary64_facts.int_too_large by lia. by rewrite bool_decide_true.
      * exfalso. apply (Qlt_irrefl 100). eapply Qlt_le_trans; [|apply Hcov].
        eapply Qlt_le_trans; [|exact Hle].
        change 100%Q with (inject_Z 100). rewrite <- Zlt_Qlt. lia.
    + destruct (Qlt_le_dec _ _) as [Hlt|Hle].
      * assert (0 <= z) as Hz.
        { assert (inject_Z 0 < inject_Z z)%Q as Hc
            by (eapply Qle_lt_trans; [apply Hcov|exact Hlt]).
          rewrite <- Zlt_Qlt in Hc. lia. }
        rewrite binary64_facts.int_too_large by done. rewrite bool_decide_false by done.
        cbn [mbind outcome_bind mret outcome_ret]. apply Hformat.
      * cbn [mbind outcome_bind mret outcome_ret]. apply Hformat.
  - cbn [float_lt of_result minus_float]. cbn [mbind outcome_bind mret outcome_ret].
    destruct (Qlt_le_dec _ _); cbn [mbind outcome_bind mret outcome_ret];
      (edestruct Hformat as [report Hreport]; exists report; exact Hreport).
Qed.

End with_runtime.
End fitness_evaluator_yaml_facts.

(** ** The run on any document *)
Module evolution_orchestrator_yaml_facts.
Import testing_env fitness_evaluator evolution_orchestrator errors
  fitness_evaluator_yaml fitness_evaluator_yaml_facts evolution_orchestrator_yaml.

#[local] Arguments fitness_evaluator_yaml.evaluate_tests : simpl never.

Lemma so_bind_run {S A B} (m : SO S A) (f : A -> SO S B) (s : S) :
  (m ≫= f) s = match m s with
               | (Returns a, s') => f a s'
               | (Raises x, s') => (Raises x, s')
               end.
Proof. reflexivity. Qed.

Lemma calculate_total_score_raise r min_coverage_spec x :
  fitness_evaluator_yaml.calculate_total_score r min_coverage_spec = Raises x ->
  of_scoring x.
Proof.
  unfold fitness_evaluator_yaml.calculate_total_score.
  destruct (Qeq_bool _ _); [|done].
  destruct min_coverage_spec as [|b|z|y|s|items|items];
    cbn [float_lt of_result minus_float mbind outcome_bind mret outcome_ret];
    try (intros [= <-]; right; by eexists).
  - by destruct (Qlt_le_dec _ _).
  - destruct (Qlt_le_dec _ _); [|done]. unfold int_to_float.
    destruct (binary64.too_large _); [|done].
    cbn [mbind outcome_bind]. intros [= <-]. by left.
  - by destruct (Qlt_le_dec _ _).
Qed.

Lemma func_name_raise parsed e :
  func_name parsed = Raise e -> exn_cls e = AttributeError.
Proof.
  unfold func_name.
  destruct (fitness_evaluator_yaml.dict_get parsed _ _) as [info|e'] eqn:Hinfo; cbn.
  - intros Hname. by apply dict_get_raise in Hname as [-> _].
  - intros [= <-]. by apply dict_get_raise in Hinfo as [-> _].
Qed.

Section with_runtime.
Context `{Runtime}.

Lemma evaluate_tests_raise_classes limit o root code tests test_spec K (w w' : storage * rng) x :
  fitness_evaluator_yaml.evaluate_tests limit o root code tests test_spec K w
    = (Raises x, w') ->
  of_evaluation x.
Proof.
  pose proof (evaluate_tests_steps limit o root code tests test_spec K w) as Hrun.
  destruct (settings test_spec) as [[min_coverage_spec framework]|e] eqn:Hsettings.
  2:{ rewrite Hrun. intros [= <- _]. right. eexists. split; [done|].
      left. by apply settings_raise in Hsettings as [? _]. }
  destruct Hrun as (r & w1 & -> & _).
  destruct (fitness_evaluator_yaml.calculate_total_score r min_coverage_spec)
    as [score|x'] eqn:Hscore; cbn [mbind outcome_bind].
  2:{ intros [= <- _]. left. by eapply calculate_total_score_raise. }
  destruct (format_cases limit min_coverage_spec) as [[-> _]|(e & -> & Hcls & _)]; [done|].
  intros [= <- _]. right. eexists. split; [done|]. by right.
Qed.

Lemma evaluate_tests_returns_settings limit o root code tests test_spec K
    (w w' : storage * rng) r :
  fitness_evaluator_yaml.evaluate_tests limit o root code tests test_spec K w
    = (Returns r, w') ->
  ∃ min_coverage_spec framework,
    settings test_spec = Ok (min_coverage_spec, framework)
    ∧ format limit min_coverage_spec = Ok tt.
Proof.
  pose proof (evaluate_tests_steps limit o root code tests test_spec K w) as Hrun.
  destruct (settings test_spec) as [[min_coverage_spec framework]|e] eqn:Hsettings.
  2:{ by rewrite Hrun. }
  destruct Hrun as (r1 & w1 & -> & _).
  destruct (fitness_evaluator_yaml.calculate_total_score r1 min_coverage_spec)
    as [score|x'] eqn:Hscore; cbn [mbind outcome_bind]; [|done].
  destruct (format_cases limit min_coverage_spec) as [[Hf _]|(e & -> & Hcls & _)]; [|done].
  intros _. by eexists _, _.
Qed.

Lemma evaluate_tests_raise_later limit o root code tests test_spec K
    (w w' : storage * rng) x min_coverage_spec framework :
  settings test_spec = Ok (min_coverage_spec, framework) ->
  format limit min_coverage_spec = Ok tt ->
  fitness_evaluator_yaml.evaluate_tests limit o root code tests test_spec K w
    = (Raises x, w') ->
  of_scoring x.
Proof.
  intros Hsettings Hformat.
  pose proof (evaluate_tests_steps limit o root code tests test_spec K w) as Hrun.
  rewrite Hsettings in Hrun. destruct Hrun as (r & w1 & -> & _).
  destruct (fitness_evaluator_yaml.calculate_total_score r min_coverage_spec)
    as [score|x'] eqn:Hscore; cbn [mbind outcome_bind].
  2:{ intros [= <- _]. by eapply calculate_total_score_raise. }
  by rewrite Hformat.
Qed.

Lemma save_generation_data_run c gen tests fitness status (st : state) :
  ∃ st1, current_best_fitness st1.1 = current_best_fitness st.1
         ∧ st1.2 = st.2
         ∧ evolution_orchestrator_yaml._save_generation_data c gen tests fitness status st
           = (match save_fault c gen with
              | Some e => Raises (Error e)
              | None => Returns tt
              end, st1).
Proof.
  unfold evolution_orchestrator_yaml._save_generation_data. rewrite so_bind_run.
  unfold of_ST, evolution_orchestrator._save_generation_data, modify. cbn [of_result].
  eexists. split; [|split]; [| |by destruct (save_fault c gen)]; done.
Qed.

(** What raises in a generation after the first, on an orchestrator that
    holds a best suite. *)
Lemma next_generation_cases limit c root code parsed gen (st st' : state) result
    min_coverage_spec framework :
  settings parsed = Ok (min_coverage_spec, framework) ->
  format limit min_coverage_spec = Ok tt ->
  is_Some (current_best_fitness st.1) ->
  evolution_orchestrator_yaml.next_generation limit c root code parsed gen st
    = (result, st') ->
  match result with
  | Returns _ => is_Some (current_best_fitness st'.1)
  | Raises x =>
    (∃ feedback suite w,
       generate_tests (agents c) gen feedback = Ok suite
       ∧ fitness_evaluator_yaml.evaluate_tests limit (evaluation (agents c) gen) root
           code suite parsed 3 w = (Raises x, st'.2)
       ∧ of_scoring x)
    ∨ ∃ e, save_fault c gen = Some e ∧ x = Error e
  end.
Proof.
  intros Hsettings Hformat [best Hbest].
  unfold evolution_orchestrator_yaml.next_generation.
  rewrite so_bind_run. unfold of_ST at 1, gets. cbn [of_result]. rewrite Hbest.
  rewrite so_bind_run.
  destruct (generate_tests (agents c) gen (Some best)) as [suite|e] eqn:Hgen.
  2:{ destruct (save_generation_data_run c gen "ERROR_GENERATION" None "error" st)
        as (st1 & Hb1 & _ & ->).
      intros [= <- <-]. destruct (save_fault c gen) as [e'|].
      - right. by eexists.
      - rewrite Hb1, Hbest. by eexists. }
  rewrite so_bind_run.
  destruct (fitness_evaluator_yaml.evaluate_tests limit (evaluation (agents c) gen) root code
              suite parsed 3 st.2) as [[fitness|x] w1] eqn:Heval.
  2:{ intros [= <- <-]. left. exists (Some best), suite, st.2. split; [done|].
      split; [exact Heval|]. by eapply evaluate_tests_raise_later. }
  rewrite so_bind_run. unfold of_ST at 1, gets. cbn [of_result fst]. rewrite Hbest.
  unfold get_total_score. rewrite so_bind_run. cbn [mret SO_ret].
  destruct (Qlt_le_dec _ _).
  - rewrite so_bind_run. unfold of_ST at 1, set_best, modify. cbn [of_result].
    match goal with |- context [evolution_orchestrator_yaml._save_generation_data ?c ?g ?t ?fit ?s ?st] =>
      destruct (save_generation_data_run c g t fit s st) as (st1 & Hb1 & _ & ->) end.
    intros [= <- <-]. destruct (save_fault c gen) as [e'|].
    + right. by eexists.
    + rewrite Hb1. by eexists.
  - match goal with |- context [evolution_orchestrator_yaml._save_generation_data ?c ?g ?t ?fit ?s ?st] =>
      destruct (save_generation_data_run c g t fit s st) as (st1 & Hb1 & _ & ->) end.
    intros [= <- <-]. destruct (save_fault c gen) as [e'|].
    + right. by eexists.
    + rewrite Hb1. cbn. rewrite Hbest. by eexists.
Qed.

Lemma generations_cases limit c root code parsed min_coverage_spec framework :
  settings parsed = Ok (min_coverage_spec, framework) ->
  format limit min_coverage_spec = Ok tt ->
  ∀ gens (st st' : state) x,
  is_Some (current_best_fitness st.1) ->
  for_every gens (evolution_orchestrator_yaml.next_generation limit c root code parsed) st
    = (Raises x, st') ->
  ∃ gen, gen ∈ gens
    ∧ ((∃ feedback suite w,
          generate_tests (agents c) gen feedback = Ok suite
          ∧ fitness_evaluator_yaml.evaluate_tests limit (evaluation (agents c) gen) root
              code suite parsed 3 w = (Raises x, st'.2)
          ∧ of_scoring x)
       ∨ ∃ e, save_fault c gen = Some e ∧ x = Error e).
Proof.
  intros Hsettings Hformat. induction gens as [|gen gens IH]; intros st st' x Hbest.
  - done.
  - cbn [for_every]. rewrite so_bind_run.
    destruct (evolution_orchestrator_yaml.next_generation limit c root code parsed gen st)
      as [[[]|x1] st1] eqn:Hgen.
    + eapply next_generation_cases in Hgen; [|done..]. intros Hrest.
      destruct (IH _ _ _ Hgen Hrest) as (gen' & Hin & Hcase).
      exists gen'. split; [|done]. by apply elem_of_cons; right.
    + eapply next_generation_cases in Hgen; [|done..]. intros [= <- <-].
      exists gen. split; [|done]. by apply elem_of_cons; left.
Qed.

Lemma initial_generation_cases limit c root code parsed (st st' : state) result :
  evolution_orchestrator_yaml.initial_generation limit c root code parsed st
    = (result, st') ->
  match result with
  | Returns _ =>
    is_Some (current_best_fitness st'.1)
    ∧ ∃ min_coverage_spec framework,
        settings parsed = Ok (min_coverage_spec, framework)
        ∧ format limit min_coverage_spec = Ok tt
  | Raises x =>
    (∃ e, generate_tests (agents c) 0 None = Raise e ∧ x = Error e ∧ st' = st)
    ∨ (∃ suite,
         generate_tests (agents c) 0 None = Ok suite
         ∧ fitness_evaluator_yaml.evaluate_tests limit (evaluation (agents c) 0) root
             code suite parsed 3 st.2 = (Raises x, st'.2)
         ∧ of_evaluation x)
    ∨ ∃ e, save_fault c 0%nat = Some e ∧ x = Error e
  end.
Proof.
  unfold evolution_orchestrator_yaml.initial_generation.
  rewrite so_bind_run. unfold of_ST at 1, call_generator.
  destruct (generate_tests (agents c) 0 None) as [suite|e] eqn:Hgen; cbn [of_result].
  2:{ intros [= <- <-]. left. by eexists. }
  rewrite so_bind_run.
  destruct (fitness_evaluator_yaml.evaluate_tests limit (evaluation (agents c) 0) root code
              suite parsed 3 st.2) as [[fitness|x] w1] eqn:Heval.
  2:{ intros [= <- <-]. right. left. exists suite. split; [done|].
      split; [exact Heval|]. by eapply evaluate_tests_raise_classes. }
  rewrite so_bind_run. unfold of_ST at 1, set_best, modify. cbn [of_result].
  match goal with |- context [evolution_orchestrator_yaml._save_generation_data ?c ?g ?t ?fit ?s ?st] =>
    destruct (save_generation_data_run c g t fit s st) as (st1 & Hb1 & _ & ->) end.
  intros [= <- <-]. destruct (save_fault c 0%nat) as [e'|].
  - right. right. by eexists.
  - split; [rewrite Hb1; by eexists|]. by eapply evaluate_tests_returns_settings.
Qed.

(** X19.  What [evolve_tests] raises.  An exception that leaves it
    is the one [yaml.safe_load] raised on the text of the specification;
    or the [AttributeError] of line 55, for a document or a section
    [target_function_info] that is not a dictionary, or the [ValueError]
    of line 56, for a name whose text holds an integer of more digits
    than the limit of the interpreter; or the one the suite generator
    raised in generation 0; or one raised by the evaluation of a suite
    that the generator returned, which after generation 0 is an exception
    of the scoring step, [TypeError] or [OverflowError]; or the one raised
    when the files of a generation were written.  In the first three cases
    nothing has been done.  An exception of the suite generator after
    generation 0 never leaves [evolve_tests]. *)
Theorem run_raises (int_max_str_digits : Z) (c : outside)
    (project_root_dir code gsd_spec_yaml : string) (max_generations : Z)
    (st st' : state) (x : raised) :
  evolution_orchestrator_yaml.evolve_tests int_max_str_digits c project_root_dir code
    gsd_spec_yaml max_generations st = (Raises x, st') ->
  (safe_load c gsd_spec_yaml = Raises x ∧ st' = st)
  ∨ ∃ parsed, safe_load c gsd_spec_yaml = Returns parsed
    ∧ ((∃ e, x = Error e ∧ st' = st
             ∧ (func_name parsed = Raise e ∧ exn_cls e = AttributeError
                ∨ ∃ name, func_name parsed = Ok name
                          ∧ format int_max_str_digits name = Raise e
                          ∧ exn_cls e = ValueError))
       ∨ (∃ e, x = Error e ∧ st' = st ∧ generate_tests (agents c) 0 None = Raise e)
       ∨ (∃ gen feedback suite w,
            (gen <= Z.to_nat max_generations)%nat
            ∧ generate_tests (agents c) gen feedback = Ok suite
            ∧ fitness_evaluator_yaml.evaluate_tests int_max_str_digits
                (evaluation (agents c) gen) project_root_dir code suite parsed 3 w
              = (Raises x, st'.2)
            ∧ if decide (gen = 0%nat) then of_evaluation x else of_scoring x)
       ∨ ∃ gen e, (gen <= Z.to_nat max_generations)%nat
                  ∧ save_fault c gen = Some e ∧ x = Error e).
Proof.
  unfold evolution_orchestrator_yaml.evolve_tests.
  rewrite so_bind_run. unfold of_outcome at 1.
  destruct (safe_load c gsd_spec_yaml) as [parsed|x0] eqn:Hload.
  2:{ intros [= <- <-]. by left. }
  intros Hrun. right. exists parsed. split; [done|]. revert Hrun.
  rewrite so_bind_run. unfold of_outcome at 1.
  destruct (func_name parsed) as [name|e] eqn:Hname; cbn [of_result].
  2:{ intros [= <- <-]. left. exists e. split; [done|]. split; [done|].
      left. split; [done|]. by eapply func_name_raise. }
  rewrite so_bind_run. unfold of_outcome at 1.
  destruct (format_cases int_max_str_digits name) as [[Hf _]|(e & Hf & Hcls & _)];
    rewrite Hf; cbn [of_result].
  2:{ intros [= <- <-]. left. exists e. split; [done|]. split; [done|].
      right. by exists name. }
  rewrite so_bind_run.
  destruct (evolution_orchestrator_yaml.initial_generation int_max_str_digits c
              project_root_dir code parsed st) as [[[]|x0] st0] eqn:Hinit;
    apply initial_generation_cases in Hinit.
  2:{ intros [= <- <-]. right.
      destruct Hinit as [(e & Hgen & -> & ->)|[(suite & Hgen & Heval & Hcls)|(e & Hs & ->)]].
      - left. by exists e.
      - right. left. exists 0%nat, None, suite, st.2.
        split; [lia|]. split; [done|]. split; [done|]. by rewrite decide_True.
      - right. right. exists 0%nat, e. split; [lia|]. done. }
  destruct Hinit as (Hbest & m & fw & Hsettings & Hformat).
  rewrite so_bind_run.
  destruct (for_every _ _ st0) as [[[]|x1] st1] eqn:Hloop.
  { done. }
  intros [= <- <-]. right. right.
  destruct (generations_cases _ _ _ _ _ _ _ Hsettings Hformat _ _ _ _ Hbest Hloop)
    as (gen & Hin & Hcase).
  apply elem_of_seq in Hin.
  destruct Hcase as [(feedback & suite & w & Hgen & Heval & Hcls)|(e & Hs & ->)].
  - left. exists gen, feedback, suite, w. split; [lia|]. split; [done|].
    split; [done|]. rewrite decide_False by lia. done.
  - right. exists gen, e. split; [lia|]. done.
Qed.

End with_runtime.
End evolution_orchestrator_yaml_facts.

(** ** Paths *)
Module os_path_facts.
Import os_path.

Example dirname_examples :
  map dirname ["x.py"; "a/x.py"; "/x.py"; "a//x.py"; "//x"; "a/b/"]
  = [""; "a"; "/"; "a"; "//"; "a/b"].
Proof. vm_compute. reflexivity. Qed.

Example join_examples :
  [join "/tmp/" "x.py"; join "" "x.py"; join "a" "/x.py"; join "." "x.py"]
  = ["/tmp/x.py"; "x.py"; "/x.py"; "./x.py"].
Proof. vm_compute. reflexivity. Qed.

Lemma contains_sep_cons (c : ascii) (p : string) :
  py.contains "/" (String c p) = Ascii.eqb c sep || py.contains "/" p.
Proof.
  unfold py.contains.
  change (index 0 "/" (String c p))
    with (if String.prefix "/" (String c p) then Some 0%nat
          else match index 0 "/" p with Some n => Some (S n) | None => None end).
  change (String.prefix "/" (String c p))
    with (if ascii_dec "/" c then String.prefix "" p else false).
  destruct (ascii_dec "/" c) as [<-|Hne].
  - by destruct p.
  - assert (Ascii.eqb c sep = false) as ->.
    { apply Ascii.eqb_neq. by intros ->. }
    cbn [orb]. by destruct (index 0 "/" p).
Qed.

(** A path without separator has no directory part. *)
Lemma dirname_without_sep (p : string) : py.contains "/" p = false -> dirname p = "".
Proof.
  intros Hp. assert (head p = "") as Hhead.
  { destruct p as [|c p]; [done|]. rewrite contains_sep_cons in Hp.
    apply orb_false_iff in Hp as [Hc Hp]. cbn. by rewrite Hp, Hc. }
  unfold dirname. by rewrite Hhead.
Qed.

End os_path_facts.

(** ** The tools of the agent *)
Module tools_facts.
Import testing_env tools.

Section with_host.
Variable h : host.

(** X21.  [WritePythonFileTool]: for a path without directory part
    the tool writes nothing and returns the text of the error that
    [os.makedirs] raises for the empty path, whatever the machine is. *)
Theorem write_needs_a_directory_part (file_path content : string) (m : machine) :
  py.contains "/" file_path = false ->
  write_python_file h file_path content m
  = (Ok ("Error writing to file " +:+ file_path
           +:+ ": [Errno 2] No such file or directory: ''"), m).
Proof.
  intros Hplain. unfold write_python_file, try_except.
  rewrite bind_run. unfold makedirs.
  rewrite (os_path_facts.dirname_without_sep _ Hplain). done.
Qed.

Lemma universal_newlines_without_cr (text : string) :
  has_cr text = false -> universal_newlines text = text.
Proof.
  induction text as [|c rest IH]; [done|]. cbn [has_cr universal_newlines].
  intros [Hc Hrest]%orb_false_iff. rewrite Hc. by rewrite IH.
Qed.

(** X22.  [WritePythonFileTool] and [ReadPythonFileTool]: when the
    write tool reports success, the file holds the content and no process
    was started; the read tool, if the file may be read, returns the
    content with every carriage return, together with the line feed behind
    it if there is one, read as one line feed: the content itself if it
    has no carriage return. *)
Theorem written_file_reads_back (file_path content : string) (m m' : machine) :
  write_python_file h file_path content m
    = (Ok ("Successfully wrote to " +:+ file_path), m') ->
  files m' !! file_path = Some content
  ∧ started m' = started m
  ∧ (refuses h Reading file_path = None ->
     read_python_file h file_path m' = (Ok (universal_newlines content), m')
     ∧ (has_cr content = false -> read_python_file h file_path m' = (Ok content, m'))).
Proof.
  unfold write_python_file, read_python_file, try_except, makedirs, write_file, read_file.
  rewrite !bind_run.
  case_bool_decide; [by intros [= ? _]|].
  destruct (files m !! os_path.dirname file_path); [by intros [= ? _]|].
  destruct (refuses h Making (os_path.dirname file_path)); [by intros [= ? _]|].
  rewrite !bind_run.
  destruct (refuses h Writing file_path) eqn:Hfile; [by intros [= ? _]|].
  intros [= <-]. cbn. rewrite lookup_insert_eq. split; [done|]. split; [done|].
  intros ->. split; [done|]. intros Hcr. by rewrite universal_newlines_without_cr.
Qed.

(** X23.  On a machine that lets the script be written and
    removed, [ExecutePythonCodeTool] returns a text in every case, and
    removes the script it wrote only when the process returned: when the
    process raises, for instance by running into its time limit, the files
    are as the process left them, the script included, and for
    [TimeoutExpired] the text is the time-out message; when the process
    returns, the script is gone, and the text is the report of the process
    if the process left the script in place. *)
Theorem script_removed_only_after_completion (code working_dir : string) (m : machine) :
  let temp_script_path := os_path.join working_dir "__temp_exec_script__.py" in
  let command := ["python"; temp_script_path] in
  let after := process h command working_dir (<[temp_script_path := code]> (files m)) in
  refuses h Writing temp_script_path = None ->
  refuses h Removing temp_script_path = None ->
  ∃ text,
    execute_python_code h code working_dir m
    = (Ok text,
       {| files := match after.1 with
                   | Ok _ => delete temp_script_path after.2
                   | Raise _ => after.2
                   end;
          started := started m ++ [command] |})
    ∧ match after.1 with
      | Ok result => is_Some (after.2 !! temp_script_path) -> text = report result
      | Raise e =>
        exn_cls e = TimeoutExpired -> text = "Error: Code execution timed out."
      end.
Proof.
  intros temp command after Hwrite Hremove. subst after.
  unfold execute_python_code, try_except, write_file, subprocess_run, remove.
  fold temp. fold command. rewrite !bind_run. rewrite Hwrite.
  unfold set_files at 1 2. cbn [files started]. rewrite ?bind_run.
  destruct (process h command working_dir _) as [[result|e] files'];
    cbn [fst snd files started].
  - rewrite ?bind_run. cbn [files].
    destruct (files' !! temp) as [text|] eqn:Htemp.
    + rewrite Hremove. cbn. eexists. split; [done|]. done.
    + cbn. rewrite delete_id by done.
      eexists. split; [reflexivity|]. by intros [? ?].
  - destruct (exn_cls e) eqn:Hcls; cbn; eexists; (split; [reflexivity|]); done.
Qed.

(** X24.  [RunTestsTool] returns a text in every case.  For a
    framework other than pytest and unittest (in any case of letters) the
    text is the error message and neither a process is started nor a file
    changed; otherwise exactly one process is started, with the path of
    the test file in its command. *)
Theorem run_tests_tool_outcome (test_file_path framework : string) (m : machine) :
  ∃ text m',
    tools.run_tests h test_file_path framework m = (Ok text, m')
    ∧ (¬ supported framework ->
         text = "Error: Unsupported framework '" +:+ framework +:+ "'." ∧ m' = m)
    ∧ (supported framework ->
         ∃ command, started m' = started m ++ [command] ∧ test_file_path ∈ command).
Proof.
  unfold tools.run_tests, try_except, supported, isfile, subprocess_run.
  destruct (decide (py.lower framework = "pytest")) as [Hfw|Hfw];
    [|destruct (decide (py.lower framework = "unittest")) as [Hfw'|Hfw']].
  - rewrite !bind_run. cbn [gets]. rewrite !bind_run.
    destruct (process h _ _ _) as [[result|e] files'].
    + eexists _, _. split; [reflexivity|]. split; [by intros []; left|].
      intros _. eexists. split; [reflexivity|]. apply elem_of_cons. right. left.
    + destruct (exn_cls e); eexists _, _; (split; [reflexivity|]);
        (split; [by intros []; left|]); intros _; eexists; (split; [reflexivity|]);
        apply elem_of_cons; right; left.
  - rewrite !bind_run. cbn [gets]. rewrite !bind_run.
    destruct (process h _ _ _) as [[result|e] files'].
    + eexists _, _. split; [reflexivity|]. split; [by intros []; right|].
      intros _. eexists. split; [reflexivity|]. do 3 (apply elem_of_cons; right). left.
    + destruct (exn_cls e); eexists _, _; (split; [reflexivity|]);
        (split; [by intros []; right|]); intros _; eexists; (split; [reflexivity|]);
        do 3 (apply elem_of_cons; right); left.
  - eexists _, _. split; [reflexivity|]. split; [done|]. by intros [|].
Qed.

End with_host.
End tools_facts.

(** ** The workflow *)
Module main_orchestrator_facts.
Import spec_parser main_orchestrator.

Section workflow.
Context {W R : Type}.
Implicit Types (c : @collaborators W R) (w : W).

(** X25.  [run_evolution_workflow] returns [None] and leaves
    everything as it was, without making an orchestrator or starting a
    run, when the specification cannot be loaded, when it names no source
    code (or an empty one), and when the model it names is not a text or
    has none of the known providers. *)
Theorem unusable_specification_starts_no_run (h : host) c
    (gsd_spec_file_path : string) (max_generations : Z) w :
  unusable h gsd_spec_file_path ->
  run_evolution_workflow h c gsd_spec_file_path max_generations w = (Returns None, w).
Proof.
  unfold unusable, run_evolution_workflow, load.
  destruct (load_spec h gsd_spec_file_path) as [full_spec|r]; [|done].
  destruct (dump c full_spec) as [text|r]; [|done].
  intros [(code & -> & Hcode)|(code & llm_model_name & -> & -> & Hname)].
  - destruct code as [code|]; [|done]. by rewrite Hcode.
  - destruct code as [code|]; [|done]. destruct (yaml.truthy (Some code)); [|done].
    cbn [negb]. unfold new_orchestrator.
    destruct llm_model_name as [[]|]; try done. by destruct Hname as [e ->].
Qed.

(** X26.  When [run_evolution_workflow] raises, either the evolution
    run raised that exception, on source code taken from a specification
    that was loaded; or nothing was done and the exception is the
    [AttributeError] of [.get] on a [target_function_info] or
    [llm_configuration] section that is not a dictionary. *)
Theorem workflow_raises_what_the_run_raises (h : host) c
    (gsd_spec_file_path : string) (max_generations : Z) w w' (r : raised) :
  run_evolution_workflow h c gsd_spec_file_path max_generations w = (Raises r, w') ->
  (∃ full_spec code text w1,
     load_spec h gsd_spec_file_path = Returns full_spec
     ∧ field full_spec "target_function_info" "source_code" None = Returns (Some code)
     ∧ yaml.truthy (Some code) = true
     ∧ evolve_tests c code text max_generations w1 = (Raises r, w'))
  ∨ (w' = w
     ∧ ∃ full_spec section v,
         r = Error (yaml.no_attribute (Some v) "get")
         ∧ load_spec h gsd_spec_file_path = Returns full_spec
         ∧ section ∈ ["target_function_info"; "llm_configuration"]
         ∧ yaml.get section full_spec = Some v
         ∧ ∀ items, v ≠ yaml.Mapping items).
Proof.
  unfold run_evolution_workflow, load.
  destruct (load_spec h gsd_spec_file_path) as [full_spec|r0]; [|done].
  destruct (dump c full_spec) as [text|r0]; [|done].
  assert (∀ section key default r1,
            field full_spec section key default = Raises r1 ->
            ∃ v, r1 = Error (yaml.no_attribute (Some v) "get")
                 ∧ yaml.get section full_spec = Some v ∧ ∀ items, v ≠ yaml.Mapping items)
    as Hfield.
  { intros section key default r1. unfold field.
    destruct (yaml.get section full_spec) as [v|]; [|done].
    destruct v; try done; intros [= <-]; by eexists. }
  destruct (field full_spec "target_function_info" _ _) as [[code|]|r0] eqn:Hcode.
  - destruct (yaml.truthy (Some code)) eqn:Htruthy; [|done]. cbn [negb].
    destruct (field full_spec "llm_configuration" _ _) as [llm_model_name|r0] eqn:Hname.
    + destruct (new_orchestrator c llm_model_name w) as [[[]|r0] w1]; [|done].
      destruct (evolve_tests c code text max_generations w1) as [[final|r0] w2] eqn:Hrun;
        [done|].
      intros [= <- <-]. left. by exists full_spec, code, text, w1.
    + intros [= <- <-]. right. apply Hfield in Hname as (v & -> & Hv & Hnot).
      split; [done|]. exists full_spec, "llm_configuration", v.
      split; [done|]. split; [done|]. split; [|done]. apply elem_of_cons. right. left.
  - done.
  - intros [= <- <-]. right. apply Hfield in Hcode as (v & -> & Hv & Hnot).
    split; [done|]. exists full_spec, "target_function_info", v.
    split; [done|]. split; [done|]. split; [|done]. left.
Qed.

End workflow.

(** [load_spec] returns the dictionary of a readable file, and nothing
    else. *)
Lemma load_spec_wants_a_dictionary (h : host) (file_path : string)
    (full_spec : list (string * yaml.value)) :
  load_spec h file_path = Returns full_spec
  ↔ ∃ text, disk h file_path = Readable text
            ∧ safe_load h text = Returns (yaml.Mapping full_spec).
Proof.
  unfold load_spec. split.
  - destruct (disk h file_path) as [|text|e]; try done.
    destruct (safe_load h text) as [[]|[]] eqn:Hload; try done.
    intros [= <-]. by exists text.
  - intros (text & -> & ->). done.
Qed.

End main_orchestrator_facts.

(** ** The command line *)
Module cli_facts.
Import fitness_evaluator evolution_orchestrator cli.

Lemma append_assoc (a b c : string) : (a +:+ b) +:+ c = a +:+ (b +:+ c).
Proof.
  induction a as [|x a IH]; [reflexivity|].
  change (String x ((a +:+ b) +:+ c) = String x (a +:+ (b +:+ c))). by rewrite IH.
Qed.

Lemma append_empty_r (a : string) : a +:+ "" = a.
Proof.
  induction a as [|x a IH]; [reflexivity|].
  change (String x (a +:+ "") = String x a). by rewrite IH.
Qed.

(** Once inside the function, the loop appends lines until it ends at a
    line that starts a definition, or at the end of the file. *)
Lemma extract_inside (func_name : string) : ∀ lines (s : scan),
  in_function s = true ->
  ∃ block after,
    lines = block ++ after
    ∧ function_code (extract func_name lines s) = function_code s +:+ block_text block
    ∧ (after ≠ [] ->
       ∃ final, last block = Some final ∧ String.prefix "def " (py.strip final) = true).
Proof.
  induction lines as [|line rest IH]; intros s Hin.
  { exists [], []. cbn. by rewrite append_empty_r. }
  cbn [extract].
  set (s1 := if starts_function func_name line then _ else s).
  assert (in_function s1 = true) as Hin1 by (subst s1; by case_match).
  rewrite Hin1.
  set (s2 := {| function_code := function_code s1 +:+ line +:+ nl;
                in_function := true; indent_level := indent_level s1 |}).
  assert (function_code s1 = function_code s) as Hcode by (subst s1; by case_match).
  assert (∃ block after,
            rest = block ++ after
            ∧ function_code (extract func_name rest s2)
              = function_code s +:+ block_text (line :: block)
            ∧ (after ≠ [] ->
               ∃ final, last (line :: block) = Some final
                        ∧ String.prefix "def " (py.strip final) = true)) as Hrest.
  { destruct (IH s2 eq_refl) as (block & after & -> & Hext & Hlast).
    exists block, after. split; [done|]. split.
    - rewrite Hext. subst s2. cbn [function_code block_text]. rewrite Hcode.
      by rewrite !append_assoc.
    - intros Hafter. destruct (Hlast Hafter) as (final & Hfinal & Hdef).
      exists final. split; [|done]. destruct block; [done|]. done. }
  destruct Hrest as (block & after & -> & Hext & Hlast).
  destruct (_ && _ && _) eqn:Hstop.
  - destruct (String.prefix "def " (py.strip line)) eqn:Hdef; cbn [negb].
    + exists [line], (block ++ after). split; [done|]. split.
      * subst s2. cbn [function_code block_text]. rewrite Hcode.
        by rewrite append_empty_r.
      * intros _. by exists line.
    + exists (line :: block), after. done.
  - exists (line :: block), after. done.
Qed.

Lemma lstrip_blank (s : string) : blank s = true -> py.lstrip s = "".
Proof.
  induction s as [|c s IH]; [done|]. cbn. intros [Hc Hs]%andb_true_iff.
  rewrite Hc. by apply IH.
Qed.

Lemma lstrip_not_blank (s : string) :
  blank s = false -> ∃ c t, py.lstrip s = String c t ∧ py.isspace c = false.
Proof.
  induction s as [|c s IH]; [done|]. cbn. destruct (py.isspace c) eqn:Hc.
  - cbn. exact IH.
  - intros _. by exists c, s.
Qed.

Lemma rstrip_not_blank (c : ascii) (t : string) :
  py.isspace c = false -> py.rstrip (String c t) ≠ "".
Proof. intros Hc. cbn. destruct (py.rstrip t); [by rewrite Hc|done]. Qed.

Lemma strip_blank (s : string) : py.strip s = "" ↔ blank s = true.
Proof.
  unfold py.strip. split.
  - intros Hs. destruct (blank s) eqn:Hb; [done|].
    destruct (lstrip_not_blank s Hb) as (c & t & Heq & Hc). rewrite Heq in Hs.
    by apply rstrip_not_blank in Hs.
  - intros Hb. by rewrite lstrip_blank.
Qed.

Lemma blank_append (a b : string) : blank (a +:+ b) = blank a && blank b.
Proof.
  induction a as [|c a IH]; [done|].
  change (blank (String c (a +:+ b)) = blank (String c a) && blank b).
  cbn. by rewrite IH, andb_assoc.
Qed.

(** The line that starts the function is not blank. *)
Lemma starts_function_not_blank (func_name line : string) :
  starts_function func_name line = true -> blank line = false.
Proof.
  unfold starts_function. intros Hstart.
  destruct (blank line) eqn:Hb; [|done].
  apply strip_blank in Hb. rewrite Hb in Hstart. done.
Qed.

Lemma count_newlines_append (a b : string) :
  count_newlines (a +:+ b) = (count_newlines a + count_newlines b)%nat.
Proof.
  induction a as [|c a IH]; [done|].
  change (count_newlines (String c (a +:+ b))
          = (count_newlines (String c a) + count_newlines b)%nat).
  cbn [count_newlines]. rewrite IH. lia.
Qed.

Lemma prefix_append (a b t : string) :
  String.prefix (a +:+ b) t = true -> String.prefix a t = true.
Proof.
  revert t. induction a as [|c a IH]; intros t; [intros _; by destruct t|].
  change (String.prefix (String c (a +:+ b)) t = true -> String.prefix (String c a) t = true).
  destruct t as [|d t]; [done|]. cbn [String.prefix].
  destruct (ascii_dec c d); [apply IH|done].
Qed.

Lemma lstrip_length (line : string) :
  (String.length (py.lstrip line) <= String.length line)%nat.
Proof.
  induction line as [|c s IH]; [done|]. cbn. destruct (py.isspace c); cbn; lia.
Qed.

(** A line does not begin with more spaces than it has white space in
    front. *)
Lemma not_deeper_than_itself (line : string) (c : ascii) (t : string) :
  py.lstrip line = String c t -> py.isspace c = false ->
  String.prefix (spaces (indentation line + 1)) line = false.
Proof.
  intros Hl Hc. induction line as [|d s IH]; [done|].
  unfold indentation in *. cbn [py.lstrip] in Hl |- *.
  destruct (py.isspace d) eqn:Hd.
  - pose proof (lstrip_length s).
    replace (String.length (String d s) - String.length (py.lstrip s) + 1)%nat
      with (S (String.length s - String.length (py.lstrip s) + 1))%nat by (cbn; lia).
    cbn [spaces String.prefix]. destruct (ascii_dec " " d); [by apply IH|done].
  - injection Hl as -> ->. rewrite Nat.sub_diag.
    change (spaces (0 + 1)) with " ".
    change (String.prefix " " (String c t))
      with (if ascii_dec " " c then String.prefix "" t else false).
    destruct (ascii_dec " " c) as [<-|]; [vm_compute in Hc; discriminate|reflexivity].
Qed.

(** A line that starts the function ends the scan, once the scan has more
    than two lines. *)
Lemma starts_function_stops (func_name line : string) :
  starts_function func_name line = true ->
  py.strip line ≠ ""
  ∧ String.prefix (spaces (indentation line + 1)) line = false
  ∧ String.prefix "def " (py.strip line) = true.
Proof.
  intros Hstart. pose proof (starts_function_not_blank _ _ Hstart) as Hblank.
  split; [|split].
  - intros Hs. apply strip_blank in Hs. congruence.
  - destruct (lstrip_not_blank line Hblank) as (c & t & Hl & Hc).
    by eapply not_deeper_than_itself.
  - unfold starts_function in Hstart.
    change ("def " +:+ func_name +:+ "(") with ("def " +:+ (func_name +:+ "(")) in Hstart.
    by apply prefix_append in Hstart.
Qed.

(** The scan from the third line of the function on. *)
Lemma extract_others (func_name : string) (indent : nat) : ∀ others (s : scan),
  in_function s = true ->
  indent_level s = indent ->
  (2 <= count_newlines (function_code s))%nat ->
  function_code (extract func_name others s)
  = function_code s +:+ block_text (through (ends_function func_name indent) others).
Proof.
  induction others as [|line rest IH]; intros s Hin Hindent Hcount.
  { cbn. by rewrite append_empty_r. }
  cbn [extract through]. unfold ends_function at 1.
  destruct (starts_function func_name line) eqn:Hstart; cbn [in_function orb].
  - destruct (starts_function_stops _ _ Hstart) as (Hne & Hdeep & Hdef).
    cbn [function_code indent_level]. fold (indentation line).
    rewrite Hdeep, Hdef, (bool_decide_false _ Hne). cbn [negb andb].
    rewrite !count_newlines_append.
    match goal with |- context [(2 <? ?x)%nat] =>
      assert ((2 <? x)%nat = true) as ->
        by (apply Nat.ltb_lt; change (count_newlines nl) with 1%nat; lia) end.
    cbn [andb function_code block_text]. by rewrite ?append_empty_r, ?append_assoc.
  - rewrite Hin. cbn [function_code indent_level in_function]. rewrite Hindent.
    rewrite !count_newlines_append.
    match goal with |- context [(2 <? ?x)%nat] =>
      assert ((2 <? x)%nat = true) as ->
        by (apply Nat.ltb_lt; change (count_newlines nl) with 1%nat; lia) end.
    cbn [andb].
    destruct (negb (bool_decide (py.strip line = ""))
              && negb (String.prefix (spaces (indent + 1)) line)) eqn:Htest;
      cbn [andb].
    + destruct (String.prefix "def " (py.strip line)) eqn:Hdef; cbn [negb].
      * cbn [andb function_code block_text]. by rewrite ?append_empty_r, ?append_assoc.
      * rewrite IH; cbn [function_code in_function indent_level block_text]; try done.
        -- by rewrite ?append_assoc.
        -- rewrite !count_newlines_append. change (count_newlines nl) with 1%nat. lia.
    + rewrite IH; cbn [function_code in_function indent_level block_text]; try done.
      * by rewrite ?append_assoc.
      * rewrite !count_newlines_append. change (count_newlines nl) with 1%nat. lia.
Qed.

Lemma extract_before (func_name : string) (before lines : list string) (s : scan) :
  Forall (fun line => starts_function func_name line = false) before ->
  in_function s = false ->
  extract func_name (before ++ lines) s = extract func_name lines s.
Proof.
  intros Hnone Hin. induction Hnone as [|line rest Hline _ IH]; [done|].
  cbn [app extract]. by rewrite Hline, Hin.
Qed.

(** X27.  The source [spec_create] extracts, on the lines of a file,
    none of which holds a line feed, and of which [first] is the first
    that starts the function: the text of [first], of the line after it,
    and of the lines that follow up to and including the first that starts
    the function again or that is not blank, does not begin with more
    spaces than the [def] line is indented (the [def] line being the
    second line if that starts the function too) and, stripped, begins
    with [def ]; every remaining line of the file if there is no such
    line.  So the header of the next definition is part of the source
    extracted, a statement at the level of the function does not end it,
    and neither does the second line, whatever it is. *)
Theorem extraction_runs_to_next_definition (func_name : string)
    (before : list string) (first : string) (rest : list string) :
  Forall (fun line => starts_function func_name line = false) before ->
  starts_function func_name first = true ->
  Forall (fun line => count_newlines line = 0%nat) (first :: rest) ->
  function_code (extract func_name (before ++ first :: rest)
                   {| function_code := ""; in_function := false; indent_level := 0 |})
  = block_text
      (first ::
       match rest with
       | [] => []
       | second :: others =>
         let indent :=
           indentation (if starts_function func_name second then second else first) in
         second :: through (ends_function func_name indent) others
       end).
Proof.
  intros Hbefore Hfirst Hlines. rewrite extract_before by done.
  apply Forall_cons in Hlines as [Hc1 Hlines].
  cbn [extract]. rewrite Hfirst. cbn [in_function function_code indent_level].
  change ("" +:+ first +:+ nl) with (first +:+ nl).
  rewrite count_newlines_append, Hc1. cbn [count_newlines nl Nat.add].
  change (2 <? _)%nat with false. cbn [andb].
  destruct rest as [|second others]; [done|].
  apply Forall_cons in Hlines as [Hc2 _].
  cbn [extract]. fold (indentation first). fold (indentation second).
  set (s1 := if starts_function func_name second then _ else _).
  assert (in_function s1 = true) as Hin by (subst s1; by case_match).
  assert (function_code s1 = first +:+ nl) as Hcode by (subst s1; by case_match).
  assert (indent_level s1
          = indentation (if starts_function func_name second then second else first))
    as Hindent by (subst s1; by case_match).
  rewrite Hin. cbn [function_code in_function indent_level]. rewrite Hcode.
  rewrite !count_newlines_append, Hc1, Hc2.
  change (2 <? _)%nat with false. cbn [andb].
  rewrite (extract_others func_name
             (indentation (if starts_function func_name second then second else first))
             others);
    cbn [function_code in_function indent_level]; try done.
  - cbn [block_text]. by rewrite ?append_assoc.
  - rewrite !count_newlines_append, Hc1, Hc2. change (count_newlines nl) with 1%nat. lia.
Qed.

(** X28.  [spec_create] gives up with exit code 1 for want of the
    function exactly when no line of the file, stripped, starts with
    [def <name>(]. *)
Theorem function_found_iff_a_line_starts_it (func_name : string) (lines : list string) :
  function_source func_name (Ok lines) = inr (Exit 1)
  ↔ Forall (fun line => starts_function func_name line = false) lines.
Proof.
  unfold function_source. split.
  - intros Hexit. apply Forall_forall. intros line Hline.
    destruct (starts_function func_name line) eqn:Hstart; [|done]. exfalso.
    assert (∃ first text,
              starts_function func_name first = true
              ∧ function_code
                  (extract func_name lines
                     {| function_code := ""; in_function := false; indent_level := 0 |})
                = first +:+ text) as (first & text & Hfirst & Hcode).
    { clear Hexit. induction lines as [|l rest IH]; [by apply elem_of_nil in Hline|].
      destruct (starts_function func_name l) eqn:Hl.
      - destruct (extract_inside func_name (l :: rest)
                    {| function_code := ""; in_function := true; indent_level := 0 |}
                    eq_refl) as (block & after & Hsplit & Hext & Hlast).
        exists l. destruct block as [|first block].
        + cbn in Hsplit. subst after. destruct (Hlast ltac:(done)) as (? & ? & _). done.
        + cbn in Hsplit. injection Hsplit as <- _. eexists. split; [done|].
          assert (function_code
                    (extract func_name (l :: rest)
                       {| function_code := ""; in_function := false; indent_level := 0 |})
                  = function_code
                      (extract func_name (l :: rest)
                         {| function_code := ""; in_function := true; indent_level := 0 |}))
            as -> by (cbn [extract]; by rewrite Hl).
          rewrite Hext. reflexivity.
      - apply elem_of_cons in Hline as [->|Hline]; [congruence|].
        destruct (IH Hline) as (first & text & Hfirst & Hcode).
        exists first, text. split; [done|]. cbn [extract]. rewrite Hl. exact Hcode. }
    rewrite Hcode in Hexit. case_bool_decide as Hblank; [|done].
    apply strip_blank in Hblank. rewrite blank_append in Hblank.
    rewrite (starts_function_not_blank _ _ Hfirst) in Hblank. done.
  - intros Hnone.
    assert (∀ s, in_function s = false -> extract func_name lines s = s) as ->; [|done..].
    induction Hnone as [|line rest Hline _ IH]; intros s Hin; [done|].
    cbn [extract]. rewrite Hline, Hin. by apply IH.
Qed.

Lemma show_run (entry : entry) (out : list line) :
  show entry out
  = (match fitness_results entry with
     | Some _ => Ok tt
     | None => Raise (Exception ValueError
                        "Unknown format code 'f' for object of type 'str'")
     end, out ++ shown_lines entry).
Proof.
  unfold show, shown_lines, print. st_simpl.
  destruct (fitness_results entry); st_simpl; by rewrite <- !app_assoc.
Qed.

Lemma generations_shown_app (a b : list line) :
  generations_shown (a ++ b) = generations_shown a ++ generations_shown b.
Proof. unfold generations_shown. apply omap_app. Qed.

Lemma generations_shown_lines (entry : entry) :
  generations_shown (shown_lines entry) = [generation entry].
Proof. unfold shown_lines. by destruct (fitness_results entry). Qed.

#[local] Arguments show : simpl never.

Lemma show_all (data : list entry) : ∀ out,
  Forall (fun e => is_Some (fitness_results e)) data ->
  ∃ out', for_each data show out = (Ok tt, out')
          ∧ generations_shown out' = generations_shown out ++ map generation data.
Proof.
  induction data as [|entry data IH]; intros out Hall.
  { exists out. by rewrite app_nil_r. }
  apply Forall_cons in Hall as [[r Hr] Hall].
  cbn [for_each]. rewrite bind_run, show_run, Hr.
  destruct (IH (out ++ shown_lines entry) Hall) as (out' & -> & Hshown).
  exists out'. split; [done|].
  rewrite Hshown, generations_shown_app, generations_shown_lines. by rewrite <- app_assoc.
Qed.

Lemma show_until (shown : list entry) (failed : entry) (later : list entry) : ∀ out,
  Forall (fun e => is_Some (fitness_results e)) shown ->
  fitness_results failed = None ->
  ∃ out', for_each (shown ++ failed :: later) show out
          = (Raise (Exception ValueError
                      "Unknown format code 'f' for object of type 'str'"), out')
          ∧ generations_shown out'
            = generations_shown out ++ map generation (shown ++ [failed]).
Proof.
  induction shown as [|entry shown IH]; intros out Hall Hfailed.
  { cbn [app for_each]. rewrite bind_run, show_run, Hfailed.
    eexists. split; [done|].
    by rewrite generations_shown_app, generations_shown_lines. }
  apply Forall_cons in Hall as [[r Hr] Hall].
  cbn [app for_each]. rewrite bind_run, show_run, Hr.
  destruct (IH (out ++ shown_lines entry) Hall Hfailed) as (out' & -> & Hshown).
  exists out'. split; [done|].
  rewrite Hshown, generations_shown_app, generations_shown_lines. by rewrite <- app_assoc.
Qed.

(** X29.  [history] on a history file with an entry whose fitness
    dictionary is empty: the entries before it are shown; at that entry the
    command prints generation, time stamp and status, and ends with an
    uncaught [ValueError] from formatting the missing score; no later
    entry is shown. *)
Theorem history_stops_at_entry_without_score (shown : list entry) (failed : entry)
    (later : list entry) :
  Forall (fun e => is_Some (fitness_results e)) shown ->
  fitness_results failed = None ->
  ∃ out e,
    history (Some (Ok (shown ++ failed :: later))) = (Uncaught e, out)
    ∧ exn_cls e = ValueError
    ∧ generations_shown out = map generation (shown ++ [failed]).
Proof.
  intros Hall Hfailed. unfold history.
  destruct (show_until shown failed later [] Hall Hfailed) as (out & -> & Hshown).
  by eexists _, _.
Qed.

Section with_runtime.
Context `{Runtime}.

(** X30.  [history] on the history of a completed evolution run,
    as [evolve_tests] records it: the command shows every generation and
    returns if no generation has status [error], and ends with an uncaught
    [ValueError] if one has. *)
Theorem history_of_a_run (c : collaborators) (project_root_dir code : string)
    (spec : test_specifications) (max_generations : Z) (w : testing_env.storage * rng)
    (s : EvolutionOrchestrator) (st' : state) :
  evolve_tests c project_root_dir code spec max_generations (__init__, w) = (Ok s, st') ->
  let shown := history (Some (Ok (evolution_history s))) in
  ("error" ∉ map status (evolution_history s) ->
     shown.1 = Finished
     ∧ generations_shown shown.2 = seq 0 (S (Z.to_nat max_generations)))
  ∧ ("error" ∈ map status (evolution_history s) ->
     ∃ e, shown.1 = Uncaught e ∧ exn_cls e = ValueError).
Proof.
  intros (first & later & Hhist & Hgen & Hs & Hf & Hgens & Hall & _)%evolution_more.evolve_tests_step.
  cbn zeta. rewrite Hhist. unfold history. split.
  - intros Hnone.
    destruct (show_all (first :: later) []) as (out & -> & Hshown).
    { constructor; [done|]. rewrite Forall_forall in Hall |- *. intros e He.
      destruct (Hall e He) as [_ Hiff].
      destruct (fitness_results e) eqn:Hfit; [done|]. exfalso. apply Hnone.
      cbn. right. apply list_elem_of_fmap. exists e. split; [|done].
      symmetry. by apply Hiff. }
    cbn [fst snd]. split; [done|]. rewrite Hshown. cbn. by rewrite Hgen, Hgens.
  - intros Hin. cbn in Hin. rewrite Hs in Hin.
    apply elem_of_cons in Hin as [?|Hin]; [done|].
    apply list_elem_of_fmap in Hin as (e & Hstatus & He).
    assert (∃ i, list_find (fun e => fitness_results e = None) (first :: later)
                 = Some i) as [[i failed] Hfind].
    { destruct (list_find _ _) eqn:Hfind; [by eexists|].
      apply list_find_None in Hfind. rewrite Forall_forall in Hfind, Hall.
      destruct (Hall e He) as [_ Hiff]. exfalso.
      apply (Hfind e); [by right|]. by apply Hiff. }
    apply list_find_Some in Hfind as (Hi & Hfailed & Hbefore).
    apply list_elem_of_split_length in Hi as (shown & rest & Hsplit & Hlen).
    rewrite Hsplit.
    destruct (show_until shown failed rest []) as (out & -> & _); [|done|].
    + apply Forall_forall. intros x Hx.
      apply list_elem_of_lookup in Hx as [j Hj].
      assert ((first :: later) !! j = Some x) as Hj'.
      { rewrite Hsplit. by apply lookup_app_l_Some. }
      specialize (Hbefore j x Hj'). apply lookup_lt_Some in Hj.
      destruct (fitness_results x); [done|]. exfalso. apply Hbefore; [lia|done].
    + by eexists.
Qed.

End with_runtime.
End cli_facts.

(** ** The theorems at work on the examples *)
Module scenarios.
Import testing_env fitness_evaluator evolution_orchestrator detection example.

(** The embedding on the scenarios of the specification. *)

(** One fault in [add]: the [return] statement is chosen and returns 0. *)
Example inject_one_fault :
  fault_injector.inject_simple_fault code_add 1 5%nat
  = (Ok ("def add(a, b):" +:+ nl +:+ "    return 0"), 1%nat).
Proof. vm_compute. reflexivity. Qed.

(** The store of [add] holds a tree. *)
Example tree_add_is_tree : ast.is_tree tree_add 0%nat.
Proof.
  exists (ast.Shape 0 [ast.Shape 1 [ast.Shape 2 [ast.Shape 3
            [ast.Shape 4 []; ast.Shape 5 []]]]])%nat.
  split; [reflexivity|]. split.
  - repeat (econstructor; try reflexivity).
  - apply (bool_decide_unpack _). vm_compute. reflexivity.
Qed.

(** Scenario C: five faults requested where two locations exist; two are
    counted and nothing is raised. *)
Example inject_more_than_possible :
  ∃ st, fault_injector.inject_faults 0%nat
          ({| fault_injector.self := fault_injector.__init__ 5;
              fault_injector.nodes := tree_add |}, 5%nat) = (Ok 0%nat, st)
        ∧ fault_injector.faults_injected (fault_injector.self st.1) = 2.
Proof. eexists. split; vm_compute; reflexivity. Qed.

(** A module without fault location comes back as it is rendered, and the
    generator is not touched. *)
Example inject_without_location :
  fault_injector.inject_simple_fault code_const 1 5%nat = (Ok "LIMIT = 10", 5%nat).
Proof. vm_compute. reflexivity. Qed.

(** Scenario A: 50 + 30 + 20. *)
Example scenario_a_score :
  ∃ score, calculate_total_score scenario_a (YNum 90) = Ok score ∧ (score == 100)%Q.
Proof. eexists. split; vm_compute; reflexivity. Qed.

(** Scenario D: 50 + 21 - 10. *)
Example scenario_d_score :
  ∃ score, calculate_total_score scenario_d (YNum 90) = Ok score ∧ (score == 61)%Q.
Proof. eexists. split; vm_compute; reflexivity. Qed.

(** Coverage is rounded to two decimals: 2 lines of 3 are 66.67%. *)
Example two_thirds_covered : (py.round2 (inject_Z 2 / inject_Z 3 * 100) == 6667 # 100)%Q.
Proof. vm_compute. reflexivity. Qed.

(** A failure inside the sandboxes of a generation is absorbed by
    [evaluate_tests]: the generation is recorded with the scores that
    result, as [not_best]. *)
Example sandbox_failure_is_not_best :
  ∃ s st, evolve_tests disk_full_once "/project" code_add spec_90 1 start = (Ok s, st)
          ∧ map status (evolution_history s) = ["initial_generation"; "not_best"].
Proof. eexists _, _. split; vm_compute; reflexivity. Qed.

(** A storage fault in [setup_environment] leaves the evaluation with pass
    rate, coverage and score 0, the error text in the report, and an empty
    storage. *)
Example evaluation_on_full_disk :
  ∃ r, evaluate_tests disk_full "/project" code_add "suite" spec_90 3 (∅, 0%nat)
       = (Ok r, (∅, 1%nat))
       ∧ total_score r = 0%Q
       ∧ test_suite_error_output r
         = "Error: [Errno 28] No space left on device" +:+ nl
           +:+ "Error mutation 1: [Errno 28] No space left on device" +:+ nl
           +:+ "Error mutation 2: [Errno 28] No space left on device" +:+ nl
           +:+ "Error mutation 3: [Errno 28] No space left on device" +:+ nl.
Proof. eexists. split; [|split]; vm_compute; reflexivity. Qed.

(** The reports of the example decoder count lines. *)
Lemma report_counts_nonneg : counts_nonneg.
Proof.
  intros text c m. cbn. unfold load_report.
  repeat case_decide; intros [= <- <-]; cbn; lia.
Qed.

(** C1 on a suite that fails on the correct function while its coverage is
    70% and every mutant run fails. *)
Lemma false_positive_scores_zero_witness :
  ∃ r w',
    evaluate_tests suite_fails "/project" code_add "suite" spec_90 3 (∅, 0%nat) = (Ok r, w')
    ∧ false_positives_detected r = true
    ∧ total_score r = 0%Q.
Proof.
  eexists _, _. split; [vm_compute; reflexivity|]. split; [reflexivity|].
  apply (fitness_evaluator_facts.false_positive_scores_zero (H := runtime) suite_fails "/project"
           code_add "suite" spec_90 3 (∅, 0%nat) (∅, 1%nat));
    [exact report_counts_nonneg | vm_compute; reflexivity | reflexivity].
Defined.

(** C2 on the scores of scenario A, with a minimum coverage of 90. *)
Lemma total_score_range_witness :
  ∃ score, calculate_total_score scenario_a (YNum 90) = Ok score
           ∧ (0 <= score <= 100)%Q.
Proof.
  apply (fitness_evaluator_facts.total_score_range scenario_a 90); cbn.
  - split; discriminate.
  - split; discriminate.
  - right. reflexivity.
  - discriminate.
Defined.

(** C3 on a run of two generations after the initial one. *)
Lemma best_score_never_decreases_witness :
  ∃ s_2 st_2 s_1 st_1,
    evolve_tests steady "/project" code_add spec_90 2 start = (Ok s_2, st_2)
    ∧ evolve_tests steady "/project" code_add spec_90 1 start = (Ok s_1, st_1)
    ∧ (best_total s_1 <= best_total s_2)%Q.
Proof.
  eexists _, _.
  assert (evolve_tests steady "/project" code_add spec_90 (Z.of_nat 2) start
          = (Ok _, _)) as Hrun by (vm_compute; reflexivity).
  destruct (evolution_facts.best_score_never_decreases (H := runtime) steady
              "/project" code_add spec_90 1 2 start _ _ (le_S 1 1 (le_n 1)) Hrun)
    as (s_1 & st_1 & Hrun_1 & Hle & _).
  exists s_1, st_1. split; [exact Hrun|]. split; [exact Hrun_1|exact Hle].
Defined.







(** C8 on a text the parser rejects. *)
Lemma inject_simple_fault_syntax_error_witness :
  fault_injector.inject_simple_fault code_broken 1 7%nat = (Ok code_broken, 7%nat).
Proof.
  apply (fault_injector_facts.inject_simple_fault_syntax_error (H := runtime)
           code_broken 1 7%nat (Exception SyntaxError "invalid syntax")).
  reflexivity.
Defined.

(** C8 as stated fails: the parser rejects the text, and the call of
    [inject_simple_fault] does not raise. *)
Lemma syntax_error_is_swallowed :
  parse code_broken = Raise (Exception SyntaxError "invalid syntax")
  ∧ ∀ e g, fault_injector.inject_simple_fault code_broken 1 7%nat ≠ (Raise e, g).
Proof. split; [reflexivity|]. intros e g. vm_compute. discriminate. Qed.

(** C9 on sandboxes whose storage fails during [setup_environment], from a
    storage in which the directory of the first sandbox already exists. *)
Lemma working_directories_removed_witness :
  let before : storage :=
    {[ working_directory (correct disk_full) (test_runs "/project") := {[ "stale.py" := "" ]} ]} in
  let after :=
    (evaluate_tests disk_full "/project" code_add "suite" spec_90 3 (before, 0%nat)).2.1 in
  after !! working_directory (correct disk_full) (test_runs "/project") = None
  ∧ after !! working_directory (mutated disk_full 2) (test_runs "/project") = None.
Proof.
  intros before after.
  destruct (fitness_evaluator_facts.working_directories_removed (H := runtime)
              disk_full "/project" code_add "suite" spec_90 3 (before, 0%nat))
    as [Hcorrect Hmutants].
  split; [exact Hcorrect|]. apply (Hmutants 2%nat).
  - vm_compute. reflexivity.
  - vm_compute. reflexivity.
Defined.

(** C10 on a suite that detects every mutant. *)
Lemma one_mutant_per_evaluation_witness :
  ∃ r w',
    evaluate_tests all_detected "/project" code_add "suite" spec_90 3 (∅, 0%nat)
      = (Ok r, w')
    ∧ (bug_detection_rate r == 0 ∨ bug_detection_rate r == 100)%Q.
Proof.
  eexists _, _.
  assert (evaluate_tests all_detected "/project" code_add "suite" spec_90 3
            (∅, 0%nat) = (Ok _, _)) as Hrun by (vm_compute; reflexivity).
  split; [exact Hrun|].
  apply (proj2 (fitness_evaluator_facts.one_mutant_per_evaluation
                  (H := runtime) _ _ _ _ _ _ _ _ _ Hrun)).
  intros a b Ha Hb.
  apply list_elem_of_In in Ha, Hb. vm_compute in Ha, Hb.
  destruct Ha as [<-|[<-|[<-|[]]]], Hb as [<-|[<-|[<-|[]]]]; reflexivity.
Defined.

(** C10 as stated fails: a suite that fails in the first iteration only
    has a bug-detection rate of 100/3. *)
Lemma intermediate_bug_detection_rate :
  ∃ r w',
    evaluate_tests first_mutant_only "/project" code_add "suite" spec_90 3 (∅, 0%nat)
      = (Ok r, w')
    ∧ ¬ (bug_detection_rate r == 0 ∨ bug_detection_rate r == 100)%Q.
Proof.
  eexists _, _. split; [vm_compute; reflexivity|].
  intros [Hrate|Hrate]; vm_compute in Hrate; discriminate.
Qed.

End scenarios.

(** ** The further properties at work on the examples *)
Module more_scenarios.
Import testing_env fitness_evaluator evolution_orchestrator detection example samples.

(** The source of [foo] as [spec_create] extracts it: the scan goes on to
    the header of [bar]. *)
Example extraction_overruns :
  cli.function_source "foo" (Ok two_functions)
  = inl ("def foo(a):" +:+ nl +:+ "    x = 1" +:+ nl +:+ "    return x" +:+ nl
           +:+ nl +:+ "y = 2" +:+ nl +:+ "def bar():" +:+ nl).
Proof. vm_compute. reflexivity. Qed.

(** A specification without source code, and one that is not there. *)
Example workflow_without_source_code :
  main_orchestrator.run_evolution_workflow spec_files failing_run "specs/no_code.yaml" 5 tt
  = (spec_parser.Returns None, tt)
  ∧ main_orchestrator.run_evolution_workflow spec_files failing_run "specs/none.yaml" 5 tt
    = (spec_parser.Returns None, tt).
Proof. split; vm_compute; reflexivity. Qed.

(** A script that completes is removed, and its output reported. *)
Example script_is_removed :
  tools.execute_python_code quiet "print(1)" "/work" empty_machine
  = (Ok ("STDOUT:" +:+ nl +:+ nl +:+ "STDERR:" +:+ nl),
     {| tools.files := ∅;
        tools.started := [["python"; "/work/__temp_exec_script__.py"]] |}).
Proof. vm_compute. reflexivity. Qed.

(** Five faults requested on [add]. *)
Lemma faults_within_request_witness :
  ∃ st, fault_injector.inject_faults 0%nat
          ({| fault_injector.self := fault_injector.__init__ 5;
              fault_injector.nodes := tree_add |}, 5%nat) = (Ok 0%nat, st)
        ∧ 0 <= fault_injector.faults_injected (fault_injector.self st.1) <= 5.
Proof.
  eexists.
  assert (fault_injector.inject_faults 0%nat
            ({| fault_injector.self := fault_injector.__init__ 5;
                fault_injector.nodes := tree_add |}, 5%nat) = (Ok 0%nat, _)) as Hrun
    by (vm_compute; reflexivity).
  split; [exact Hrun|].
  exact (proj2 (proj2 (fault_injector_more.faults_within_request (H := runtime)
                         0%nat tree_add 5 5%nat 0%nat _ ltac:(lia) Hrun))).
Defined.

(** The bare [return] of [wait] is not touched, and with one fault
    requested the [while] statement is picked and counted, and nothing is
    changed. *)
Lemma only_mutable_nodes_change_witness :
  fault_injector.nodes
    (fault_injector.inject_faults 0%nat (injector_on tree_wait)).2.1 !! 5%nat
  = Some (ast.Return None)
  ∧ ∃ st', fault_injector.inject_faults 0%nat (injector_on tree_wait) = (Ok 0%nat, st')
           ∧ fault_injector.faults_injected (fault_injector.self st'.1) = 1
           ∧ fault_injector.nodes st'.1 = tree_wait.
Proof.
  destruct (fault_injector_more.only_mutable_nodes_change (H := runtime) 0%nat
              (injector_on tree_wait).1 0%nat) as [Hsame Hwhile].
  split; [apply Hsame; reflexivity|].
  eexists. split; [vm_compute; reflexivity|].
  apply (Hwhile shape_wait 2%nat 3%nat [4%nat] []).
  - reflexivity.
  - repeat (econstructor; try reflexivity).
  - apply (bool_decide_unpack _). vm_compute. reflexivity.
  - apply (bool_decide_unpack _). vm_compute. reflexivity.
  - reflexivity.
  - reflexivity.
  - apply (bool_decide_unpack _). vm_compute. reflexivity.
  - vm_compute. reflexivity.
  - vm_compute. reflexivity.
Defined.

Lemma tree_const_no_location :
  map_Forall (fun _ node => fault_injector.is_fault_location node = false) tree_const.
Proof. apply (bool_decide_unpack _). vm_compute. reflexivity. Qed.

Lemma without_fault_location_witness :
  (fault_injector.inject_simple_fault code_const 3 7%nat).2 = 7%nat.
Proof.
  exact (proj1 (fault_injector_more.without_fault_location (H := runtime)
                  code_const 3 7%nat tree_const 0%nat eq_refl tree_const_no_location)).
Defined.

Lemma tree_wait_not_mutable :
  map_Forall (fun _ node => fault_injector_relations.mutable node = false) tree_wait.
Proof. apply (bool_decide_unpack _). vm_compute. reflexivity. Qed.

(** [wait] has two fault locations, a [while] statement and a bare
    [return]: with three faults requested both are visited and counted,
    and the text returned is the rendering of the tree as it was parsed. *)
Lemma nothing_mutable_no_mutant_witness :
  (fault_injector.inject_simple_fault (H := with_loops) code_wait 3 0%nat).1
  = Ok ("def wait(ready):" +:+ nl +:+ "    while ready():" +:+ nl
          +:+ "        pass" +:+ nl +:+ "    return")
  ∧ (fault_injector.inject_simple_fault (H := with_loops) code_wait 3 0%nat).1
    = @unparse with_loops tree_wait 0%nat.
Proof.
  destruct (fault_injector_more.nothing_mutable_no_mutant (H := with_loops)
              code_wait 3 0%nat tree_wait 0%nat eq_refl tree_wait_not_mutable)
    as [Hcode|Hrendered].
  - vm_compute in Hcode. discriminate Hcode.
  - split; [|exact Hrendered]. rewrite Hrendered. vm_compute. reflexivity.
Defined.

Lemma binop_mutation_changes_operator_witness :
  ∃ st' new_op,
    fault_injector._mutate_binop 3%nat (injector_on tree_add) = (Ok tt, st')
    ∧ fault_injector.nodes st'.1 !! 3%nat = Some (ast.BinOp 4%nat new_op 5%nat)
    ∧ new_op ≠ ast.Add.
Proof.
  eexists.
  assert (fault_injector._mutate_binop 3%nat (injector_on tree_add) = (Ok tt, _)) as Hrun
    by (vm_compute; reflexivity).
  destruct (fault_injector_more.binop_mutation_changes_operator (H := runtime)
              3%nat 4%nat 5%nat ast.Add (injector_on tree_add) _ eq_refl Hrun)
    as (new_op & Hnode & Hne & _).
  exists new_op. split; [exact Hrun|]. split; [exact Hnode|exact Hne].
Defined.

Lemma compare_mutation_changes_first_operator_witness :
  ∃ st' new_comp,
    fault_injector._mutate_compare 0%nat (injector_on tree_compare) = (Ok tt, st')
    ∧ fault_injector.nodes st'.1 !! 0%nat
      = Some (ast.Compare 1%nat [new_comp] [2%nat])
    ∧ new_comp ≠ ast.Lt.
Proof.
  eexists.
  assert (fault_injector._mutate_compare 0%nat (injector_on tree_compare) = (Ok tt, _))
    as Hrun by (vm_compute; reflexivity).
  destruct (fault_injector_more.compare_mutation_changes_first_operator (H := runtime)
              0%nat 1%nat [ast.Lt] [2%nat] (injector_on tree_compare) _ eq_refl Hrun)
    as (new_comp & Hnode & Hne & _).
  exists new_comp. split; [exact Hrun|]. split; [exact Hnode|exact Hne].
Defined.

Lemma boolop_mutation_swaps_witness :
  ∃ st',
    fault_injector._mutate_boolop 0%nat (injector_on tree_boolop) = (Ok tt, st')
    ∧ fault_injector.nodes st'.1 !! 0%nat = Some (ast.BoolOp ast.Or [1%nat; 2%nat]).
Proof.
  eexists.
  assert (fault_injector._mutate_boolop 0%nat (injector_on tree_boolop) = (Ok tt, _))
    as Hrun by (vm_compute; reflexivity).
  split; [exact Hrun|].
  exact (proj1 (fault_injector_more.boolop_mutation_swaps (H := runtime)
                  0%nat ast.And [1%nat; 2%nat] (injector_on tree_boolop) _ eq_refl Hrun)).
Defined.

Lemma if_mutation_twice_witness :
  ∃ st',
    (fault_injector._mutate_if_condition 0%nat ;; fault_injector._mutate_if_condition 0%nat)
      (injector_on tree_if) = (Ok tt, st')
    ∧ fault_injector.nodes st'.1 !! 0%nat = Some (ast.If 1%nat [2%nat] []).
Proof.
  destruct (fault_injector_more.if_mutation_twice (H := runtime)
              0%nat 1%nat [2%nat] [] (injector_on tree_if) eq_refl)
    as (st' & Hrun & Hnode & _).
  - intros operand. vm_compute. discriminate.
  - exists st'. split; [exact Hrun|exact Hnode].
Defined.

Lemma setup_environment_files_witness :
  ∃ env fs' files,
    setup_environment (sandbox_exiting "sandbox" 0 None)
      {| base_dir := "/project/output/test_runs";
         run_dir := "/project/output/test_runs/sandbox";
         source_file_path := None; test_file_path := None |}
      code_add "suite" "target_function.py" "test_target_function.py" ∅ = (Ok env, fs')
    ∧ fs' !! "/project/output/test_runs/sandbox" = Some files
    ∧ files !! "target_function.py" = Some code_add
    ∧ files !! "test_target_function.py" = Some "suite"
    ∧ files !! "__init__.py" = Some "".
Proof.
  destruct (testing_env_more.setup_environment_files (sandbox_exiting "sandbox" 0 None)
              {| base_dir := "/project/output/test_runs";
                 run_dir := "/project/output/test_runs/sandbox";
                 source_file_path := None; test_file_path := None |}
              code_add "suite" "target_function.py" "test_target_function.py" ∅
              eq_refl eq_refl eq_refl)
    as (fs' & files & Hrun & _ & Hdir & Hinit & Htest & Hsource & _).
  eexists _, fs', files. split; [exact Hrun|]. split; [exact Hdir|].
  split; [|split; [|exact Hinit]].
  - apply Hsource; vm_compute; discriminate.
  - apply Htest. vm_compute. discriminate.
Defined.

Lemma coverage_is_a_percentage_witness :
  ∃ percentage raw fs',
    get_coverage (sandbox_exiting "sandbox" 0 report_70) env_ready ∅
      = (Ok (percentage, raw), fs')
    ∧ (0 <= percentage <= 100)%Q.
Proof.
  eexists _, _, _.
  assert (get_coverage (sandbox_exiting "sandbox" 0 report_70) env_ready ∅
          = (Ok (_, _), _)) as Hrun by (vm_compute; reflexivity).
  split; [exact Hrun|].
  exact (testing_env_more.coverage_is_a_percentage (H := runtime) _ _ _ _ _ _
           scenarios.report_counts_nonneg Hrun).
Defined.

Lemma report_within_ranges_witness :
  ∃ r w',
    evaluate_tests first_mutant_only "/project" code_add "suite" spec_90 3 (∅, 0%nat)
      = (Ok r, w')
    ∧ (0 <= bug_detection_rate r <= 100)%Q
    ∧ (0 <= total_score r <= 100)%Q.
Proof.
  eexists _, _.
  assert (evaluate_tests first_mutant_only "/project" code_add "suite" spec_90 3
            (∅, 0%nat) = (Ok _, _)) as Hrun by (vm_compute; reflexivity).
  split; [exact Hrun|].
  exact (proj2 (proj2 (fitness_evaluator_more.report_within_ranges (H := runtime)
                         _ _ _ _ _ _ _ _ _ scenarios.report_counts_nonneg Hrun))).
Defined.

Lemma positive_score_means_passing_witness :
  ∃ r w',
    evaluate_tests all_detected "/project" code_add "suite" spec_90 3 (∅, 0%nat)
      = (Ok r, w')
    ∧ test_pass_rate_correct_function r = 100%Q
    ∧ false_positives_detected r = false.
Proof.
  eexists _, _.
  assert (evaluate_tests all_detected "/project" code_add "suite" spec_90 3
            (∅, 0%nat) = (Ok _, _)) as Hrun by (vm_compute; reflexivity).
  split; [exact Hrun|].
  apply (fitness_evaluator_more.positive_score_means_passing (H := runtime)
           _ _ _ _ _ _ _ _ _ scenarios.report_counts_nonneg Hrun).
  vm_compute. reflexivity.
Defined.

Lemma score_grows_with_coverage_and_detection_witness :
  ∃ score score',
    calculate_total_score scenario_d (YNum 90) = Ok score
    ∧ calculate_total_score scenario_a (YNum 90) = Ok score'
    ∧ (score <= score')%Q.
Proof.
  eexists _, _.
  assert (calculate_total_score scenario_d (YNum 90) = Ok _) as Hd
    by (vm_compute; reflexivity).
  assert (calculate_total_score scenario_a (YNum 90) = Ok _) as Ha
    by (vm_compute; reflexivity).
  split; [exact Hd|]. split; [exact Ha|].
  apply (fitness_evaluator_more.score_grows_with_coverage_and_detection
           scenario_d scenario_a 90 _ _ eq_refl eq_refl eq_refl); [..|exact Hd|exact Ha];
    vm_compute; discriminate.
Defined.

Lemma unchanged_mutant_detects_nothing_witness :
  ∃ r w',
    evaluate_tests all_detected "/project" code_const "suite" spec_90 3 (∅, 0%nat)
      = (Ok r, w')
    ∧ bug_detection_rate r = 0%Q.
Proof.
  eexists _, _.
  assert (evaluate_tests all_detected "/project" code_const "suite" spec_90 3
            (∅, 0%nat) = (Ok _, _)) as Hrun by (vm_compute; reflexivity).
  split; [exact Hrun|].
  refine (proj1 (fitness_evaluator_more.unchanged_mutant_detects_nothing (H := runtime)
                   _ _ _ _ _ _ _ _ _ _ scenarios.report_counts_nonneg Hrun)).
  vm_compute. reflexivity.
Defined.

Lemma history_has_every_generation_witness :
  ∃ s st,
    evolve_tests steady "/project" code_add spec_90 2 start = (Ok s, st)
    ∧ map generation (evolution_history s) = [0; 1; 2]%nat.
Proof.
  eexists _, _.
  assert (evolve_tests steady "/project" code_add spec_90 2 start = (Ok _, _)) as Hrun
    by (vm_compute; reflexivity).
  split; [exact Hrun|].
  exact (proj1 (evolution_more.history_has_every_generation (H := runtime)
                  _ _ _ _ _ _ _ _ Hrun)).
Defined.

Lemma best_suite_dominates_history_witness :
  ∃ s st best,
    evolve_tests steady "/project" code_add spec_90 2 start = (Ok s, st)
    ∧ current_best_fitness s = Some best
    ∧ ∀ e r, e ∈ evolution_history s -> fitness_results e = Some r ->
        (total_score r <= total_score best)%Q.
Proof.
  eexists _, _.
  assert (evolve_tests steady "/project" code_add spec_90 2 start = (Ok _, _)) as Hrun
    by (vm_compute; reflexivity).
  destruct (evolution_more.best_suite_dominates_history (H := runtime)
              _ _ _ _ _ _ _ _ Hrun) as (best & Hbest & _ & Hmax).
  exists best. split; [exact Hrun|]. split; [exact Hbest|exact Hmax].
Defined.

(** The double nearest to [2^53 + 1] is [2^53]. *)
Example average_of_a_large_number :
  ∃ average, utils.calculate_average [2 ^ 53 + 1] = errors.Returns average
             ∧ (average == inject_Z (2 ^ 53))%Q.
Proof. eexists. split; vm_compute; reflexivity. Qed.

Example average_too_large :
  utils.calculate_average [10 ^ 400]
  = errors.Raises (errors.OverflowError "integer division result too large for a float").
Proof. vm_compute. reflexivity. Qed.


Lemma write_needs_a_directory_part_witness :
  tools.write_python_file quiet "test_add.py" "suite" empty_machine
  = (Ok "Error writing to file test_add.py: [Errno 2] No such file or directory: ''",
     empty_machine).
Proof.
  apply (tools_facts.write_needs_a_directory_part quiet "test_add.py" "suite" empty_machine).
  reflexivity.
Defined.

(** A text with a line end of two characters is read back with a line
    feed in its place. *)
Lemma written_file_reads_back_witness :
  ∃ m',
    tools.write_python_file quiet "tests/test_add.py" two_lines empty_machine
      = (Ok "Successfully wrote to tests/test_add.py", m')
    ∧ tools.read_python_file quiet "tests/test_add.py" m'
      = (Ok ("a = 1" +:+ nl +:+ "b = 2"), m').
Proof.
  eexists.
  assert (tools.write_python_file quiet "tests/test_add.py" two_lines empty_machine
          = (Ok "Successfully wrote to tests/test_add.py", _)) as Hrun
    by (vm_compute; reflexivity).
  split; [exact Hrun|].
  exact (proj1 (proj2 (proj2 (tools_facts.written_file_reads_back quiet _ _ _ _ Hrun))
                  eq_refl)).
Defined.

Lemma script_removed_only_after_completion_witness :
  ∃ text m',
    tools.execute_python_code slow "while True: pass" "/work" empty_machine = (Ok text, m')
    ∧ tools.files m' !! "/work/__temp_exec_script__.py" = Some "while True: pass".
Proof.
  destruct (tools_facts.script_removed_only_after_completion slow "while True: pass"
              "/work" empty_machine eq_refl eq_refl) as (text & Hrun & _).
  eexists _, _. split; [exact Hrun|]. vm_compute. reflexivity.
Defined.

Lemma unusable_specification_starts_no_run_witness :
  main_orchestrator.run_evolution_workflow spec_files failing_run "specs/llama.yaml" 5 tt
  = (spec_parser.Returns None, tt).
Proof.
  apply (main_orchestrator_facts.unusable_specification_starts_no_run spec_files
           failing_run "specs/llama.yaml" 5 tt).
  right. eexists _, _. split; [reflexivity|]. split; [reflexivity|].
  eexists. vm_compute. reflexivity.
Defined.

Lemma workflow_raises_what_the_run_raises_witness :
  ∃ r w',
    main_orchestrator.run_evolution_workflow spec_files failing_run "specs/list.yaml" 5 tt
      = (spec_parser.Raises r, w')
    ∧ ((∃ full_spec code text w1,
          spec_parser.load_spec spec_files "specs/list.yaml" = spec_parser.Returns full_spec
          ∧ main_orchestrator.field full_spec "target_function_info" "source_code" None
            = spec_parser.Returns (Some code)
          ∧ yaml.truthy (Some code) = true
          ∧ main_orchestrator.evolve_tests failing_run code text 5 w1
            = (spec_parser.Raises r, w'))
       ∨ (w' = tt
          ∧ ∃ full_spec section v,
              r = spec_parser.Error (yaml.no_attribute (Some v) "get")
              ∧ spec_parser.load_spec spec_files "specs/list.yaml"
                = spec_parser.Returns full_spec
              ∧ section ∈ ["target_function_info"; "llm_configuration"]
              ∧ yaml.get section full_spec = Some v
              ∧ ∀ items, v ≠ yaml.Mapping items)).
Proof.
  eexists _, _.
  assert (main_orchestrator.run_evolution_workflow spec_files failing_run
            "specs/list.yaml" 5 tt = (spec_parser.Raises _, _)) as Hrun
    by (vm_compute; reflexivity).
  split; [exact Hrun|].
  exact (main_orchestrator_facts.workflow_raises_what_the_run_raises spec_files
           failing_run "specs/list.yaml" 5 tt _ _ Hrun).
Defined.

Lemma history_stops_at_entry_without_score_witness :
  ∃ out e,
    cli.history (Some (Ok [error_entry 1; error_entry 2])) = (cli.Uncaught e, out)
    ∧ exn_cls e = ValueError
    ∧ cli.generations_shown out = [1%nat].
Proof.
  exact (cli_facts.history_stops_at_entry_without_score [] (error_entry 1)
           [error_entry 2] (Forall_nil_2 _) eq_refl).
Defined.

Lemma history_of_a_run_witness :
  ∃ s st e,
    evolve_tests failing_once "/project" code_add spec_90 2 start = (Ok s, st)
    ∧ (cli.history (Some (Ok (evolution_history s)))).1 = cli.Uncaught e
    ∧ exn_cls e = ValueError.
Proof.
  eexists _, _.
  assert (evolve_tests failing_once "/project" code_add spec_90 2 start = (Ok _, _))
    as Hrun by (vm_compute; reflexivity).
  destruct (cli_facts.history_of_a_run (H := runtime) _ _ _ _ _ _ _ _ Hrun) as [_ Herror].
  destruct Herror as (e & Hshown & Hcls).
  - apply (bool_decide_unpack _). vm_compute. reflexivity.
  - exists e. split; [exact Hrun|]. split; [exact Hshown|exact Hcls].
Defined.

(** The source of [foo] in a file with two functions: the statement
    after [foo] and the header of [bar] are part of it. *)
Lemma extraction_runs_to_next_definition_witness :
  cli.function_code
    (cli.extract "foo" two_functions
       {| cli.function_code := ""; cli.in_function := false; cli.indent_level := 0 |})
  = cli.block_text
      ["def foo(a):"; "    x = 1"; "    return x"; ""; "y = 2"; "def bar():"].
Proof.
  apply (cli_facts.extraction_runs_to_next_definition "foo" ["import os"; ""]
           "def foo(a):"
           ["    x = 1"; "    return x"; ""; "y = 2"; "def bar():"; "    pass"; "z = 3"]).
  - repeat constructor.
  - reflexivity.
  - repeat constructor.
Defined.

End more_scenarios.

(** ** Evaluations and runs on documents *)
Module document_scenarios.
Import example errors samples fitness_evaluator evolution_orchestrator
  fitness_evaluator_yaml evolution_orchestrator_yaml.

Lemma evaluation_raises_witness :
  (fitness_evaluator_yaml.evaluate_tests 4300 all_detected "/project" code_add "suite"
     (document (yaml.Text "90%")) 3 (∅, 0%nat)).1
  = Raises (Error (Exception TypeError
                     "'<' not supported between instances of 'float' and 'str'")).
Proof.
  exact (fitness_evaluator_yaml_facts.evaluation_raises (H := runtime) 4300 all_detected
           "/project" code_add "suite" (document (yaml.Text "90%")) 3 (∅, 0%nat)
           scenarios.report_counts_nonneg).
Defined.

(** A section without settings: nothing is done. *)
Example evaluation_without_settings :
  fitness_evaluator_yaml.evaluate_tests 4300 all_detected "/project" code_add "suite"
    document_without_settings 3 (∅, 0%nat)
  = (Raises (Error (Exception AttributeError "'NoneType' object has no attribute 'get'")),
     (∅, 0%nat)).
Proof. vm_compute. reflexivity. Qed.

(** The integers next to the largest double, as the minimum coverage of a
    suite that passes, and an integer of 4301 digits as that of a suite
    that fails. *)
Example evaluation_of_large_minimum :
  (fitness_evaluator_yaml.evaluate_tests 4300 all_detected "/project" code_add "suite"
     (document (yaml.Int (10 ^ 400))) 3 (∅, 0%nat)).1
  = Raises (OverflowError "int too large to convert to float")
  ∧ (fitness_evaluator_yaml.evaluate_tests 4300 all_detected "/project" code_add "suite"
       (document (yaml.Int (2 ^ 1024 - 2 ^ 970))) 3 (∅, 0%nat)).1
    = Raises (OverflowError "int too large to convert to float")
  ∧ (∃ report,
       (fitness_evaluator_yaml.evaluate_tests 4300 all_detected "/project" code_add "suite"
          (document (yaml.Int (2 ^ 1024 - 2 ^ 970 - 1))) 3 (∅, 0%nat)).1
       = Returns report)
  ∧ (∃ e,
       (fitness_evaluator_yaml.evaluate_tests 4300 suite_fails "/project" code_add "suite"
          (document (yaml.Int (10 ^ 4300))) 3 (∅, 0%nat)).1
       = Raises (Error e) ∧ exn_cls e = ValueError)
  ∧ (∃ report,
       (fitness_evaluator_yaml.evaluate_tests 4300 suite_fails "/project" code_add "suite"
          (document (yaml.Int (10 ^ 4300 - 1))) 3 (∅, 0%nat)).1
       = Returns report).
Proof.
  split; [vm_compute; reflexivity|]. split; [vm_compute; reflexivity|].
  split; [eexists; vm_compute; reflexivity|].
  split; [eexists; split; vm_compute; reflexivity|].
  eexists; vm_compute; reflexivity.
Qed.

(** A framework that is not a text fails every sandbox, and the report
    says so. *)
Example evaluation_with_framework_3 :
  ∃ report w',
    fitness_evaluator_yaml.evaluate_tests 4300 all_detected "/project" code_add "suite"
      document_with_framework_3 3 (∅, 0%nat) = (Returns report, w')
    ∧ total_score report = 0%Q
    ∧ test_suite_error_output report
      = "Error: 'int' object has no attribute 'lower'" +:+ nl
        +:+ "Error mutation 1: 'int' object has no attribute 'lower'" +:+ nl
        +:+ "Error mutation 2: 'int' object has no attribute 'lower'" +:+ nl
        +:+ "Error mutation 3: 'int' object has no attribute 'lower'" +:+ nl.
Proof. eexists _, _. split; [|split]; vm_compute; reflexivity. Qed.

Lemma run_raises_witness :
  ∃ e, evolve_tests 4300 (parsing_to yaml.Null silent) "/project" code_add "" 5 start
       = (Raises (Error e), start)
       ∧ func_name yaml.Null = Raise e
       ∧ exn_cls e = AttributeError.
Proof.
  assert (evolve_tests 4300 (parsing_to yaml.Null silent) "/project" code_add "" 5 start
          = (Raises (Error (yaml.no_attribute (Some yaml.Null) "get")), start)) as Hrun
    by (vm_compute; reflexivity).
  eexists. split; [exact Hrun|].
  destruct (evolution_orchestrator_yaml_facts.run_raises (H := runtime) _ _ _ _ _ _ _ _ _
              Hrun) as [[Hload _]|(parsed & Hload & Hcase)].
  - discriminate Hload.
  - injection Hload as <-.
    destruct Hcase
      as [(e & Hx & _ & [[Hn Hc]|(name & Hn & _)])
         |[(e & Hx & _ & Hgen)
          |[(gen & fb & suite & w & _ & Hgen & _)|(gen & e & _ & Hs & _)]]].
    + injection Hx as <-. split; [exact Hn|exact Hc].
    + discriminate Hn.
    + injection Hx as <-. discriminate Hgen.
    + discriminate Hgen.
    + discriminate Hs.
Defined.

(** A quoted minimum coverage raises in the first generation whose suite
    passes, here generation 1, with the entry of generation 0 recorded. *)
Example run_raises_in_generation_1 :
  ∃ st',
    evolve_tests 4300 (parsing_to (document (yaml.Text "90%")) steady) "/project" code_add
      "" 5 start
    = (Raises (Error (Exception TypeError
                        "'<' not supported between instances of 'float' and 'str'")),
       st')
    ∧ map generation (evolution_history st'.1) = [0%nat].
Proof. eexists. split; vm_compute; reflexivity. Qed.

(** Files that cannot be written in generation 2: the entry of the
    generation is in the history when the exception leaves. *)
Example run_raises_in_saving :
  ∃ st',
    evolve_tests 4300 (unwritable_in_generation_2 (document (yaml.Int 90))) "/project"
      code_add "" 5 start
    = (Raises (Error (Exception OSError "[Errno 28] No space left on device")), st')
    ∧ map generation (evolution_history st'.1) = [0%nat; 1%nat; 2%nat].
Proof. eexists. split; vm_compute; reflexivity. Qed.

(** A generator that fails after generation 0 raises nothing. *)
Example run_with_failing_generator :
  ∃ s st',
    evolve_tests 4300 (parsing_to (document (yaml.Int 90)) failing_once) "/project"
      code_add "" 2 start
    = (Returns s, st')
    ∧ map status (evolution_history s) = ["initial_generation"; "error"; "not_best"].
Proof. eexists _, _. split; vm_compute; reflexivity. Qed.

End document_scenarios.
